(** * Helmet-guard-vision: the detection-to-alert decision pipeline

    A shallow embedding of the decision logic of the repository:

    - [HelmetDetector.analyzeFrame] (the verdict rule, the access state
      machine and the degraded-mode fallback of the detector component);
    - the SQL migration (tables [helmet_detections] and [safety_alerts], the
      trigger functions [create_helmet_violation_alert] and
      [update_updated_at_column]);
    - [RealtimeAlerts] (the insert subscription, [sendEmailAlert] and
      [acknowledgeAlert]);
    - the edge function [send-safety-alert] ([handler]).

    Modelling conventions.  JavaScript numbers and SQL numerics are rationals
    ([Q]): the code only compares them, takes maxima and evaluates
    [a + r * b] on literals, so no rounding of IEEE doubles is modelled.
    Wall-clock time ([new Date()], [now()]), generated UUIDs, the draws of
    [Math.random()] and the outcomes of network calls are inputs of the
    operations.  Asynchronous calls are run to completion in program order. *)

From Stdlib Require Import ZArith QArith Qround String Ascii DecimalString List Bool Lia Lqa.
Import ListNotations.

Local Open Scope string_scope.
Local Open Scope list_scope.

(* ===================================================================== *)
(** * Part I: the model                                                  *)
(* ===================================================================== *)

(** ** JavaScript helpers *)

Module Js.

(** [s.includes(sub)]: [sub] occurs in [s] as a contiguous run. *)
Fixpoint includes (s sub : string) : bool :=
  prefix sub s ||
  match s with
  | EmptyString => false
  | String _ s' => includes s' sub
  end.

(** [a > b] on numbers. *)
Definition gt (a b : Q) : bool := negb (Qle_bool a b).

(** The larger of two numbers, as [Math.max] folds its arguments. *)
Definition max2 (a b : Q) : Q := if Qle_bool a b then b else a.

(** [Math.max(x, ...xs)] on a non-empty argument list. *)
Definition Math_max (x : Q) (xs : list Q) : Q := fold_left max2 xs x.

(** [c.toUpperCase()] restricted to ASCII letters. *)
Definition upper_char (c : ascii) : ascii :=
  let n := nat_of_ascii c in
  if (97 <=? n)%nat && (n <=? 122)%nat then ascii_of_nat (n - 32) else c.

Fixpoint toUpperCase (s : string) : string :=
  match s with
  | EmptyString => EmptyString
  | String c s' => String (upper_char c) (toUpperCase s')
  end.

(** The values read from a parsed JSON body: a string, or [undefined] for a
    property that is not there. *)
Inductive Val :=
| undefined
| str (s : string).

(** An object, as its properties in order. *)
Definition Object := list (string * Val).

(** [o.k], or the binding a destructuring pattern gives to [k]. *)
Fixpoint prop (o : Object) (k : string) : Val :=
  match o with
  | [] => undefined
  | (k', v) :: o' => if String.eqb k' k then v else prop o' k
  end.

(** [Object.keys(o)] *)
Definition keys (o : Object) : list string := map fst o.

End Js.

(** ** The verdict rule of [analyzeFrame] *)

Module Verdict.

(** One object as the classifier returns it:
    [{ box: {xmin, ymin, xmax, ymax}, score, label }]. *)
Record Box := { xmin : Q; ymin : Q; xmax : Q; ymax : Q }.
Record RawObject := { box : Box; score : Q; label : string }.

Record BoundingBox := {
  x : Q;
  y : Q;
  width : Q;
  height : Q;
  confidence : Q;
  bb_label : string
}.

Record DetectionResult := {
  hasHelmet : bool;
  dr_confidence : Q;
  timestamp : Z;
  boundingBoxes : list BoundingBox
}.

(** [results.map(obj => ({ x: obj.box.xmin, ... }))] *)
Definition toBoundingBox (obj : RawObject) : BoundingBox :=
  {| x := xmin (box obj);
     y := ymin (box obj);
     width := xmax (box obj) - xmin (box obj);
     height := ymax (box obj) - ymin (box obj);
     confidence := score obj;
     bb_label := label obj |}.

(** [obj.label === 'person'] *)
Definition isPerson (obj : BoundingBox) : bool :=
  String.eqb (bb_label obj) "person".

(** [label.includes('hat') || label.includes('helmet') ||
     label.includes('hardhat')] *)
Definition helmetLabel (l : string) : bool :=
  Js.includes l "hat" || Js.includes l "helmet" || Js.includes l "hardhat".

Definition isHelmet (obj : BoundingBox) : bool := helmetLabel (bb_label obj).

(** Lines 162-189 of the detector component: from the classifier's list to
    the [DetectionResult]; [now] is the value of [new Date()]. *)
Definition verdict (results : list RawObject) (now : Z) : DetectionResult :=
  let detectedObjects := map toBoundingBox results in
  let persons := filter isPerson detectedObjects in
  let helmets := filter isHelmet detectedObjects in
  let hasHelmet := (0 <? length persons)%nat && (0 <? length helmets)%nat in
  let confidence :=
    match map confidence helmets with
    | h :: hs => Js.Math_max h hs                 (* helmets.length > 0 *)
    | [] => if (0 <? length persons)%nat then 3 # 10 else 1 # 10
    end in
  {| hasHelmet := hasHelmet;
     dr_confidence := confidence;
     timestamp := now;
     boundingBoxes := persons ++ helmets |}.

End Verdict.

(** ** The database: the two tables and their triggers *)

Module Sql.

Definition uuid := string.
Definition timestamptz := Z.

(** A [DECIMAL(3,2)] value, stored as its number of hundredths. *)
Definition numeric_3_2 := Z.

(** Rounding to the nearest integer, ties away from zero, as a numeric
    column rounds an incoming value to its scale. *)
Definition round_half_away (q : Q) : Z :=
  if Qle_bool 0 q then Qfloor (q + (1 # 2)) else (- Qfloor (- q + (1 # 2)))%Z.

Inductive error :=
| unique_violation
| not_null_violation
| foreign_key_violation
| numeric_value_out_of_range.

(** Coercion of a number to [DECIMAL(3,2)]: two decimals are kept, and a
    rounded value with more than one integer digit overflows the column. *)
Definition to_numeric_3_2 (q : Q) : numeric_3_2 + error :=
  let h := round_half_away (q * 100) in
  if (Z.abs h <? 1000)%Z then inl h else inr numeric_value_out_of_range.

(** [ROUND(c * 100)] printed as text. *)
Definition round_percent_text (c : numeric_3_2) : string :=
  NilZero.string_of_int (Z.to_int c).

Module Detection.
(** A row of [public.helmet_detections]. *)
Record row := {
  id : uuid;
  worker_id : option string;
  has_helmet : bool;
  confidence : numeric_3_2;
  detection_timestamp : timestamptz;
  location : option string;
  image_data : option string;
  bounding_box : option (list Verdict.BoundingBox);
  alert_sent : bool;
  created_at : timestamptz
}.

(** The columns an [INSERT] of the detector component supplies. *)
Record values := {
  v_has_helmet : bool;
  v_confidence : Q;
  v_detection_timestamp : timestamptz;
  v_location : option string;
  v_image_data : option string;
  v_bounding_box : list Verdict.BoundingBox;
  v_alert_sent : bool
}.
End Detection.

Module Alert.
(** A row of [public.safety_alerts]. *)
Record row := {
  id : uuid;
  detection_id : option uuid;
  alert_type : string;
  message : string;
  severity : string;
  email_sent : bool;
  acknowledged : bool;
  created_at : timestamptz;
  updated_at : timestamptz
}.

Definition set_acknowledged (b : bool) (r : row) : row :=
  {| id := id r; detection_id := detection_id r; alert_type := alert_type r;
     message := message r; severity := severity r; email_sent := email_sent r;
     acknowledged := b;
     created_at := created_at r; updated_at := updated_at r |}.

Definition set_email_sent (b : bool) (r : row) : row :=
  {| id := id r; detection_id := detection_id r; alert_type := alert_type r;
     message := message r; severity := severity r; email_sent := b;
     acknowledged := acknowledged r;
     created_at := created_at r; updated_at := updated_at r |}.

Definition set_updated_at (t : timestamptz) (r : row) : row :=
  {| id := id r; detection_id := detection_id r; alert_type := alert_type r;
     message := message r; severity := severity r; email_sent := email_sent r;
     acknowledged := acknowledged r;
     created_at := created_at r; updated_at := t |}.
End Alert.

Record Database := {
  helmet_detections : list Detection.row;
  safety_alerts : list Alert.row
}.

Definition empty : Database :=
  {| helmet_detections := []; safety_alerts := [] |}.

(** What the server chooses while it executes one statement: the values of
    [gen_random_uuid()] for the two tables and of [now()]. *)
Record Fresh := {
  detection_uuid : uuid;
  alert_uuid : uuid;
  now : timestamptz
}.

Definition has_detection (i : uuid) (d : Database) : bool :=
  existsb (fun r => String.eqb (Detection.id r) i) (helmet_detections d).

Definition has_alert (i : uuid) (d : Database) : bool :=
  existsb (fun r => String.eqb (Alert.id r) i) (safety_alerts d).

(** [INSERT INTO public.safety_alerts (detection_id, alert_type, message,
    severity) VALUES (...)]: the other columns take their defaults; the
    message is [NOT NULL], the id is the primary key and [detection_id]
    references [helmet_detections(id)]. *)
Definition insert_safety_alert (g : Fresh) (detection : uuid)
    (type : string) (msg : option string) (sev : string)
    (d : Database) : Database + error :=
  match msg with
  | None => inr not_null_violation
  | Some m =>
    if has_alert (alert_uuid g) d then inr unique_violation
    else if negb (has_detection detection d) then inr foreign_key_violation
    else
      inl {| helmet_detections := helmet_detections d;
             safety_alerts :=
               safety_alerts d ++
               [ {| Alert.id := alert_uuid g;
                    Alert.detection_id := Some detection;
                    Alert.alert_type := type;
                    Alert.message := m;
                    Alert.severity := sev;
                    Alert.email_sent := false;
                    Alert.acknowledged := false;
                    Alert.created_at := now g;
                    Alert.updated_at := now g |} ] |}
  end.

(** [NOT NEW.has_helmet AND NEW.confidence > 0.6] *)
Definition violation (NEW : Detection.row) : bool :=
  negb (Detection.has_helmet NEW) && (60 <? Detection.confidence NEW)%Z.

(** ['SAFETY ALERT: ... at ' || NEW.location || ' with ' ||
     ROUND(NEW.confidence * 100) || '% confidence']; a NULL operand makes
    the concatenation NULL. *)
Definition alert_message (NEW : Detection.row) : option string :=
  match Detection.location NEW with
  | None => None
  | Some loc =>
    Some ("SAFETY ALERT: Worker detected without helmet at " ++ loc ++
          " with " ++ round_percent_text (Detection.confidence NEW) ++
          "% confidence")%string
  end.

(** The trigger function [create_helmet_violation_alert()], run
    [AFTER INSERT ON public.helmet_detections FOR EACH ROW]. *)
Definition create_helmet_violation_alert (g : Fresh) (NEW : Detection.row)
    (d : Database) : Database + error :=
  if violation NEW then
    insert_safety_alert g (Detection.id NEW) "helmet_violation"
      (alert_message NEW) "critical" d
  else inl d.

(** [INSERT INTO helmet_detections] as the detector component issues it,
    with the trigger; an error anywhere rolls the statement back. *)
Definition insert_detection (g : Fresh) (v : Detection.values)
    (d : Database) : Database + error :=
  match to_numeric_3_2 (Detection.v_confidence v) with
  | inr e => inr e
  | inl c =>
    if has_detection (detection_uuid g) d then inr unique_violation
    else
      let NEW :=
        {| Detection.id := detection_uuid g;
           Detection.worker_id := None;
           Detection.has_helmet := Detection.v_has_helmet v;
           Detection.confidence := c;
           Detection.detection_timestamp := Detection.v_detection_timestamp v;
           Detection.location := Detection.v_location v;
           Detection.image_data := Detection.v_image_data v;
           Detection.bounding_box := Some (Detection.v_bounding_box v);
           Detection.alert_sent := Detection.v_alert_sent v;
           Detection.created_at := now g |} in
      create_helmet_violation_alert g NEW
        {| helmet_detections := helmet_detections d ++ [NEW];
           safety_alerts := safety_alerts d |}
  end.

(** The trigger function [update_updated_at_column()], run
    [BEFORE UPDATE ON public.safety_alerts FOR EACH ROW]. *)
Definition update_updated_at_column (t : timestamptz) (NEW : Alert.row)
    : Alert.row :=
  Alert.set_updated_at t NEW.

(** [UPDATE public.safety_alerts SET ... WHERE id = i], with the trigger. *)
Definition update_safety_alert (t : timestamptz) (set : Alert.row -> Alert.row)
    (i : uuid) (d : Database) : Database :=
  {| helmet_detections := helmet_detections d;
     safety_alerts :=
       map (fun OLD =>
              if String.eqb (Alert.id OLD) i
              then update_updated_at_column t (set OLD)
              else OLD)
           (safety_alerts d) |}.

(** The alerts that reference the detection [i]. *)
Definition alerts_for (i : uuid) (d : Database) : list Alert.row :=
  filter (fun a => match Alert.detection_id a with
                   | Some j => String.eqb j i
                   | None => false
                   end)
         (safety_alerts d).

(** The databases the code of the repository produces from the empty one:
    the detector inserts detections, the panel acknowledges alerts and the
    edge function marks them as emailed. *)
Inductive reachable : Database -> Prop :=
| reach_empty : reachable empty
| reach_insert g v d d' :
    reachable d -> insert_detection g v d = inl d' -> reachable d'
| reach_acknowledge t i d :
    reachable d ->
    reachable (update_safety_alert t (Alert.set_acknowledged true) i d)
| reach_email_sent t i d :
    reachable d ->
    reachable (update_safety_alert t (Alert.set_email_sent true) i d).

End Sql.

(** ** Effects: state, a log and exceptions *)

Module Eff.

(** How a JavaScript computation ends: with a value, or with a thrown error
    (a rejected promise, once awaited). *)
Inductive outcome (A : Type) : Type :=
| Return (a : A)
| Throw (e : string).
Arguments Return {A} a.
Arguments Throw {A} e.

(** A computation over a store [S]; the store survives a throw, as the
    assignments made before a JavaScript exception do. *)
Definition M (S A : Type) : Type := S -> outcome A * S.

Definition ret {S A} (a : A) : M S A := fun s => (Return a, s).

Definition bind {S A B} (c : M S A) (k : A -> M S B) : M S B :=
  fun s =>
    match c s with
    | (Return a, s') => k a s'
    | (Throw e, s') => (Throw e, s')
    end.

Definition throw {S A} (e : string) : M S A := fun s => (Throw e, s).

(** [try { body } catch (error) { handler }] *)
Definition try_catch {S A} (body : M S A) (handler : string -> M S A) : M S A :=
  fun s =>
    match body s with
    | (Return a, s') => (Return a, s')
    | (Throw e, s') => handler e s'
    end.

Definition gets {S A} (f : S -> A) : M S A := fun s => (Return (f s), s).
Definition modify {S} (f : S -> S) : M S unit := fun s => (Return tt, f s).

End Eff.

Declare Scope eff_scope.
Delimit Scope eff_scope with eff.
Notation "x <- c ;; k" := (Eff.bind c (fun x => k))
  (at level 61, c at next level, right associativity) : eff_scope.
Notation "c ;; k" := (Eff.bind c (fun _ => k))
  (at level 61, right associativity) : eff_scope.

(** ** The detector component *)

Module HelmetDetector.

Import Eff.
Local Open Scope eff_scope.

Inductive Toast :=
| AccessGranted       (* "Access Granted": helmet detected, safe to proceed *)
| AccessDenied.       (* "Access Denied": no helmet detected, destructive *)

(** What the component does that can be observed from outside. *)
Inductive Event :=
| toast (t : Toast)
| console_log (msg : string)
| console_error (msg : string)
| supabase_insert (v : Sql.Detection.values).   (* an insert request issued *)

(** The component's React state, the database it writes to and the log. *)
Record State := {
  accessGranted : bool;
  detectionResult : option Verdict.DetectionResult;
  db : Sql.Database;
  events : list Event
}.

(** [useState(false)], [useState(null)], over a given database. *)
Definition initial (d : Sql.Database) : State :=
  {| accessGranted := false; detectionResult := None; db := d; events := [] |}.

(** What becomes of an insert request. *)
Inductive Delivery :=
| Delivered (g : Sql.Fresh)   (* executed by the database *)
| Unreachable                 (* answered with an error object *)
| Rejected.                   (* the client call itself throws *)

(** The inputs of one run of [analyzeFrame]. *)
Record Frame := {
  ready : bool;       (* video, canvas, 2d context and detector all present *)
  imageData : string; (* canvas.toDataURL(...) *)
  classifier : option (list Verdict.RawObject);  (* None: the call throws *)
  date : Z;           (* new Date() *)
  random1 : Q;        (* first Math.random() *)
  random2 : Q;        (* second Math.random() *)
  delivery : Delivery
}.

Definition emit (e : Event) : M State unit :=
  modify (fun s =>
    {| accessGranted := accessGranted s; detectionResult := detectionResult s;
       db := db s; events := events s ++ [e] |}).

Definition setAccessGranted (b : bool) : M State unit :=
  modify (fun s =>
    {| accessGranted := b; detectionResult := detectionResult s;
       db := db s; events := events s |}).

Definition setDetectionResult (r : option Verdict.DetectionResult) : M State unit :=
  modify (fun s =>
    {| accessGranted := accessGranted s; detectionResult := r;
       db := db s; events := events s |}).

Definition set_db (d : Sql.Database) : M State unit :=
  modify (fun s =>
    {| accessGranted := accessGranted s; detectionResult := detectionResult s;
       db := d; events := events s |}).

(** [await detector(imageData)] *)
Definition detector (f : Frame) : M State (list Verdict.RawObject) :=
  match classifier f with
  | Some results => ret results
  | None => throw "detector"
  end.

(** [await supabase.from('helmet_detections').insert(v)]: the [error] field
    of the answer, as a boolean. *)
Definition insert (f : Frame) (v : Sql.Detection.values) : M State bool :=
  emit (supabase_insert v) ;;
  match delivery f with
  | Delivered g =>
    d <- gets db ;;
    match Sql.insert_detection g v d with
    | inl d' => set_db d' ;; ret false
    | inr _ => ret true
    end
  | Unreachable => ret true
  | Rejected => throw "insert"
  end.

(** [saveDetection(result, imageData)] *)
Definition saveDetection (f : Frame) (result : Verdict.DetectionResult)
    (image : option string) : M State unit :=
  try_catch
    (let boundingBoxData :=
       map (fun box =>
              {| Verdict.x := Verdict.x box;
                 Verdict.y := Verdict.y box;
                 Verdict.width := Verdict.width box;
                 Verdict.height := Verdict.height box;
                 Verdict.confidence := Verdict.confidence box;
                 Verdict.bb_label := Verdict.bb_label box |})
           (Verdict.boundingBoxes result) in
     error <- insert f
       {| Sql.Detection.v_has_helmet := Verdict.hasHelmet result;
          Sql.Detection.v_confidence := Verdict.dr_confidence result;
          Sql.Detection.v_detection_timestamp := Verdict.timestamp result;
          Sql.Detection.v_location := Some "Mine Site - Camera 1";
          Sql.Detection.v_image_data := image;
          Sql.Detection.v_bounding_box := boundingBoxData;
          Sql.Detection.v_alert_sent := false |} ;;
     if error : bool then emit (console_error "Error saving detection:")
     else emit (console_log "Detection saved to database"))
    (fun _ => emit (console_error "Error saving detection:")).

(** Lines 196-214: grant or deny access; [granted] is the value of
    [accessGranted] the callback closed over. *)
Definition updateAccess (granted hasHelmet : bool) (confidence : Q) : M State unit :=
  if hasHelmet && Js.gt confidence (6 # 10) then
    if negb granted then
      setAccessGranted true ;;
      emit (toast AccessGranted)
    else ret tt
  else
    if granted || (negb granted && Js.gt confidence (6 # 10)) then
      setAccessGranted false ;;
      emit (toast AccessDenied)
    else ret tt.

(** Lines 217-233: the simulated result of the [catch] branch. *)
Definition mockResult (f : Frame) : Verdict.DetectionResult :=
  let hasMotion := Js.gt (random1 f) (4 # 10) in
  let mockConfidence :=
    if hasMotion then (7 # 10) + random2 f * (2 # 10)
    else (2 # 10) + random2 f * (3 # 10) in
  {| Verdict.hasHelmet := hasMotion;
     Verdict.dr_confidence := mockConfidence;
     Verdict.timestamp := date f;
     Verdict.boundingBoxes :=
       if hasMotion then
         [ {| Verdict.x := 100; Verdict.y := 50;
              Verdict.width := 200; Verdict.height := 250;
              Verdict.confidence := mockConfidence;
              Verdict.bb_label := if hasMotion then "helmet" else "person" |} ]
       else [] |}.

(** [analyzeFrame()] *)
Definition analyzeFrame (f : Frame) : M State unit :=
  granted <- gets accessGranted ;;
  if negb (ready f) then ret tt
  else
    try_catch
      (results <- detector f ;;
       let result := Verdict.verdict results (date f) in
       setDetectionResult (Some result) ;;
       saveDetection f result (Some (imageData f)) ;;
       updateAccess granted (Verdict.hasHelmet result) (Verdict.dr_confidence result))
      (fun error =>
         emit (console_error "Detection error:") ;;
         let mock := mockResult f in
         setDetectionResult (Some mock) ;;
         saveDetection f mock None).

(** The access state machine on its own: one verdict, from a given access
    state, to the next access state and the notifications emitted. *)
Definition notifications (es : list Event) : list Toast :=
  flat_map (fun e => match e with toast t => [t] | _ => [] end) es.

Definition step (granted : bool) (v : bool * Q) : bool * list Toast :=
  let s := {| accessGranted := granted; detectionResult := None;
              db := Sql.empty; events := [] |} in
  let s' := snd (updateAccess granted (fst v) (snd v) s) in
  (accessGranted s', notifications (events s')).

(** The notifications of a sequence of verdicts, one list per verdict. *)
Fixpoint run (granted : bool) (vs : list (bool * Q)) : bool * list (list Toast) :=
  match vs with
  | [] => (granted, [])
  | v :: vs' =>
    let (g1, out) := step granted v in
    let (g2, outs) := run g1 vs' in
    (g2, out :: outs)
  end.

End HelmetDetector.

(** ** The edge function [send-safety-alert] *)

Module SendSafetyAlert.

Import Eff.
Local Open Scope eff_scope.

(** The request body the function destructures.  The interface declares
    six strings; at run time an absent property reads as [undefined]. *)
Record SafetyAlertRequest := {
  alertId : Js.Val;
  workerEmail : Js.Val;
  alertMessage : Js.Val;
  severity : Js.Val;
  location : Js.Val;
  timestamp : Js.Val
}.

(** [const { alertId, workerEmail, alertMessage, severity, location,
     timestamp } = await req.json()] *)
Definition destructure (o : Js.Object) : SafetyAlertRequest :=
  {| alertId := Js.prop o "alertId";
     workerEmail := Js.prop o "workerEmail";
     alertMessage := Js.prop o "alertMessage";
     severity := Js.prop o "severity";
     location := Js.prop o "location";
     timestamp := Js.prop o "timestamp" |}.

(** The values interpolated into the HTML template (its markup is fixed). *)
Record Html := {
  h_alert : Js.Val;
  h_location : Js.Val;
  h_time : Js.Val;
  h_severity : string;
  h_alertId : Js.Val
}.

(** The JSON body posted to the mail service. *)
Record Email := {
  from : string;
  to : list Js.Val;
  subject : string;
  html : Html
}.

Inductive Event :=
| fetch_resend (key : string) (mail : Email)   (* the transport call *)
| supabase_update_email_sent (i : Js.Val)      (* an update request issued *)
| console_log (msg : string)
| console_error (msg : string).

Record State := {
  db : Sql.Database;
  events : list Event
}.

Record Request := {
  method : string;
  json : option Js.Object       (* None: req.json() rejects *)
}.

(** The answer of the mail service to the POST. *)
Inductive Answer :=
| NoAnswer                                          (* fetch rejects *)
| Answered (ok : bool) (text : string) (result : option Js.Object).

(** What the function finds around it when it runs. *)
Record Env := {
  SUPABASE_SERVICE_ROLE_KEY : option string;
  RESEND_API_KEY : option string;
  resend : Answer;
  update_at : option Sql.timestamptz   (* Some t: the update runs, at time t *)
}.

Inductive Body :=
| no_body
| success_body (emailId : Js.Val) (message : string)  (* success: true *)
| error_body (error : string).                        (* success: false *)

Record Response := {
  status : Z;
  body : Body
}.

Definition emit (e : Event) : M State unit :=
  modify (fun s => {| db := db s; events := events s ++ [e] |}).

Definition set_db (d : Sql.Database) : M State unit :=
  modify (fun s => {| db := d; events := events s |}).

(** [await req.json()] *)
Definition req_json (req : Request) : M State Js.Object :=
  match json req with
  | Some o => ret o
  | None => throw "Unexpected end of JSON input"
  end.

(** [createClient(url, key!)] refuses a missing key. *)
Definition createClient (e : Env) : M State unit :=
  match SUPABASE_SERVICE_ROLE_KEY e with
  | Some _ => ret tt
  | None => throw "supabaseKey is required."
  end.

(** [severity.toUpperCase()] *)
Definition toUpperCase (v : Js.Val) : M State string :=
  match v with
  | Js.str s => ret (Js.toUpperCase s)
  | Js.undefined => throw "Cannot read properties of undefined"
  end.

(** [await fetch('https://api.resend.com/emails', ...)] *)
Definition fetch (e : Env) (key : string) (mail : Email)
    : M State (bool * string * option Js.Object) :=
  emit (fetch_resend key mail) ;;
  match resend e with
  | NoAnswer => throw "fetch failed"
  | Answered ok text result => ret (ok, text, result)
  end.

(** [await emailResponse.json()] *)
Definition response_json (result : option Js.Object) : M State Js.Object :=
  match result with
  | Some o => ret o
  | None => throw "Unexpected token"
  end.

(** [await supabase.from('safety_alerts').update({ email_sent: true })
      .eq('id', alertId)]: the [error] field of the answer, as a boolean. *)
Definition update_email_sent (e : Env) (i : Js.Val) : M State bool :=
  emit (supabase_update_email_sent i) ;;
  match update_at e, i with
  | Some t, Js.str i' =>
    d <- gets db ;;
    set_db (Sql.update_safety_alert t (Sql.Alert.set_email_sent true) i' d) ;;
    ret false
  | _, _ => ret true
  end.

(** [handler(req)] *)
Definition handler (e : Env) (req : Request) : M State Response :=
  if String.eqb (method req) "OPTIONS" then
    ret {| status := 200; body := no_body |}
  else
    try_catch
      (o <- req_json req ;;
       let r := destructure o in
       createClient e ;;
       match RESEND_API_KEY e with
       | None => throw "RESEND_API_KEY is not configured"
       | Some resendApiKey =>
         SEVERITY <- toUpperCase (severity r) ;;
         emailResponse <- fetch e resendApiKey
           {| from := "Mine Safety Alert <safety@mineguard.com>";
              to := [workerEmail r; Js.str "secejenish23@gmail.com"];
              subject := ("🚨 CRITICAL SAFETY ALERT - " ++ SEVERITY)%string;
              html := {| h_alert := alertMessage r;
                         h_location := location r;
                         h_time := timestamp r;
                         h_severity := SEVERITY;
                         h_alertId := alertId r |} |} ;;
         let '(ok, errorText, result) := emailResponse in
         if negb ok then throw ("Failed to send email: " ++ errorText)%string
         else
           emailResult <- response_json result ;;
           emit (console_log "Email sent successfully:") ;;
           updateError <- update_email_sent e (alertId r) ;;
           (if updateError : bool
            then emit (console_error "Error updating alert status:")
            else ret tt) ;;
           ret {| status := 200;
                  body := success_body (Js.prop emailResult "id")
                            "Safety alert email sent successfully" |}
       end)
      (fun error =>
         emit (console_error "Error in send-safety-alert function:") ;;
         ret {| status := 500; body := error_body error |}).

(** The transport calls recorded in a log. *)
Definition transport_calls (es : list Event) : list Email :=
  flat_map (fun e => match e with fetch_resend _ m => [m] | _ => [] end) es.

(** The update requests recorded in a log. *)
Definition update_requests (es : list Event) : list Js.Val :=
  flat_map (fun e => match e with supabase_update_email_sent i => [i] | _ => [] end) es.

End SendSafetyAlert.

(** ** The alerts panel *)

Module RealtimeAlerts.

Import Eff.
Local Open Scope eff_scope.

Record SafetyAlert := {
  id : string;
  alert_type : string;
  message : string;
  severity : string;
  email_sent : bool;
  acknowledged : bool;
  created_at : string;
  updated_at : string
}.

Inductive Toast :=
| NewSafetyAlert (description : string)
| EmailAlertFailed
| AlertAcknowledged.

Inductive Event :=
| toast (t : Toast)
| console_log (msg : string)
| console_error (msg : string)
| functions_invoke (name : string) (body : Js.Object)   (* a call issued *)
| supabase_update_acknowledged (i : string).            (* an update issued *)

(** The panel's React state, the backend it talks to and the log. *)
Record State := {
  alerts : list SafetyAlert;
  unreadCount : Z;
  server : SendSafetyAlert.State;
  events : list Event
}.

(** What becomes of a function invocation. *)
Inductive Invocation :=
| Runs (e : SendSafetyAlert.Env)   (* the function runs in this environment *)
| Offline                          (* answered with an error object *)
| Fails.                           (* the client call itself throws *)

Definition emit (e : Event) : M State unit :=
  modify (fun s =>
    {| alerts := alerts s; unreadCount := unreadCount s;
       server := server s; events := events s ++ [e] |}).

Definition setAlerts (f : list SafetyAlert -> list SafetyAlert) : M State unit :=
  modify (fun s =>
    {| alerts := f (alerts s); unreadCount := unreadCount s;
       server := server s; events := events s |}).

Definition setUnreadCount (f : Z -> Z) : M State unit :=
  modify (fun s =>
    {| alerts := alerts s; unreadCount := f (unreadCount s);
       server := server s; events := events s |}).

Definition set_server (v : SendSafetyAlert.State) : M State unit :=
  modify (fun s =>
    {| alerts := alerts s; unreadCount := unreadCount s;
       server := v; events := events s |}).

(** [await supabase.functions.invoke(name, { body })]: the [error] field of
    the answer, set when the function cannot be reached or answers with a
    status outside 200..299. *)
Definition invoke (net : Invocation) (name : string) (body : Js.Object)
    : M State bool :=
  emit (functions_invoke name body) ;;
  match net with
  | Fails => throw "invoke"
  | Offline => ret true
  | Runs e =>
    srv <- gets server ;;
    let '(r, srv') :=
      SendSafetyAlert.handler e
        {| SendSafetyAlert.method := "POST";
           SendSafetyAlert.json := Some body |} srv in
    set_server srv' ;;
    match r with
    | Return resp =>
      ret (negb ((200 <=? SendSafetyAlert.status resp)%Z &&
                 (SendSafetyAlert.status resp <? 300)%Z))
    | Throw _ => ret true
    end
  end.

(** The [body] of the invocation in [sendEmailAlert]. *)
Definition payload (alert : SafetyAlert) : Js.Object :=
  [ ("alertId", Js.str (id alert));
    ("workerEmail", Js.str "secejenish23@gmail.com");
    ("alertMessage", Js.str (message alert));
    ("severity", Js.str (severity alert));
    ("location", Js.str "Mine Site");
    ("timestamp", Js.str (created_at alert)) ].

(** [sendEmailAlert(alert)] *)
Definition sendEmailAlert (net : Invocation) (alert : SafetyAlert) : M State unit :=
  try_catch
    (error <- invoke net "send-safety-alert" (payload alert) ;;
     if error : bool then
       emit (console_error "Error sending email alert:") ;;
       emit (toast EmailAlertFailed)
     else emit (console_log "Email alert sent successfully"))
    (fun _ => emit (console_error "Error sending email alert:")).

(** The callback of the [INSERT] subscription on [safety_alerts];
    [newAlert] is [payload.new]. *)
Definition onInsert (net : Invocation) (newAlert : SafetyAlert) : M State unit :=
  emit (console_log "New safety alert:") ;;
  setAlerts (fun prev => newAlert :: firstn 9 prev) ;;
  setUnreadCount (fun prev => prev + 1)%Z ;;
  emit (toast (NewSafetyAlert (message newAlert))) ;;
  if String.eqb (severity newAlert) "critical" && negb (email_sent newAlert)
  then sendEmailAlert net newAlert
  else ret tt.

(** [await supabase.from('safety_alerts').update({ acknowledged: true })
      .eq('id', alertId)]: the [error] field of the answer, as a boolean;
    [at_] is [Some t] when the update runs, at time [t]. *)
Definition update_acknowledged (at_ : option Sql.timestamptz) (alertId : string)
    : M State bool :=
  emit (supabase_update_acknowledged alertId) ;;
  match at_ with
  | Some t =>
    srv <- gets server ;;
    set_server
      {| SendSafetyAlert.db :=
           Sql.update_safety_alert t (Sql.Alert.set_acknowledged true) alertId
             (SendSafetyAlert.db srv);
         SendSafetyAlert.events := SendSafetyAlert.events srv |} ;;
    ret false
  | None => ret true
  end.

(** [acknowledgeAlert(alertId)] *)
Definition acknowledgeAlert (at_ : option Sql.timestamptz) (alertId : string)
    : M State unit :=
  error <- update_acknowledged at_ alertId ;;
  if error : bool then emit (console_error "Error acknowledging alert:")
  else
    setAlerts (fun prev =>
      map (fun alert =>
             if String.eqb (id alert) alertId
             then {| id := id alert; alert_type := alert_type alert;
                     message := message alert; severity := severity alert;
                     email_sent := email_sent alert;
                     acknowledged := true;
                     created_at := created_at alert;
                     updated_at := updated_at alert |}
             else alert) prev) ;;
    setUnreadCount (fun prev => Z.max 0 (prev - 1)) ;;
    emit (toast AlertAcknowledged).

(** The transport invocations recorded in a log. *)
Definition invocations (es : list Event) : list (string * Js.Object) :=
  flat_map (fun e => match e with functions_invoke n b => [(n, b)] | _ => [] end) es.

End RealtimeAlerts.

(** ** Concrete data for the scenarios *)

Module Scenario.

(** The first end-to-end scenario of the specification: a person with a
    score of 0.95 and a hardhat with a score of 0.85. *)
Definition person_and_hardhat : list Verdict.RawObject :=
  [ {| Verdict.box := {| Verdict.xmin := 10; Verdict.ymin := 20;
                         Verdict.xmax := 110; Verdict.ymax := 220 |};
       Verdict.score := 95 # 100; Verdict.label := "person" |};
    {| Verdict.box := {| Verdict.xmin := 40; Verdict.ymin := 20;
                         Verdict.xmax := 80; Verdict.ymax := 60 |};
       Verdict.score := 85 # 100; Verdict.label := "hardhat" |} ].

(** An unacknowledged critical alert, created at time 1. *)
Definition alert_a1 : Sql.Alert.row :=
  {| Sql.Alert.id := "a1";
     Sql.Alert.detection_id := Some "d1";
     Sql.Alert.alert_type := "helmet_violation";
     Sql.Alert.message := "SAFETY ALERT";
     Sql.Alert.severity := "critical";
     Sql.Alert.email_sent := false;
     Sql.Alert.acknowledged := false;
     Sql.Alert.created_at := 1%Z;
     Sql.Alert.updated_at := 1%Z |}.

(** The same alert once acknowledged at time 5. *)
Definition alert_a1_acknowledged : Sql.Alert.row :=
  {| Sql.Alert.id := "a1";
     Sql.Alert.detection_id := Some "d1";
     Sql.Alert.alert_type := "helmet_violation";
     Sql.Alert.message := "SAFETY ALERT";
     Sql.Alert.severity := "critical";
     Sql.Alert.email_sent := false;
     Sql.Alert.acknowledged := true;
     Sql.Alert.created_at := 1%Z;
     Sql.Alert.updated_at := 5%Z |}.

(** The panel showing the alert a1 before its acknowledgement, with two
    alerts unread. *)
Definition panel : RealtimeAlerts.State :=
  {| RealtimeAlerts.alerts :=
       [ {| RealtimeAlerts.id := "a1";
            RealtimeAlerts.alert_type := "helmet_violation";
            RealtimeAlerts.message := "SAFETY ALERT";
            RealtimeAlerts.severity := "critical";
            RealtimeAlerts.email_sent := false;
            RealtimeAlerts.acknowledged := false;
            RealtimeAlerts.created_at := "2024-01-01T00:00:01Z";
            RealtimeAlerts.updated_at := "2024-01-01T00:00:01Z" |} ];
     RealtimeAlerts.unreadCount := 2%Z;
     RealtimeAlerts.server :=
       {| SendSafetyAlert.db :=
            {| Sql.helmet_detections := [];
               Sql.safety_alerts := [alert_a1] |};
          SendSafetyAlert.events := [] |};
     RealtimeAlerts.events := [] |}.

(** The server's choices for one insert at time 1. *)
Definition g1 : Sql.Fresh :=
  {| Sql.detection_uuid := "d1"; Sql.alert_uuid := "a1"; Sql.now := 1%Z |}.

(** A detection without helmet, of confidence 0.9. *)
Definition no_helmet : Sql.Detection.values :=
  {| Sql.Detection.v_has_helmet := false;
     Sql.Detection.v_confidence := 9 # 10;
     Sql.Detection.v_detection_timestamp := 1%Z;
     Sql.Detection.v_location := Some "Mine Site - Camera 1";
     Sql.Detection.v_image_data := None;
     Sql.Detection.v_bounding_box := [];
     Sql.Detection.v_alert_sent := false |}.

(** The row the database stores for it. *)
Definition row_d1 : Sql.Detection.row :=
  {| Sql.Detection.id := "d1";
     Sql.Detection.worker_id := None;
     Sql.Detection.has_helmet := false;
     Sql.Detection.confidence := 90%Z;
     Sql.Detection.detection_timestamp := 1%Z;
     Sql.Detection.location := Some "Mine Site - Camera 1";
     Sql.Detection.image_data := None;
     Sql.Detection.bounding_box := Some [];
     Sql.Detection.alert_sent := false;
     Sql.Detection.created_at := 1%Z |}.

(** The database after that insert into the empty one. *)
Definition db1 : Sql.Database :=
  {| Sql.helmet_detections := [row_d1];
     Sql.safety_alerts :=
       [ {| Sql.Alert.id := "a1";
            Sql.Alert.detection_id := Some "d1";
            Sql.Alert.alert_type := "helmet_violation";
            Sql.Alert.message :=
              "SAFETY ALERT: Worker detected without helmet at Mine Site - Camera 1 with 90% confidence";
            Sql.Alert.severity := "critical";
            Sql.Alert.email_sent := false;
            Sql.Alert.acknowledged := false;
            Sql.Alert.created_at := 1%Z;
            Sql.Alert.updated_at := 1%Z |} ] |}.

(** A frame on which the classifier throws; the draws 0.1 and 0.5 simulate
    a result without helmet, of confidence 0.35. *)
Definition classifier_down : HelmetDetector.Frame :=
  {| HelmetDetector.ready := true;
     HelmetDetector.imageData := "data:image/jpeg;base64,";
     HelmetDetector.classifier := None;
     HelmetDetector.date := 7%Z;
     HelmetDetector.random1 := 1 # 10;
     HelmetDetector.random2 := 1 # 2;
     HelmetDetector.delivery := HelmetDetector.Delivered g1 |}.

(** A frame on which the classifier sees what [results] lists. *)
Definition frame (results : list Verdict.RawObject) (g : Sql.Fresh)
    : HelmetDetector.Frame :=
  {| HelmetDetector.ready := true;
     HelmetDetector.imageData := "data:image/jpeg;base64,";
     HelmetDetector.classifier := Some results;
     HelmetDetector.date := Sql.now g;
     HelmetDetector.random1 := 0;
     HelmetDetector.random2 := 0;
     HelmetDetector.delivery := HelmetDetector.Delivered g |}.

(** A lone person with a score of 0.9. *)
Definition person_only : list Verdict.RawObject :=
  [ {| Verdict.box := {| Verdict.xmin := 10; Verdict.ymin := 20;
                         Verdict.xmax := 110; Verdict.ymax := 220 |};
       Verdict.score := 9 # 10; Verdict.label := "person" |} ].

(** A request for the alert a1, as the panel sends it. *)
Definition request : SendSafetyAlert.Request :=
  {| SendSafetyAlert.method := "POST";
     SendSafetyAlert.json :=
       Some [ ("alertId", Js.str "a1");
              ("workerEmail", Js.str "secejenish23@gmail.com");
              ("alertMessage", Js.str "SAFETY ALERT");
              ("severity", Js.str "critical");
              ("location", Js.str "Mine Site");
              ("timestamp", Js.str "2024-01-01T00:00:01Z") ] |}.

(** An environment in which the mail service refuses the mail. *)
Definition mail_refused : SendSafetyAlert.Env :=
  {| SendSafetyAlert.SUPABASE_SERVICE_ROLE_KEY := Some "service-role";
     SendSafetyAlert.RESEND_API_KEY := Some "re_key";
     SendSafetyAlert.resend :=
       SendSafetyAlert.Answered false "rate limit exceeded" None;
     SendSafetyAlert.update_at := Some 3%Z |}.

(** An environment in which the mail service accepts the mail. *)
Definition mail_accepted : SendSafetyAlert.Env :=
  {| SendSafetyAlert.SUPABASE_SERVICE_ROLE_KEY := Some "service-role";
     SendSafetyAlert.RESEND_API_KEY := Some "re_key";
     SendSafetyAlert.resend :=
       SendSafetyAlert.Answered true "" (Some [("id", Js.str "e1")]);
     SendSafetyAlert.update_at := Some 3%Z |}.

(** An alert already marked as emailed, as the subscription delivers it. *)
Definition emailed : RealtimeAlerts.SafetyAlert :=
  {| RealtimeAlerts.id := "a1";
     RealtimeAlerts.alert_type := "helmet_violation";
     RealtimeAlerts.message := "SAFETY ALERT";
     RealtimeAlerts.severity := "critical";
     RealtimeAlerts.email_sent := true;
     RealtimeAlerts.acknowledged := false;
     RealtimeAlerts.created_at := "2024-01-01T00:00:01Z";
     RealtimeAlerts.updated_at := "2024-01-01T00:00:03Z" |}.

End Scenario.

(** ** The vocabulary of the specification *)

Module Spec.

(** [Substring sub s]: [sub] occurs in [s]. *)
Definition Substring (sub s : string) : Prop :=
  exists pre post, s = (pre ++ sub ++ post)%string.

(** A detection labelled exactly "person". *)
Definition IsPerson (o : Verdict.RawObject) : Prop :=
  Verdict.label o = "person".

(** A detection whose label contains "hat", "helmet" or "hardhat". *)
Definition IsHelmet (o : Verdict.RawObject) : Prop :=
  Substring "hat" (Verdict.label o) \/
  Substring "helmet" (Verdict.label o) \/
  Substring "hardhat" (Verdict.label o).

(** [c] is the largest score among the helmet-labelled items of [results]. *)
Definition MaxHelmetScore (results : list Verdict.RawObject) (c : Q) : Prop :=
  (exists h, In h results /\ IsHelmet h /\ c = Verdict.score h) /\
  (forall h, In h results -> IsHelmet h -> Verdict.score h <= c).

(** The invariant of the two tables: alerts reference stored detections, and each
    stored detection has one critical helmet-violation alert when it
    satisfies the violation predicate and none otherwise. *)
Definition alerts_match_detections (d : Sql.Database) : Prop :=
  (forall a, In a (Sql.safety_alerts d) ->
     exists i, Sql.Alert.detection_id a = Some i /\ Sql.has_detection i d = true) /\
  (forall r, In r (Sql.helmet_detections d) ->
     (Sql.violation r = true ->
        exists a, Sql.alerts_for (Sql.Detection.id r) d = [a] /\
                  Sql.Alert.alert_type a = "helmet_violation" /\
                  Sql.Alert.severity a = "critical") /\
     (Sql.violation r = false ->
        Sql.alerts_for (Sql.Detection.id r) d = [])).

(** The database after an insert request with the values [v]. *)
Definition db_after (f : HelmetDetector.Frame) (v : Sql.Detection.values)
    (d : Sql.Database) : Sql.Database :=
  match HelmetDetector.delivery f with
  | HelmetDetector.Delivered g =>
    match Sql.insert_detection g v d with
    | inl d' => d'
    | inr _ => d
    end
  | _ => d
  end.

(** Edge-triggering as the specification words it: a verdict that emits a
    notification changes the access state. *)
Definition EdgeTriggered : Prop :=
  forall (granted : bool) (v : bool * Q),
    snd (HelmetDetector.step granted v) <> [] ->
    fst (HelmetDetector.step granted v) <> granted.

(** Idempotence of acknowledgement as the specification words it: on an
    alert that is already acknowledged, an acknowledgement changes nothing
    in the stored alerts. *)
Definition AcknowledgedIsNoOp : Prop :=
  forall (t : Sql.timestamptz) (i : string) (s : RealtimeAlerts.State),
    let rows (s : RealtimeAlerts.State) :=
      Sql.safety_alerts (SendSafetyAlert.db (RealtimeAlerts.server s)) in
    (forall a, In a (rows s) -> Sql.Alert.id a = i ->
               Sql.Alert.acknowledged a = true) ->
    rows (snd (RealtimeAlerts.acknowledgeAlert (Some t) i s)) = rows s.

End Spec.

(** ** Replaying the access notifications *)

Module Access.

(** The verdict test of lines 197: [hasHelmet && confidence > 0.6]. *)
Definition positive (v : bool * Q) : bool :=
  fst v && Js.gt (snd v) (6 # 10).

(** Replays a list of access toasts from the access state [granted]: a
    grant is in order only while access is denied; a denial always is. *)
Fixpoint in_order (granted : bool) (ts : list HelmetDetector.Toast) : bool :=
  match ts with
  | [] => true
  | HelmetDetector.AccessGranted :: ts' => negb granted && in_order true ts'
  | HelmetDetector.AccessDenied :: ts' => in_order false ts'
  end.

End Access.

(** ** Histories of the database *)

Module History.

(** [evolves d d']: the statements of the repository lead from [d] to [d']. *)
Inductive evolves : Sql.Database -> Sql.Database -> Prop :=
| ev_refl d : evolves d d
| ev_insert g v d d1 d2 :
    evolves d d1 -> Sql.insert_detection g v d1 = inl d2 -> evolves d d2
| ev_acknowledge t i d d1 :
    evolves d d1 ->
    evolves d (Sql.update_safety_alert t (Sql.Alert.set_acknowledged true) i d1)
| ev_email_sent t i d d1 :
    evolves d d1 ->
    evolves d (Sql.update_safety_alert t (Sql.Alert.set_email_sent true) i d1).

(** What a later state keeps of an alert: everything but the two flags,
    which only ever go from false to true, and [updated_at]. *)
Definition keeps (old new : Sql.Alert.row) : Prop :=
  Sql.Alert.id new = Sql.Alert.id old /\
  Sql.Alert.detection_id new = Sql.Alert.detection_id old /\
  Sql.Alert.alert_type new = Sql.Alert.alert_type old /\
  Sql.Alert.message new = Sql.Alert.message old /\
  Sql.Alert.severity new = Sql.Alert.severity old /\
  Sql.Alert.created_at new = Sql.Alert.created_at old /\
  (Sql.Alert.email_sent old = true -> Sql.Alert.email_sent new = true) /\
  (Sql.Alert.acknowledged old = true -> Sql.Alert.acknowledged new = true).

End History.

(** ** Reading the detector's log *)

Module Detector.

(** The insert requests recorded in a log. *)
Definition insert_requests (es : list HelmetDetector.Event)
    : list Sql.Detection.values :=
  flat_map (fun e => match e with
                     | HelmetDetector.supabase_insert v => [v]
                     | _ => []
                     end) es.

(** The row [saveDetection] asks the database to insert for a result. *)
Definition values_of (result : Verdict.DetectionResult) (image : option string)
    : Sql.Detection.values :=
  {| Sql.Detection.v_has_helmet := Verdict.hasHelmet result;
     Sql.Detection.v_confidence := Verdict.dr_confidence result;
     Sql.Detection.v_detection_timestamp := Verdict.timestamp result;
     Sql.Detection.v_location := Some "Mine Site - Camera 1";
     Sql.Detection.v_image_data := image;
     Sql.Detection.v_bounding_box := Verdict.boundingBoxes result;
     Sql.Detection.v_alert_sent := false |}.

(** The verdict of a result, as the access state machine reads it. *)
Definition verdict_of (result : Verdict.DetectionResult) : bool * Q :=
  (Verdict.hasHelmet result, Verdict.dr_confidence result).

End Detector.

(** ** The overlay drawn over the video *)

Module DetectionOverlay.

(** [Math.round(x)]: the nearest integer, a tie going upwards. *)
Definition Math_round (x : Q) : Z := Qfloor (x + (1 # 2)).

Record Props := {
  hasHelmet : bool;
  confidence : Q;
  boundingBoxes : list Verdict.BoundingBox;
  videoWidth : Q;
  videoHeight : Q
}.




(** [!hasHelmet && confidence > 0.6]: whether the card announces
    "CRITICAL SAFETY ALERT SENT". *)
Definition alertSentBanner (p : Props) : bool :=
  negb (hasHelmet p) && Js.gt (confidence p) (6 # 10).

(** The props the detector component passes for a result, [w] and [h] being
    the video's [videoWidth] and [videoHeight]:
    [videoWidth={videoRef.current.videoWidth || 640}], and 480 likewise. *)
Definition props (r : Verdict.DetectionResult) (w h : Q) : Props :=
  {| hasHelmet := Verdict.hasHelmet r;
     confidence := Verdict.dr_confidence r;
     boundingBoxes := Verdict.boundingBoxes r;
     videoWidth := if Qeq_bool w 0 then 640 else w;
     videoHeight := if Qeq_bool h 0 then 480 else h |}.

End DetectionOverlay.

(** ** Reading the edge function's work *)

Module Dispatch.

(** The mail the function composes for the request body [o], [sev] being
    the string its severity holds. *)
Definition mail_of (o : Js.Object) (sev : string) : SendSafetyAlert.Email :=
  let r := SendSafetyAlert.destructure o in
  {| SendSafetyAlert.from := "Mine Safety Alert <safety@mineguard.com>";
     SendSafetyAlert.to :=
       [SendSafetyAlert.workerEmail r; Js.str "secejenish23@gmail.com"];
     SendSafetyAlert.subject :=
       ("🚨 CRITICAL SAFETY ALERT - " ++ Js.toUpperCase sev)%string;
     SendSafetyAlert.html :=
       {| SendSafetyAlert.h_alert := SendSafetyAlert.alertMessage r;
          SendSafetyAlert.h_location := SendSafetyAlert.location r;
          SendSafetyAlert.h_time := SendSafetyAlert.timestamp r;
          SendSafetyAlert.h_severity := Js.toUpperCase sev;
          SendSafetyAlert.h_alertId := SendSafetyAlert.alertId r |} |}.

(** The request is a well-formed one and the mail service accepts the mail:
    the body [o] parses and holds a severity [sev], both keys are
    configured, [key] being the mail service's, and the service answers ok
    with the JSON [result]. *)
Definition delivers (e : SendSafetyAlert.Env) (req : SendSafetyAlert.Request)
    (o : Js.Object) (key sev : string) (result : Js.Object) : Prop :=
  SendSafetyAlert.method req <> "OPTIONS" /\
  SendSafetyAlert.json req = Some o /\
  SendSafetyAlert.SUPABASE_SERVICE_ROLE_KEY e <> None /\
  SendSafetyAlert.RESEND_API_KEY e = Some key /\
  Js.prop o "severity" = Js.str sev /\
  exists text, SendSafetyAlert.resend e =
               SendSafetyAlert.Answered true text (Some result).

(** Whether the update of the flag runs: the database is reached and the
    request names an alert. *)
Definition flag_update (e : SendSafetyAlert.Env) (o : Js.Object)
    : option (Sql.timestamptz * Sql.uuid) :=
  match SendSafetyAlert.update_at e, Js.prop o "alertId" with
  | Some t, Js.str i => Some (t, i)
  | _, _ => None
  end.

End Dispatch.

(** ** Using the alerts panel *)

Module Panel.

(** What happens to the panel: the subscription delivers an inserted alert,
    or the user presses Acknowledge on an alert. *)
Inductive Action :=
| Deliver (net : RealtimeAlerts.Invocation) (alert : RealtimeAlerts.SafetyAlert)
| Acknowledge (at_ : option Sql.timestamptz) (alertId : string).

Definition perform (a : Action) : Eff.M RealtimeAlerts.State unit :=
  match a with
  | Deliver net alert => RealtimeAlerts.onInsert net alert
  | Acknowledge at_ alertId => RealtimeAlerts.acknowledgeAlert at_ alertId
  end.

(** The panel after a sequence of actions. *)
Fixpoint run (acts : list Action) (s : RealtimeAlerts.State)
    : RealtimeAlerts.State :=
  match acts with
  | [] => s
  | a :: rest => run rest (snd (perform a s))
  end.

(** [useState([])] and [useState(0)], in front of a given backend. *)
Definition initial (srv : SendSafetyAlert.State) : RealtimeAlerts.State :=
  {| RealtimeAlerts.alerts := [];
     RealtimeAlerts.unreadCount := 0;
     RealtimeAlerts.server := srv;
     RealtimeAlerts.events := [] |}.

(** The toasts recorded in a log. *)
Definition toasts (es : list RealtimeAlerts.Event) : list RealtimeAlerts.Toast :=
  flat_map (fun e => match e with RealtimeAlerts.toast t => [t] | _ => [] end) es.

(** The request the function receives for an alert. *)
Definition request (alert : RealtimeAlerts.SafetyAlert) : SendSafetyAlert.Request :=
  {| SendSafetyAlert.method := "POST";
     SendSafetyAlert.json := Some (RealtimeAlerts.payload alert) |}.

(** The function's environment lets a mail through: both keys are
    configured and the mail service answers ok, with a JSON body. *)
Definition accepts (e : SendSafetyAlert.Env) : Prop :=
  SendSafetyAlert.SUPABASE_SERVICE_ROLE_KEY e <> None /\
  (exists key, SendSafetyAlert.RESEND_API_KEY e = Some key) /\
  (exists text result,
     SendSafetyAlert.resend e = SendSafetyAlert.Answered true text (Some result)).

End Panel.

(** ** The statistics cards *)

Module DetectionStats.

(** Timestamps are counted in milliseconds; a day has this many. *)
Definition day : Z := 86400000.

(** [`${new Date().toISOString().split('T')[0]}T00:00:00.000Z`]: the start
    of the UTC day of [now]. *)
Definition today (now : Sql.timestamptz) : Sql.timestamptz :=
  (now - now mod day)%Z.

Record Stats := {
  totalDetections : nat;
  helmetCompliance : Q;
  violationsToday : nat;
  avgConfidence : Q;
  lastDetection : option Sql.timestamptz
}.

(** [useState({ totalDetections: 0, ... })] *)
Definition initial : Stats :=
  {| totalDetections := 0; helmetCompliance := 0; violationsToday := 0;
     avgConfidence := 0; lastDetection := None |}.

(** The answers of the five queries of [fetchStats]; a query that fails
    answers [null], here [None]. *)
Record Answers := {
  totalCount : option nat;
  complianceData : option (list bool);
  violationsCount : option nat;
  confidenceData : option (list Sql.numeric_3_2);
  lastDetectionData : option (list Sql.timestamptz)
}.

(** [parseFloat(d.confidence.toString())] on a [DECIMAL(3,2)] value. *)
Definition parseFloat (c : Sql.numeric_3_2) : Q := inject_Z c / 100.

(** [confidenceData.reduce((sum, d) => sum + parseFloat(...), 0)] *)
Definition sum (l : list Sql.numeric_3_2) : Q :=
  fold_left (fun acc c => acc + parseFloat c) l 0.

(** Lines 57-70: from the answers to the statistics. *)
Definition compute (a : Answers) : Stats :=
  let totalDetections := match totalCount a with Some n => n | None => 0%nat end in
  let helmetCompliant :=
    match complianceData a with
    | Some data => length (filter (fun has_helmet => has_helmet) data)
    | None => 0%nat
    end in
  let complianceRate :=
    if (0 <? totalDetections)%nat
    then inject_Z (Z.of_nat helmetCompliant) / inject_Z (Z.of_nat totalDetections) * 100
    else 0 in
  let avgConfidence :=
    match confidenceData a with
    | Some (c :: cs) => sum (c :: cs) / inject_Z (Z.of_nat (length (c :: cs)))
    | _ => 0
    end in
  {| totalDetections := totalDetections;
     helmetCompliance := complianceRate;
     violationsToday := match violationsCount a with Some n => n | None => 0%nat end;
     avgConfidence := avgConfidence * 100;
     lastDetection :=
       match lastDetectionData a with
       | Some (t :: _) => Some t
       | _ => None
       end |}.

(** The largest of the timestamps, as [order(..., { ascending: false })
    .limit(1)] selects it. *)
Definition latest (ts : list Sql.timestamptz) : list Sql.timestamptz :=
  match ts with
  | [] => []
  | t :: rest => [fold_left Z.max rest t]
  end.

(** The five queries answered from one state [d] of the table, at [now],
    each with all the rows it selects (no row limit applies). *)
Definition answers (now : Sql.timestamptz) (d : Sql.Database) : Answers :=
  let rows := Sql.helmet_detections d in
  {| totalCount := Some (length rows);
     complianceData := Some (map Sql.Detection.has_helmet rows);
     violationsCount :=
       Some (length
               (filter (fun r => negb (Sql.Detection.has_helmet r) &&
                                 (today now <=? Sql.Detection.detection_timestamp r)%Z)
                       rows));
     confidenceData := Some (map Sql.Detection.confidence rows);
     lastDetectionData :=
       Some (latest (map Sql.Detection.detection_timestamp rows)) |}.

End DetectionStats.

(** ** The controls of the detector component *)

Module Camera.

Import Eff.
Local Open Scope eff_scope.

Inductive Toast :=
| AIModelLoaded
| ModelLoadingFailed
| CameraStarted
| CameraAccessDenied
| CameraStopped.

Inductive Event :=
| toast (t : Toast)
| console_error (msg : string)
| track_stop (track : string).     (* track.stop() *)

(** A media stream, as its tracks. *)
Definition MediaStream := list string.

(** The rest of the component's state around the part that [analyzeFrame]
    works on; [detector] tells whether the state holds a loaded model. *)
Record State := {
  isActive : bool;
  stream : option MediaStream;
  srcObject : option MediaStream;      (* videoRef.current.srcObject *)
  detector : bool;
  isLoading : bool;
  core : HelmetDetector.State;
  events : list Event
}.

(** The state of the freshly mounted component. *)
Definition initial (c : HelmetDetector.State) : State :=
  {| isActive := false; stream := None; srcObject := None; detector := false;
     isLoading := false; core := c; events := [] |}.

Definition emit (e : Event) : M State unit :=
  modify (fun s =>
    {| isActive := isActive s; stream := stream s; srcObject := srcObject s;
       detector := detector s; isLoading := isLoading s; core := core s;
       events := events s ++ [e] |}).

Definition setIsActive (b : bool) : M State unit :=
  modify (fun s =>
    {| isActive := b; stream := stream s; srcObject := srcObject s;
       detector := detector s; isLoading := isLoading s; core := core s;
       events := events s |}).

Definition setStream (m : option MediaStream) : M State unit :=
  modify (fun s =>
    {| isActive := isActive s; stream := m; srcObject := srcObject s;
       detector := detector s; isLoading := isLoading s; core := core s;
       events := events s |}).

Definition setSrcObject (m : MediaStream) : M State unit :=
  modify (fun s =>
    {| isActive := isActive s; stream := stream s; srcObject := Some m;
       detector := detector s; isLoading := isLoading s; core := core s;
       events := events s |}).

Definition setDetector (b : bool) : M State unit :=
  modify (fun s =>
    {| isActive := isActive s; stream := stream s; srcObject := srcObject s;
       detector := b; isLoading := isLoading s; core := core s;
       events := events s |}).

Definition setIsLoading (b : bool) : M State unit :=
  modify (fun s =>
    {| isActive := isActive s; stream := stream s; srcObject := srcObject s;
       detector := detector s; isLoading := b; core := core s;
       events := events s |}).

(** A computation on the inner state, run inside the component. *)
Definition lift {A} (c : M HelmetDetector.State A) : M State A :=
  fun s =>
    let '(r, c') := c (core s) in
    (r, {| isActive := isActive s; stream := stream s; srcObject := srcObject s;
           detector := detector s; isLoading := isLoading s; core := c';
           events := events s |}).

(** [try { body } finally { fin }] *)
Definition try_finally {S A} (body : M S A) (fin : M S unit) : M S A :=
  fun s =>
    let '(r, s1) := body s in
    match fin s1 with
    | (Return _, s2) => (r, s2)
    | (Throw e, s2) => (Throw e, s2)
    end.

(** [await pipeline('object-detection', ...)]; [loads] tells whether the
    model can be loaded. *)
Definition pipeline (loads : bool) : M State unit :=
  if loads then ret tt else throw "pipeline".

(** [initializeDetector()] *)
Definition initializeDetector (loads : bool) : M State unit :=
  try_finally
    (try_catch
       (setIsLoading true ;;
        pipeline loads ;;
        setDetector true ;;
        emit (toast AIModelLoaded))
       (fun _ =>
          emit (console_error "Error loading detector:") ;;
          emit (toast ModelLoadingFailed)))
    (setIsLoading false).

(** [await navigator.mediaDevices.getUserMedia(...)]; [media] is the stream
    the browser grants, if it grants one. *)
Definition getUserMedia (media : option MediaStream) : M State MediaStream :=
  match media with
  | Some m => ret m
  | None => throw "NotAllowedError"
  end.

(** [startCamera()]; [video] tells whether [videoRef.current] is there. *)
Definition startCamera (media : option MediaStream) (video : bool) : M State unit :=
  try_catch
    (mediaStream <- getUserMedia media ;;
     if video then
       setSrcObject mediaStream ;;
       setStream (Some mediaStream) ;;
       setIsActive true ;;
       emit (toast CameraStarted)
     else ret tt)
    (fun _ =>
       emit (console_error "Error accessing camera:") ;;
       emit (toast CameraAccessDenied)).

(** [stream.getTracks().forEach(track => track.stop())] *)
Fixpoint stopTracks (tracks : MediaStream) : M State unit :=
  match tracks with
  | [] => ret tt
  | track :: rest => emit (track_stop track) ;; stopTracks rest
  end.

(** [stopCamera()] *)
Definition stopCamera : M State unit :=
  current <- gets stream ;;
  match current with
  | Some tracks =>
    stopTracks tracks ;;
    setStream None ;;
    setIsActive false ;;
    lift (HelmetDetector.setDetectionResult None) ;;
    lift (HelmetDetector.setAccessGranted false) ;;
    emit (toast CameraStopped)
  | None => ret tt
  end.

(** One firing of the detection loop: the effect installs the interval
    only while [isActive] and [detector] hold. *)
Definition tick (f : HelmetDetector.Frame) : M State unit :=
  active <- gets isActive ;;
  loaded <- gets detector ;;
  if negb active || negb loaded then ret tt
  else lift (HelmetDetector.analyzeFrame f).

(** What happens to the component. *)
Inductive Action :=
| Initialize (loads : bool)
| Start (media : option MediaStream) (video : bool)
| Stop
| Tick (f : HelmetDetector.Frame).

Definition perform (a : Action) : M State unit :=
  match a with
  | Initialize loads => initializeDetector loads
  | Start media video => startCamera media video
  | Stop => stopCamera
  | Tick f => tick f
  end.

(** The component after a sequence of actions. *)
Fixpoint run (acts : list Action) (s : State) : State :=
  match acts with
  | [] => s
  | a :: rest => run rest (snd (perform a s))
  end.


End Camera.

(** ** More concrete data *)

Module Cases.

(** A hardhat with a score of 0.9, and nobody under it. *)
Definition hardhat_only : list Verdict.RawObject :=
  [ {| Verdict.box := {| Verdict.xmin := 40; Verdict.ymin := 20;
                         Verdict.xmax := 80; Verdict.ymax := 60 |};
       Verdict.score := 9 # 10; Verdict.label := "hardhat" |} ].

(** A result without helmet whose confidence, 0.604, is stored as 0.60. *)
Definition near_miss : Verdict.DetectionResult :=
  {| Verdict.hasHelmet := false;
     Verdict.dr_confidence := 604 # 1000;
     Verdict.timestamp := 1%Z;
     Verdict.boundingBoxes := [] |}.

(** The row the database stores for it. *)
Definition near_miss_row : Sql.Detection.row :=
  {| Sql.Detection.id := "d2";
     Sql.Detection.worker_id := None;
     Sql.Detection.has_helmet := false;
     Sql.Detection.confidence := 60%Z;
     Sql.Detection.detection_timestamp := 1%Z;
     Sql.Detection.location := Some "Mine Site - Camera 1";
     Sql.Detection.image_data := None;
     Sql.Detection.bounding_box := Some [];
     Sql.Detection.alert_sent := false;
     Sql.Detection.created_at := 1%Z |}.


(** The critical alert a1 as the subscription delivers it on insert. *)
Definition unsent : RealtimeAlerts.SafetyAlert :=
  {| RealtimeAlerts.id := "a1";
     RealtimeAlerts.alert_type := "helmet_violation";
     RealtimeAlerts.message := "SAFETY ALERT";
     RealtimeAlerts.severity := "critical";
     RealtimeAlerts.email_sent := false;
     RealtimeAlerts.acknowledged := false;
     RealtimeAlerts.created_at := "2024-01-01T00:00:01Z";
     RealtimeAlerts.updated_at := "2024-01-01T00:00:01Z" |}.

(** An alert is delivered while the function is offline, and acknowledged
    twice. *)
Definition panel_session : list Panel.Action :=
  [ Panel.Deliver RealtimeAlerts.Offline unsent;
    Panel.Acknowledge (Some 5%Z) "a1";
    Panel.Acknowledge (Some 9%Z) "a1" ].

(** A session of the component: the model loads or not, the camera starts,
    a person with a hardhat is seen, the camera stops. *)
Definition session (loads : bool) : list Camera.Action :=
  [ Camera.Initialize loads;
    Camera.Start (Some ["video"]) true;
    Camera.Tick (Scenario.frame Scenario.person_and_hardhat Scenario.g1);
    Camera.Stop ].

(** The freshly mounted component over an empty database. *)
Definition mounted : Camera.State :=
  Camera.initial (HelmetDetector.initial Sql.empty).

End Cases.

(* ===================================================================== *)
(** * Part II: properties                                                *)
(* ===================================================================== *)

(** ** Tactics *)

(** Unfolds the combinators of the effect monad. *)
Ltac run_eff :=
  unfold Eff.try_catch, Eff.bind, Eff.ret, Eff.throw, Eff.gets, Eff.modify.

(** Closes a branch of [handler] in which no update is issued. *)
Ltac no_update :=
  rewrite <- ?app_assoc; do 2 eexists;
  split; [reflexivity|]; split; [reflexivity|]; split; [cbn; lia|];
  split; [left; split; reflexivity|];
  intros Hfail _;
  first [ exfalso; eapply Hfail; reflexivity | repeat split; eauto ].

(** ** Strings *)

Lemma prefix_app (p s : string) :
  prefix p s = true <-> exists post, s = (p ++ post)%string.
Proof.
  revert s; induction p as [|c p IH]; intros s.
  - split; [intros _; now exists s | intros _; destruct s; reflexivity].
  - destruct s as [|d s]; simpl.
    + split; [discriminate | intros [post H]; discriminate].
    + destruct (ascii_dec c d) as [->|Hne].
      * rewrite IH. split; intros [post H]; exists post.
        -- now rewrite H.
        -- now inversion H.
      * split; [discriminate | intros [post H]; inversion H; congruence].
Qed.

Lemma includes_spec (s sub : string) :
  Js.includes s sub = true <-> Spec.Substring sub s.
Proof.
  unfold Spec.Substring.
  induction s as [|c s IH]; cbn [Js.includes]; rewrite orb_true_iff, prefix_app.
  - split.
    + intros [[post H] | H]; [|discriminate]. now exists "", post.
    + intros [pre [post H]]. left.
      destruct pre; [now exists post | discriminate].
  - rewrite IH. split.
    + intros [[post H] | [pre [post H]]].
      * now exists "", post.
      * exists (String c pre), post. simpl. now rewrite H.
    + intros [pre [post H]]. destruct pre as [|d pre]; simpl in H.
      * left. now exists post.
      * right. inversion H. now exists pre, post.
Qed.

(** ** Lists and numbers *)

Lemma nonempty_length {A} (l : list A) :
  (0 <? length l)%nat = true <-> exists a, In a l.
Proof.
  destruct l as [|a l]; simpl.
  - split; [discriminate | intros [a []]].
  - split; [intros _; exists a; now left | reflexivity].
Qed.

Lemma gt_spec (a b : Q) : Js.gt a b = true <-> b < a.
Proof.
  unfold Js.gt. rewrite negb_true_iff, <- not_true_iff_false, Qle_bool_iff.
  split; [apply Qnot_le_lt | apply Qlt_not_le].
Qed.

Lemma max2_cases (a b : Q) :
  (Js.max2 a b = a \/ Js.max2 a b = b) /\ a <= Js.max2 a b /\ b <= Js.max2 a b.
Proof.
  unfold Js.max2. destruct (Qle_bool a b) eqn:E.
  - apply Qle_bool_iff in E. repeat split; auto using Qle_refl.
  - assert (b < a) as H.
    { apply Qnot_le_lt. intros H. apply Qle_bool_iff in H. congruence. }
    repeat split; auto using Qle_refl, Qlt_le_weak.
Qed.

Lemma Math_max_spec (xs : list Q) (x : Q) :
  In (Js.Math_max x xs) (x :: xs) /\
  forall s, In s (x :: xs) -> s <= Js.Math_max x xs.
Proof.
  unfold Js.Math_max. revert x.
  induction xs as [|y xs IH]; intros x; simpl.
  - split; [now left | intros s [<- | []]; apply Qle_refl].
  - destruct (IH (Js.max2 x y)) as [Hin Hub].
    destruct (max2_cases x y) as [Hc [Hx Hy]].
    split.
    + simpl in Hin. destruct Hin as [Hin | Hin]; [|now right; right].
      rewrite <- Hin. destruct Hc as [-> | ->]; [now left | right; now left].
    + intros s [<- | [<- | Hs]].
      * eapply Qle_trans; [exact Hx | apply Hub; now left].
      * eapply Qle_trans; [exact Hy | apply Hub; now left].
      * apply Hub. now right.
Qed.

(** ** The verdict rule *)

Lemma helmetLabel_spec (o : Verdict.RawObject) :
  Verdict.helmetLabel (Verdict.label o) = true <-> Spec.IsHelmet o.
Proof.
  unfold Verdict.helmetLabel, Spec.IsHelmet.
  rewrite !orb_true_iff, !includes_spec. tauto.
Qed.

Lemma persons_filter (results : list Verdict.RawObject) :
  filter Verdict.isPerson (map Verdict.toBoundingBox results) =
  map Verdict.toBoundingBox
      (filter (fun o => String.eqb (Verdict.label o) "person") results).
Proof.
  induction results as [|o l IH]; simpl; [reflexivity|].
  unfold Verdict.isPerson at 1. simpl.
  destruct (String.eqb (Verdict.label o) "person"); simpl; now rewrite IH.
Qed.

Lemma helmets_filter (results : list Verdict.RawObject) :
  map Verdict.confidence
      (filter Verdict.isHelmet (map Verdict.toBoundingBox results)) =
  map Verdict.score
      (filter (fun o => Verdict.helmetLabel (Verdict.label o)) results).
Proof.
  induction results as [|o l IH]; simpl; [reflexivity|].
  unfold Verdict.isHelmet at 1. simpl.
  destruct (Verdict.helmetLabel (Verdict.label o)); simpl; now rewrite IH.
Qed.

Lemma some_person (results : list Verdict.RawObject) :
  (0 <? length (filter Verdict.isPerson (map Verdict.toBoundingBox results)))%nat
    = true
  <-> exists o, In o results /\ Spec.IsPerson o.
Proof.
  rewrite persons_filter, length_map, nonempty_length.
  split; intros [o H]; exists o; apply filter_In in H || apply filter_In;
    unfold Spec.IsPerson in *; now rewrite String.eqb_eq in *.
Qed.

Lemma some_helmet (results : list Verdict.RawObject) :
  (0 <? length (filter Verdict.isHelmet (map Verdict.toBoundingBox results)))%nat
    = true
  <-> exists o, In o results /\ Spec.IsHelmet o.
Proof.
  rewrite <- (length_map Verdict.confidence), helmets_filter, length_map,
    nonempty_length.
  split; intros [o H]; exists o; apply filter_In in H || apply filter_In;
    now rewrite helmetLabel_spec in *.
Qed.

(** C1.  For every list of classifier detections, the verdict has
    [hasHelmet = true] exactly when the list holds an item labelled exactly
    "person" and an item whose label contains "hat", "helmet" or "hardhat";
    its confidence is the largest score of the helmet-labelled items when
    there is one, else 0.3 when there is a person, else 0.1. *)
Theorem verdict_rule (results : list Verdict.RawObject) (now : Z) :
  let r := Verdict.verdict results now in
  let person := exists o, In o results /\ Spec.IsPerson o in
  let helmet := exists o, In o results /\ Spec.IsHelmet o in
  (Verdict.hasHelmet r = true <-> person /\ helmet) /\
  (helmet -> Spec.MaxHelmetScore results (Verdict.dr_confidence r)) /\
  (~ helmet -> person -> Verdict.dr_confidence r = 3 # 10) /\
  (~ helmet -> ~ person -> Verdict.dr_confidence r = 1 # 10).
Proof.
  intros r person helmet. subst r. unfold Verdict.verdict. simpl.
  pose proof (some_person results) as HP. fold person in HP.
  pose proof (some_helmet results) as HH. fold helmet in HH.
  split; [now rewrite andb_true_iff, HP, HH|].
  rewrite <- (length_map Verdict.confidence) in HH.
  rewrite helmets_filter in *.
  set (hs := filter (fun o => Verdict.helmetLabel (Verdict.label o)) results) in *.
  assert (Hhs : forall h, In h hs <-> In h results /\ Spec.IsHelmet h).
  { intros h. unfold hs. now rewrite filter_In, helmetLabel_spec. }
  destruct (map Verdict.score hs) as [|c cs] eqn:E.
  - assert (~ helmet) as Hno by (rewrite <- HH; simpl; discriminate).
    split; [tauto|].
    destruct (0 <? length _)%nat eqn:EP.
    + split; [reflexivity|]. intros _ Hn. exfalso. now apply Hn, HP.
    + split; [|reflexivity]. intros _ Hp. apply HP in Hp. discriminate.
  - assert (helmet) as Hyes by (now apply HH).
    split; [|tauto]. intros _.
    destruct (Math_max_spec cs c) as [Hin Hub]. rewrite <- E in Hin, Hub.
    split.
    + apply in_map_iff in Hin. destruct Hin as [h [Hs Hh]].
      exists h. apply Hhs in Hh. now rewrite Hs.
    + intros h Hir Hih. apply Hub, in_map, Hhs. now split.
Qed.

Example verdict_person_and_hardhat :
  Verdict.hasHelmet (Verdict.verdict Scenario.person_and_hardhat 0) = true /\
  Verdict.dr_confidence (Verdict.verdict Scenario.person_and_hardhat 0) = 85 # 100.
Proof. split; reflexivity. Qed.

(** The verdict rule on the person and the hardhat. *)
Lemma verdict_rule_witness :
  Verdict.hasHelmet (Verdict.verdict Scenario.person_and_hardhat 0) = true /\
  Spec.MaxHelmetScore Scenario.person_and_hardhat
    (Verdict.dr_confidence (Verdict.verdict Scenario.person_and_hardhat 0)).
Proof.
  assert (exists o, In o Scenario.person_and_hardhat /\ Spec.IsPerson o) as HP.
  { eexists. split; [left; reflexivity | reflexivity]. }
  assert (exists o, In o Scenario.person_and_hardhat /\ Spec.IsHelmet o) as HH.
  { eexists. split; [right; left; reflexivity|].
    left. exists "hard", "". reflexivity. }
  destruct (verdict_rule Scenario.person_and_hardhat 0) as [H1 [H2 _]].
  split; [apply H1; now split | now apply H2].
Defined.

Example verdict_person_only (o : Verdict.RawObject) (now : Z) :
  Verdict.label o = "person" ->
  Verdict.hasHelmet (Verdict.verdict [o] now) = false /\
  Verdict.dr_confidence (Verdict.verdict [o] now) = 3 # 10.
Proof.
  intros H. unfold Verdict.verdict. simpl.
  unfold Verdict.isPerson, Verdict.isHelmet. simpl. rewrite H. simpl.
  split; reflexivity.
Qed.

Example verdict_nothing (now : Z) :
  Verdict.hasHelmet (Verdict.verdict [] now) = false /\
  Verdict.dr_confidence (Verdict.verdict [] now) = 1 # 10.
Proof. split; reflexivity. Qed.

(** ** The access state machine *)

(** C2.  The machine starts in DENIED, and fed the verdicts (true, 0.9),
    (true, 0.9), (false, 0.9) it emits one granted notification after the
    first, none after the second and one denied notification after the
    third. *)
Theorem access_sequence :
  (forall d, HelmetDetector.accessGranted (HelmetDetector.initial d) = false) /\
  HelmetDetector.run false [(true, 9 # 10); (true, 9 # 10); (false, 9 # 10)] =
  (false,
   [ [HelmetDetector.AccessGranted]; []; [HelmetDetector.AccessDenied] ]).
Proof. split; reflexivity. Qed.

(** One step of the machine, in closed form. *)
Lemma step_eq (granted hasHelmet : bool) (confidence : Q) :
  HelmetDetector.step granted (hasHelmet, confidence) =
  if hasHelmet && Js.gt confidence (6 # 10) then
    (true, if granted then [] else [HelmetDetector.AccessGranted])
  else
    (false, if granted || Js.gt confidence (6 # 10)
            then [HelmetDetector.AccessDenied] else []).
Proof.
  unfold HelmetDetector.step, HelmetDetector.updateAccess. simpl.
  destruct hasHelmet, granted, (Js.gt confidence (6 # 10)); reflexivity.
Qed.

(** C3, as stated, fails: in DENIED, a no-helmet verdict of confidence 0.9
    leaves the state DENIED and still emits a denied notification. *)
Lemma denied_is_notified_again :
  HelmetDetector.step false (false, 9 # 10) =
    (false, [HelmetDetector.AccessDenied]) /\
  ~ Spec.EdgeTriggered.
Proof.
  split; [reflexivity|].
  intros H. apply (H false (false, 9 # 10)); [discriminate | reflexivity].
Qed.

(** C3, amended.  A granted notification is emitted exactly on the edge
    DENIED to GRANTED and a denied notification on every edge GRANTED to
    DENIED; a verdict that leaves the state unchanged emits nothing, except
    that DENIED emits a denied notification again on a no-helmet verdict of
    confidence above 0.6. *)
Theorem notifications_on_edges (granted hasHelmet : bool) (confidence : Q) :
  let next := fst (HelmetDetector.step granted (hasHelmet, confidence)) in
  let out := snd (HelmetDetector.step granted (hasHelmet, confidence)) in
  let again := granted = false /\ hasHelmet = false /\ 6 # 10 < confidence in
  (next <> granted ->
     out = [if next then HelmetDetector.AccessGranted
            else HelmetDetector.AccessDenied]) /\
  (next = granted -> ~ again -> out = []) /\
  (again -> next = granted /\ out = [HelmetDetector.AccessDenied]) /\
  (In HelmetDetector.AccessGranted out -> granted = false /\ next = true).
Proof.
  intros next out again. subst next out again. rewrite step_eq.
  rewrite <- gt_spec.
  destruct hasHelmet, granted, (Js.gt confidence (6 # 10)); simpl;
    intuition (auto; congruence).
Qed.

(** The three kinds of step: an edge, a silent self-transition and the
    repeated denial. *)
Lemma notifications_on_edges_witness :
  snd (HelmetDetector.step true (false, 3 # 10)) = [HelmetDetector.AccessDenied] /\
  snd (HelmetDetector.step false (false, 3 # 10)) = [] /\
  snd (HelmetDetector.step false (false, 9 # 10)) = [HelmetDetector.AccessDenied].
Proof.
  split; [|split].
  - destruct (notifications_on_edges true false (3 # 10)) as [H _].
    apply H. cbv. discriminate.
  - destruct (notifications_on_edges false false (3 # 10)) as [_ [H _]].
    apply H; [reflexivity|]. intros [_ [_ C]]. cbv in C. discriminate.
  - destruct (notifications_on_edges false false (9 # 10)) as [_ [_ [H _]]].
    apply H. repeat split.
Defined.

(** ** The database *)

(** [has_detection] finds a stored row by its id. *)
Lemma has_detection_spec (i : Sql.uuid) (d : Sql.Database) :
  Sql.has_detection i d = true <->
  exists r, In r (Sql.helmet_detections d) /\ Sql.Detection.id r = i.
Proof.
  unfold Sql.has_detection. rewrite existsb_exists.
  split; intros [r [H E]]; exists r; split; auto; now apply String.eqb_eq.
Qed.

(** What one accepted insert of a detection does to the two tables. *)
Lemma insert_detection_effect (g : Sql.Fresh) (v : Sql.Detection.values)
    (d d' : Sql.Database) :
  Sql.insert_detection g v d = inl d' ->
  exists NEW,
    Sql.Detection.id NEW = Sql.detection_uuid g /\
    Sql.Detection.has_helmet NEW = Sql.Detection.v_has_helmet v /\
    Sql.to_numeric_3_2 (Sql.Detection.v_confidence v) =
      inl (Sql.Detection.confidence NEW) /\
    Sql.has_detection (Sql.detection_uuid g) d = false /\
    Sql.helmet_detections d' = Sql.helmet_detections d ++ [NEW] /\
    ((Sql.violation NEW = false /\ Sql.safety_alerts d' = Sql.safety_alerts d) \/
     (Sql.violation NEW = true /\
      exists a,
        Sql.safety_alerts d' = Sql.safety_alerts d ++ [a] /\
        Sql.Alert.detection_id a = Some (Sql.Detection.id NEW) /\
        Sql.Alert.alert_type a = "helmet_violation" /\
        Sql.Alert.severity a = "critical")).
Proof.
  unfold Sql.insert_detection.
  destruct (Sql.to_numeric_3_2 _) as [c|e] eqn:Ec; [|discriminate].
  destruct (Sql.has_detection _ d) eqn:Hfresh; [discriminate|].
  set (NEW := {| Sql.Detection.id := Sql.detection_uuid g |}).
  unfold Sql.create_helmet_violation_alert.
  destruct (Sql.violation NEW) eqn:Hv.
  - unfold Sql.insert_safety_alert.
    destruct (Sql.alert_message NEW); [|discriminate].
    destruct (Sql.has_alert _ _); [discriminate|].
    destruct (negb _); [discriminate|].
    intros H. injection H as <-. exists NEW. simpl.
    repeat split; auto. right. split; [exact Hv|]. eexists. simpl.
    repeat split.
  - intros H. injection H as <-. exists NEW. simpl.
    repeat split; auto.
Qed.

(** An update that keeps [detection_id] keeps which alerts reference a
    detection. *)
Lemma alerts_for_update (t : Sql.timestamptz) (set : Sql.Alert.row -> Sql.Alert.row)
    (i j : Sql.uuid) (d : Sql.Database) :
  (forall r, Sql.Alert.detection_id (set r) = Sql.Alert.detection_id r) ->
  Sql.alerts_for j (Sql.update_safety_alert t set i d) =
  map (fun OLD => if String.eqb (Sql.Alert.id OLD) i
                  then Sql.update_updated_at_column t (set OLD) else OLD)
      (Sql.alerts_for j d).
Proof.
  intros Hset. unfold Sql.alerts_for, Sql.update_safety_alert. simpl.
  induction (Sql.safety_alerts d) as [|a l IH]; simpl; [reflexivity|].
  destruct (String.eqb (Sql.Alert.id a) i) eqn:E; simpl; rewrite ?Hset;
    destruct (Sql.Alert.detection_id a) as [k|]; simpl; rewrite ?IH; auto;
    destruct (String.eqb k j); simpl; now rewrite ?E, ?IH.
Qed.

(** No alert references an id that no stored detection has. *)
Lemma alerts_for_fresh (i : Sql.uuid) (d : Sql.Database) :
  (forall a, In a (Sql.safety_alerts d) ->
     exists i, Sql.Alert.detection_id a = Some i /\ Sql.has_detection i d = true) ->
  Sql.has_detection i d = false ->
  Sql.alerts_for i d = [].
Proof.
  intros Href Hfresh. unfold Sql.alerts_for.
  induction (Sql.safety_alerts d) as [|a l IH]; simpl; [reflexivity|].
  destruct (Href a (or_introl eq_refl)) as [k [-> Hk]].
  destruct (String.eqb_spec k i) as [->|_]; [congruence|].
  apply IH. intros b Hb. apply Href. now right.
Qed.

Lemma update_preserves_match (t : Sql.timestamptz)
    (set : Sql.Alert.row -> Sql.Alert.row) (i : Sql.uuid) (d : Sql.Database) :
  (forall r, Sql.Alert.detection_id (set r) = Sql.Alert.detection_id r) ->
  (forall r, Sql.Alert.alert_type (set r) = Sql.Alert.alert_type r) ->
  (forall r, Sql.Alert.severity (set r) = Sql.Alert.severity r) ->
  Spec.alerts_match_detections d ->
  Spec.alerts_match_detections (Sql.update_safety_alert t set i d).
Proof.
  intros Hd Ht Hs [Href Hone]. split.
  - intros a Ha. simpl in Ha. apply in_map_iff in Ha.
    destruct Ha as [b [<- Hb]]. destruct (Href b Hb) as [k [Hk Hin]].
    exists k. split; [|exact Hin].
    destruct (String.eqb _ i); simpl; now rewrite ?Hd.
  - intros r Hr. rewrite alerts_for_update by exact Hd.
    destruct (Hone r Hr) as [Hyes Hno]. split; intros Hv.
    + destruct (Hyes Hv) as [a [-> [Hty Hsev]]]. eexists. split; [reflexivity|].
      destruct (String.eqb _ i); simpl; now rewrite ?Ht, ?Hs.
    + now rewrite (Hno Hv).
Qed.

Lemma insert_preserves_match (g : Sql.Fresh) (v : Sql.Detection.values)
    (d d' : Sql.Database) :
  Sql.insert_detection g v d = inl d' ->
  Spec.alerts_match_detections d -> Spec.alerts_match_detections d'.
Proof.
  intros Hins [Href Hone].
  destruct (insert_detection_effect g v d d' Hins)
    as [NEW [Hid [_ [_ [Hfresh [Hds Hal]]]]]].
  assert (Hmono : forall k, Sql.has_detection k d = true ->
                            Sql.has_detection k d' = true).
  { intros k. rewrite !has_detection_spec, Hds. intros [r [Hr E]].
    exists r. split; [apply in_or_app; now left | exact E]. }
  assert (Hnew : Sql.has_detection (Sql.Detection.id NEW) d' = true).
  { apply has_detection_spec. exists NEW. rewrite Hds.
    split; [apply in_or_app; right; now left | reflexivity]. }
  assert (Hold : forall r, In r (Sql.helmet_detections d) ->
                           String.eqb (Sql.Detection.id NEW) (Sql.Detection.id r)
                           = false).
  { intros r Hr. apply String.eqb_neq. intros E.
    assert (Sql.has_detection (Sql.detection_uuid g) d = true); [|congruence].
    apply has_detection_spec. exists r. split; congruence. }
  pose proof (alerts_for_fresh _ d Href Hfresh) as Hnone.
  rewrite <- Hid in Hnone.
  unfold Spec.alerts_match_detections, Sql.alerts_for in *.
  destruct Hal as [[Hv Hsame] | [Hv [a [Hadd [Hda [Hty Hsev]]]]]].
  - rewrite Hsame. split.
    + intros b Hb. destruct (Href b Hb) as [k [Hk Hin]]. exists k. auto.
    + intros r Hr. rewrite Hds in Hr. apply in_app_or in Hr.
      destruct Hr as [Hr | [<- | []]]; [now apply Hone|].
      rewrite Hnone. split; [congruence | reflexivity].
  - rewrite Hadd. split.
    + intros b Hb. apply in_app_or in Hb. destruct Hb as [Hb | [<- | []]].
      * destruct (Href b Hb) as [k [Hk Hin]]. exists k. auto.
      * exists (Sql.Detection.id NEW). auto.
    + intros r Hr. rewrite filter_app. simpl. rewrite Hda.
      rewrite Hds in Hr. apply in_app_or in Hr.
      destruct Hr as [Hr | [<- | []]].
      * rewrite (Hold r Hr), app_nil_r. now apply Hone.
      * rewrite String.eqb_refl, Hnone. simpl.
        split; [intros _; now exists a | congruence].
Qed.

(** Every reachable database satisfies the invariant. *)
Lemma reachable_match (d : Sql.Database) :
  Sql.reachable d -> Spec.alerts_match_detections d.
Proof.
  induction 1 as [|g v d d' _ IH Hins|t i d _ IH|t i d _ IH].
  - split; intros ? [].
  - exact (insert_preserves_match g v d d' Hins IH).
  - apply update_preserves_match; auto.
  - apply update_preserves_match; auto.
Qed.

(** C4.  In every database the code produces, each stored detection that
    satisfies the violation predicate (no helmet, confidence above 0.6) is
    referenced by exactly one alert, of type helmet_violation and severity
    critical, and each other stored detection by none. *)
Theorem one_alert_per_violation (d : Sql.Database) (r : Sql.Detection.row) :
  Sql.reachable d ->
  In r (Sql.helmet_detections d) ->
  (Sql.Detection.has_helmet r = false /\ (60 < Sql.Detection.confidence r)%Z ->
     exists a, Sql.alerts_for (Sql.Detection.id r) d = [a] /\
               Sql.Alert.alert_type a = "helmet_violation" /\
               Sql.Alert.severity a = "critical") /\
  (~ (Sql.Detection.has_helmet r = false /\ (60 < Sql.Detection.confidence r)%Z) ->
     Sql.alerts_for (Sql.Detection.id r) d = []).
Proof.
  intros Hd Hr. destruct (reachable_match d Hd) as [_ Hone].
  destruct (Hone r Hr) as [Hyes Hno].
  assert (Sql.violation r = true <->
          Sql.Detection.has_helmet r = false /\ (60 < Sql.Detection.confidence r)%Z)
    as Hv.
  { unfold Sql.violation.
    now rewrite andb_true_iff, negb_true_iff, Z.ltb_lt. }
  split.
  - intros H. apply Hyes, Hv, H.
  - intros H. apply Hno. rewrite <- Hv in H. now destruct (Sql.violation r).
Qed.

(** ** The alerts panel *)

(** [sendEmailAlert] always returns, issues exactly one invocation and
    touches nothing of the panel but the log and the backend. *)
Lemma sendEmailAlert_run (net : RealtimeAlerts.Invocation)
    (alert : RealtimeAlerts.SafetyAlert) (s : RealtimeAlerts.State) :
  exists srv tail,
    RealtimeAlerts.sendEmailAlert net alert s =
      (Eff.Return tt,
       {| RealtimeAlerts.alerts := RealtimeAlerts.alerts s;
          RealtimeAlerts.unreadCount := RealtimeAlerts.unreadCount s;
          RealtimeAlerts.server := srv;
          RealtimeAlerts.events :=
            RealtimeAlerts.events s ++
            RealtimeAlerts.functions_invoke "send-safety-alert"
              (RealtimeAlerts.payload alert) :: tail |}) /\
    RealtimeAlerts.invocations tail = [].
Proof.
  unfold RealtimeAlerts.sendEmailAlert, RealtimeAlerts.invoke,
    RealtimeAlerts.emit, RealtimeAlerts.set_server.
  run_eff. cbn -[SendSafetyAlert.handler RealtimeAlerts.payload].
  destruct net as [e| |]; cbn -[SendSafetyAlert.handler RealtimeAlerts.payload].
  - destruct (SendSafetyAlert.handler e _ _) as [[resp|err] srv];
      cbn -[RealtimeAlerts.payload];
      [destruct (negb _)|]; cbn -[RealtimeAlerts.payload];
      rewrite <- ?app_assoc; cbn -[RealtimeAlerts.payload];
      do 2 eexists; split; reflexivity.
  - rewrite <- ?app_assoc; cbn -[RealtimeAlerts.payload].
    do 2 eexists; split; reflexivity.
  - rewrite <- ?app_assoc; cbn -[RealtimeAlerts.payload].
    do 2 eexists; split; reflexivity.
Qed.

(** C5.  On a newly delivered alert the panel invokes the email transport
    exactly when the alert's severity is critical and its email_sent flag is
    false; an alert whose flag is already true causes no invocation and
    leaves the backend untouched, however often it is delivered. *)
Theorem email_dispatch_rule (net : RealtimeAlerts.Invocation)
    (a : RealtimeAlerts.SafetyAlert) (s : RealtimeAlerts.State) :
  let s' := snd (RealtimeAlerts.onInsert net a s) in
  let due := RealtimeAlerts.severity a = "critical" /\
             RealtimeAlerts.email_sent a = false in
  exists new,
    RealtimeAlerts.events s' = RealtimeAlerts.events s ++ new /\
    (due -> RealtimeAlerts.invocations new =
            [("send-safety-alert", RealtimeAlerts.payload a)]) /\
    (~ due -> RealtimeAlerts.invocations new = [] /\
              RealtimeAlerts.server s' = RealtimeAlerts.server s) /\
    (RealtimeAlerts.email_sent a = true ->
       RealtimeAlerts.invocations new = [] /\
       RealtimeAlerts.server s' = RealtimeAlerts.server s).
Proof.
  intros s' due. subst s' due.
  unfold RealtimeAlerts.onInsert, RealtimeAlerts.emit, RealtimeAlerts.setAlerts,
    RealtimeAlerts.setUnreadCount.
  run_eff. cbn -[RealtimeAlerts.sendEmailAlert RealtimeAlerts.payload String.eqb].
  destruct (String.eqb_spec (RealtimeAlerts.severity a) "critical") as [Hc|Hc];
    destruct (RealtimeAlerts.email_sent a) eqn:Hs;
    cbn -[RealtimeAlerts.sendEmailAlert RealtimeAlerts.payload].
  2: { match goal with
       | |- context [RealtimeAlerts.sendEmailAlert ?n ?x ?st] =>
         destruct (sendEmailAlert_run n x st) as [srv [tail [-> Htail]]]
       end.
       cbn -[RealtimeAlerts.payload]. rewrite <- !app_assoc.
       eexists. split; [reflexivity|].
       unfold RealtimeAlerts.invocations in *.
       cbn -[RealtimeAlerts.payload]. rewrite Htail.
       split; [reflexivity|].
       split; [|discriminate]. intros Hn. exfalso. apply Hn. now split. }
  all: rewrite <- !app_assoc; eexists; (split; [reflexivity|]);
    repeat split; try reflexivity; intros [? ?]; congruence.
Qed.

(** An alert delivered with email_sent already true is not emailed. *)
Lemma email_dispatch_rule_witness :
  exists new,
    RealtimeAlerts.events
      (snd (RealtimeAlerts.onInsert (RealtimeAlerts.Runs Scenario.mail_accepted)
              Scenario.emailed Scenario.panel)) =
      RealtimeAlerts.events Scenario.panel ++ new /\
    RealtimeAlerts.invocations new = [] /\
    RealtimeAlerts.server
      (snd (RealtimeAlerts.onInsert (RealtimeAlerts.Runs Scenario.mail_accepted)
              Scenario.emailed Scenario.panel)) =
      RealtimeAlerts.server Scenario.panel.
Proof.
  destruct (email_dispatch_rule (RealtimeAlerts.Runs Scenario.mail_accepted)
              Scenario.emailed Scenario.panel) as [new [E [_ [_ H]]]].
  exists new. split; [exact E | apply H; reflexivity].
Defined.

(** C8.  The body [sendEmailAlert] hands to the transport function has
    exactly the properties alertId, workerEmail, alertMessage, severity,
    location and timestamp, and the function's destructuring reads each of
    them back as the value the panel put there. *)
Theorem payload_contract (net : RealtimeAlerts.Invocation)
    (alert : RealtimeAlerts.SafetyAlert) (s : RealtimeAlerts.State) :
  let s' := snd (RealtimeAlerts.sendEmailAlert net alert s) in
  exists body new,
    RealtimeAlerts.events s' = RealtimeAlerts.events s ++ new /\
    RealtimeAlerts.invocations new = [("send-safety-alert", body)] /\
    Js.keys body =
      ["alertId"; "workerEmail"; "alertMessage"; "severity"; "location";
       "timestamp"] /\
    SendSafetyAlert.destructure body =
      {| SendSafetyAlert.alertId := Js.str (RealtimeAlerts.id alert);
         SendSafetyAlert.workerEmail := Js.str "secejenish23@gmail.com";
         SendSafetyAlert.alertMessage := Js.str (RealtimeAlerts.message alert);
         SendSafetyAlert.severity := Js.str (RealtimeAlerts.severity alert);
         SendSafetyAlert.location := Js.str "Mine Site";
         SendSafetyAlert.timestamp := Js.str (RealtimeAlerts.created_at alert) |}.
Proof.
  intros s'. subst s'.
  destruct (sendEmailAlert_run net alert s) as [srv [tail [-> Htail]]].
  exists (RealtimeAlerts.payload alert). eexists. simpl.
  split; [reflexivity|]. unfold RealtimeAlerts.invocations in *. simpl.
  rewrite Htail. repeat split.
Qed.

(** ** The edge function *)

(** C6.  The function always answers; it calls the mail service at most
    once; it issues the update of email_sent, a single one keyed by the
    request's alertId, only after the mail service has answered with
    success; and when the mail service does not answer with success the
    table is left as it was and the answer is the error response 500. *)
Theorem email_sent_only_after_transport (e : SendSafetyAlert.Env)
    (req : SendSafetyAlert.Request) (s : SendSafetyAlert.State) :
  let out := fst (SendSafetyAlert.handler e req s) in
  let s' := snd (SendSafetyAlert.handler e req s) in
  exists resp new,
    out = Eff.Return resp /\
    SendSafetyAlert.events s' = SendSafetyAlert.events s ++ new /\
    (length (SendSafetyAlert.transport_calls new) <= 1)%nat /\
    ((SendSafetyAlert.update_requests new = [] /\
      SendSafetyAlert.db s' = SendSafetyAlert.db s) \/
     (exists o key mail text result tail,
        SendSafetyAlert.json req = Some o /\
        SendSafetyAlert.resend e = SendSafetyAlert.Answered true text result /\
        new = SendSafetyAlert.fetch_resend key mail ::
              SendSafetyAlert.console_log "Email sent successfully:" ::
              SendSafetyAlert.supabase_update_email_sent
                (SendSafetyAlert.alertId (SendSafetyAlert.destructure o)) ::
              tail /\
        SendSafetyAlert.update_requests new =
          [SendSafetyAlert.alertId (SendSafetyAlert.destructure o)] /\
        SendSafetyAlert.db s' =
          match SendSafetyAlert.update_at e,
                SendSafetyAlert.alertId (SendSafetyAlert.destructure o) with
          | Some t, Js.str i =>
            Sql.update_safety_alert t (Sql.Alert.set_email_sent true) i
              (SendSafetyAlert.db s)
          | _, _ => SendSafetyAlert.db s
          end /\
        SendSafetyAlert.status resp = 200%Z)) /\
    ((forall text result,
        SendSafetyAlert.resend e <> SendSafetyAlert.Answered true text result) ->
     SendSafetyAlert.method req <> "OPTIONS" ->
     SendSafetyAlert.db s' = SendSafetyAlert.db s /\
     SendSafetyAlert.update_requests new = [] /\
     exists msg,
       resp = {| SendSafetyAlert.status := 500;
                 SendSafetyAlert.body := SendSafetyAlert.error_body msg |}).
Proof.
  intros out s'. subst out s'.
  unfold SendSafetyAlert.handler.
  destruct (String.eqb_spec (SendSafetyAlert.method req) "OPTIONS") as [Hm|Hm].
  { exists {| SendSafetyAlert.status := 200;
              SendSafetyAlert.body := SendSafetyAlert.no_body |}, [].
    cbn. rewrite app_nil_r.
    split; [reflexivity|]. split; [reflexivity|]. split; [lia|].
    split; [left; split; reflexivity|]. intros _ Hopt. contradiction. }
  unfold SendSafetyAlert.req_json, SendSafetyAlert.createClient,
    SendSafetyAlert.toUpperCase, SendSafetyAlert.fetch,
    SendSafetyAlert.response_json, SendSafetyAlert.update_email_sent,
    SendSafetyAlert.emit, SendSafetyAlert.set_db.
  run_eff.
  destruct (SendSafetyAlert.json req) as [o|] eqn:Ej; cbn; [|no_update].
  destruct (SendSafetyAlert.SUPABASE_SERVICE_ROLE_KEY e); cbn; [|no_update].
  destruct (SendSafetyAlert.RESEND_API_KEY e) as [key|]; cbn; [|no_update].
  destruct (Js.prop o "severity") as [|sev] eqn:Esev; cbn; [no_update|].
  destruct (SendSafetyAlert.resend e) as [|ok text result] eqn:Er; cbn;
    [no_update|].
  destruct ok; cbn; [|no_update].
  destruct result as [r|]; cbn; [|no_update].
  destruct (SendSafetyAlert.update_at e) as [t|] eqn:Eu;
    destruct (Js.prop o "alertId") as [|i] eqn:Ei; cbn;
    rewrite <- ?app_assoc; cbn; do 2 eexists;
    (split; [reflexivity|]); (split; [reflexivity|]); (split; [cbn; lia|]);
    (split;
     [right; do 6 eexists; repeat split; cbn; rewrite ?Ei; reflexivity
     |intros Hfail; exfalso; eapply Hfail; reflexivity]).
Qed.

(** ** Acknowledgement *)

Lemma Forall2_map_self {A B} (P : A -> B -> Prop) (f : A -> B) (l : list A) :
  (forall a, P a (f a)) -> Forall2 P l (map f l).
Proof. intros H. induction l; simpl; constructor; auto. Qed.

(** C7, as stated, fails: acknowledging at time 9 an alert that was
    acknowledged at time 5 moves its updated_at from 5 to 9, and the panel
    counts and announces the acknowledgement again. *)
Lemma acknowledged_twice_is_updated_twice :
  let s1 := snd (RealtimeAlerts.acknowledgeAlert (Some 5%Z) "a1" Scenario.panel) in
  let s2 := snd (RealtimeAlerts.acknowledgeAlert (Some 9%Z) "a1" s1) in
  let rows (s : RealtimeAlerts.State) :=
    Sql.safety_alerts (SendSafetyAlert.db (RealtimeAlerts.server s)) in
  map Sql.Alert.acknowledged (rows s1) = [true] /\
  map Sql.Alert.updated_at (rows s1) = [5%Z] /\
  map Sql.Alert.updated_at (rows s2) = [9%Z] /\
  rows s2 <> rows s1 /\
  RealtimeAlerts.unreadCount s1 = 1%Z /\
  RealtimeAlerts.unreadCount s2 = 0%Z /\
  ~ Spec.AcknowledgedIsNoOp.
Proof.
  intros s1 s2 rows.
  split; [reflexivity|]. split; [reflexivity|]. split; [reflexivity|].
  split; [discriminate|]. split; [reflexivity|]. split; [reflexivity|].
  intros H. specialize (H 9%Z "a1" s1). cbv in H.
  assert (forall a : Sql.Alert.row,
            Scenario.alert_a1_acknowledged = a \/ False ->
            Sql.Alert.id a = "a1" -> Sql.Alert.acknowledged a = true) as Hack.
  { intros a [<- | []] _. reflexivity. }
  cbv in Hack. specialize (H Hack). discriminate.
Qed.

(** C7, amended.  An executed acknowledgement raises no error; in the alert
    with the given id it sets acknowledged to true and updated_at to the
    time of the update and changes no other field (email_sent included); it
    changes no other alert.  On an alert that is already acknowledged it
    therefore changes updated_at, and only updated_at. *)
Theorem acknowledge_effect (t : Sql.timestamptz) (i : string)
    (s : RealtimeAlerts.State) :
  let out := fst (RealtimeAlerts.acknowledgeAlert (Some t) i s) in
  let s' := snd (RealtimeAlerts.acknowledgeAlert (Some t) i s) in
  let rows (s : RealtimeAlerts.State) :=
    Sql.safety_alerts (SendSafetyAlert.db (RealtimeAlerts.server s)) in
  out = Eff.Return tt /\
  RealtimeAlerts.events s' =
    RealtimeAlerts.events s ++
    [RealtimeAlerts.supabase_update_acknowledged i;
     RealtimeAlerts.toast RealtimeAlerts.AlertAcknowledged] /\
  Forall2
    (fun old new =>
       (Sql.Alert.id old = i ->
          Sql.Alert.acknowledged new = true /\
          Sql.Alert.updated_at new = t /\
          Sql.Alert.id new = Sql.Alert.id old /\
          Sql.Alert.detection_id new = Sql.Alert.detection_id old /\
          Sql.Alert.alert_type new = Sql.Alert.alert_type old /\
          Sql.Alert.message new = Sql.Alert.message old /\
          Sql.Alert.severity new = Sql.Alert.severity old /\
          Sql.Alert.email_sent new = Sql.Alert.email_sent old /\
          Sql.Alert.created_at new = Sql.Alert.created_at old /\
          (Sql.Alert.acknowledged old = true ->
             new = Sql.Alert.set_updated_at t old)) /\
       (Sql.Alert.id old <> i -> new = old))
    (rows s) (rows s').
Proof.
  intros out s' rows. subst out s' rows.
  unfold RealtimeAlerts.acknowledgeAlert, RealtimeAlerts.update_acknowledged,
    RealtimeAlerts.emit, RealtimeAlerts.set_server, RealtimeAlerts.setAlerts,
    RealtimeAlerts.setUnreadCount.
  run_eff. cbn -[String.eqb].
  split; [reflexivity|]. split; [now rewrite <- app_assoc|].
  apply Forall2_map_self. intros a.
  destruct (String.eqb_spec (Sql.Alert.id a) i) as [E|E].
  - split; [|congruence]. intros _. cbn. repeat split.
    intros Ha. destruct a. cbn in *. now subst.
  - split; [congruence | reflexivity].
Qed.

(** ** The degraded mode of the detector *)

(** The field-by-field copy of the boxes in [saveDetection] is the identity. *)
Lemma copy_boxes (l : list Verdict.BoundingBox) :
  map (fun box =>
         {| Verdict.x := Verdict.x box;
            Verdict.y := Verdict.y box;
            Verdict.width := Verdict.width box;
            Verdict.height := Verdict.height box;
            Verdict.confidence := Verdict.confidence box;
            Verdict.bb_label := Verdict.bb_label box |}) l = l.
Proof. induction l as [|[] l IH]; simpl; now rewrite ?IH. Qed.

(** [saveDetection] always returns: it issues one insert request and logs
    its outcome. *)
Lemma saveDetection_run (f : HelmetDetector.Frame)
    (result : Verdict.DetectionResult) (image : option string)
    (s : HelmetDetector.State) :
  let v := {| Sql.Detection.v_has_helmet := Verdict.hasHelmet result;
              Sql.Detection.v_confidence := Verdict.dr_confidence result;
              Sql.Detection.v_detection_timestamp := Verdict.timestamp result;
              Sql.Detection.v_location := Some "Mine Site - Camera 1";
              Sql.Detection.v_image_data := image;
              Sql.Detection.v_bounding_box := Verdict.boundingBoxes result;
              Sql.Detection.v_alert_sent := false |} in
  exists msg,
    HelmetDetector.saveDetection f result image s =
      (Eff.Return tt,
       {| HelmetDetector.accessGranted := HelmetDetector.accessGranted s;
          HelmetDetector.detectionResult := HelmetDetector.detectionResult s;
          HelmetDetector.db := Spec.db_after f v (HelmetDetector.db s);
          HelmetDetector.events :=
            HelmetDetector.events s ++ [HelmetDetector.supabase_insert v; msg] |}) /\
    (msg = HelmetDetector.console_log "Detection saved to database" \/
     msg = HelmetDetector.console_error "Error saving detection:").
Proof.
  intros v. unfold HelmetDetector.saveDetection, HelmetDetector.insert,
    HelmetDetector.emit, HelmetDetector.set_db, Spec.db_after.
  rewrite copy_boxes. fold v. run_eff. cbn -[Sql.insert_detection].
  destruct (HelmetDetector.delivery f) as [g| |]; cbn -[Sql.insert_detection].
  - destruct (Sql.insert_detection g v (HelmetDetector.db s)) as [d'|err];
      cbn; rewrite <- app_assoc; eexists; (split; [reflexivity | auto]).
  - rewrite <- app_assoc; eexists; (split; [reflexivity | auto]).
  - rewrite <- app_assoc; eexists; (split; [reflexivity | auto]).
Qed.

(** The run of [analyzeFrame] when the classifier call throws. *)
Lemma analyzeFrame_fallback (f : HelmetDetector.Frame) (s : HelmetDetector.State) :
  HelmetDetector.ready f = true ->
  HelmetDetector.classifier f = None ->
  let mock := HelmetDetector.mockResult f in
  let v := {| Sql.Detection.v_has_helmet := Verdict.hasHelmet mock;
              Sql.Detection.v_confidence := Verdict.dr_confidence mock;
              Sql.Detection.v_detection_timestamp := Verdict.timestamp mock;
              Sql.Detection.v_location := Some "Mine Site - Camera 1";
              Sql.Detection.v_image_data := None;
              Sql.Detection.v_bounding_box := Verdict.boundingBoxes mock;
              Sql.Detection.v_alert_sent := false |} in
  exists msg,
    HelmetDetector.analyzeFrame f s =
      (Eff.Return tt,
       {| HelmetDetector.accessGranted := HelmetDetector.accessGranted s;
          HelmetDetector.detectionResult := Some mock;
          HelmetDetector.db := Spec.db_after f v (HelmetDetector.db s);
          HelmetDetector.events :=
            HelmetDetector.events s ++
            [HelmetDetector.console_error "Detection error:";
             HelmetDetector.supabase_insert v; msg] |}) /\
    (msg = HelmetDetector.console_log "Detection saved to database" \/
     msg = HelmetDetector.console_error "Error saving detection:").
Proof.
  intros Hready Hfail mock v.
  unfold HelmetDetector.analyzeFrame, HelmetDetector.detector.
  rewrite Hready, Hfail.
  unfold HelmetDetector.emit, HelmetDetector.setDetectionResult.
  run_eff. cbn -[HelmetDetector.saveDetection HelmetDetector.mockResult].
  match goal with
  | |- context [HelmetDetector.saveDetection f ?r ?i ?st] =>
    destruct (saveDetection_run f r i st) as [msg [-> Hmsg]]
  end.
  exists msg. cbn -[HelmetDetector.mockResult Spec.db_after].
  rewrite <- app_assoc. split; [reflexivity | exact Hmsg].
Qed.

(** The simulated confidence, under draws in [0, 1). *)
Lemma mock_confidence_range (f : HelmetDetector.Frame) :
  0 <= HelmetDetector.random2 f -> HelmetDetector.random2 f < 1 ->
  let mock := HelmetDetector.mockResult f in
  (Verdict.hasHelmet mock = false ->
     2 # 10 <= Verdict.dr_confidence mock /\ Verdict.dr_confidence mock < 5 # 10) /\
  (Verdict.hasHelmet mock = true ->
     7 # 10 <= Verdict.dr_confidence mock /\ Verdict.dr_confidence mock < 9 # 10).
Proof.
  intros H0 H1. unfold HelmetDetector.mockResult. simpl.
  destruct (Js.gt (HelmetDetector.random1 f) (4 # 10));
    split; intros E; try discriminate; split; lra.
Qed.

(** Rounding keeps a non-negative value between integer bounds. *)
Lemma round_half_away_bounds (q : Q) (lo hi : Z) :
  inject_Z lo <= q -> q <= inject_Z hi -> (0 <= lo)%Z ->
  (lo <= Sql.round_half_away q <= hi)%Z.
Proof.
  intros Hlo Hhi Hpos. unfold Sql.round_half_away.
  assert (0 <= q) as Hq.
  { eapply Qle_trans; [|exact Hlo]. change 0 with (inject_Z 0).
    now rewrite <- Zle_Qle. }
  apply Qle_bool_iff in Hq. rewrite Hq. split.
  - rewrite <- (Qfloor_Z lo). apply Qfloor_resp_le.
    clear - Hlo. revert Hlo. generalize (inject_Z lo). intros l Hlo. lra.
  - assert (Qfloor (q + (1 # 2)) < hi + 1)%Z; [|lia].
    rewrite Zlt_Qlt. eapply Qle_lt_trans; [apply Qfloor_le|].
    rewrite inject_Z_plus. change (inject_Z 1) with 1.
    clear - Hhi. revert Hhi. generalize (inject_Z hi). intros h Hhi. lra.
Qed.

(** The stored form of a simulated result never satisfies the violation
    predicate, and never overflows the confidence column. *)
(** A confidence between 0 and 9.99 is stored, between the same bounds. *)
Lemma stored_confidence (c : Q) (lo hi : Z) :
  inject_Z lo <= c * 100 -> c * 100 <= inject_Z hi ->
  (0 <= lo)%Z -> (hi < 1000)%Z ->
  exists h, Sql.to_numeric_3_2 c = inl h /\ (lo <= h <= hi)%Z.
Proof.
  intros Hlo Hhi Hpos Hmax.
  pose proof (round_half_away_bounds (c * 100) lo hi Hlo Hhi Hpos) as Hr.
  unfold Sql.to_numeric_3_2.
  destruct (Z.ltb_spec (Z.abs (Sql.round_half_away (c * 100))) 1000);
    [eexists; split; [reflexivity | exact Hr] | lia].
Qed.

(** The stored form of a simulated result never overflows the confidence
    column, and is at most 0.50 when the result reports no helmet. *)
Lemma mock_stored_confidence (f : HelmetDetector.Frame) :
  0 <= HelmetDetector.random2 f -> HelmetDetector.random2 f < 1 ->
  let mock := HelmetDetector.mockResult f in
  exists c,
    Sql.to_numeric_3_2 (Verdict.dr_confidence mock) = inl c /\
    (Verdict.hasHelmet mock = false -> (20 <= c <= 50)%Z) /\
    (Verdict.hasHelmet mock = true -> (70 <= c <= 90)%Z).
Proof.
  intros H0 H1 mock.
  destruct (mock_confidence_range f H0 H1) as [Hno Hyes]. fold mock in Hno, Hyes.
  revert Hno Hyes. generalize (Verdict.dr_confidence mock). intros c Hno Hyes.
  destruct (Verdict.hasHelmet mock) eqn:E.
  - destruct (Hyes eq_refl) as [Ha Hb].
    destruct (stored_confidence c 70 90) as [h [Eh Hh]];
      [unfold inject_Z; lra | unfold inject_Z; lra | lia | lia |].
    exists h. split; [exact Eh|]. split; [discriminate | intros _; exact Hh].
  - destruct (Hno eq_refl) as [Ha Hb].
    destruct (stored_confidence c 20 50) as [h [Eh Hh]];
      [unfold inject_Z; lra | unfold inject_Z; lra | lia | lia |].
    exists h. split; [exact Eh|]. split; [intros _; exact Hh | discriminate].
Qed.

(** An insert whose stored row does not satisfy the violation predicate is
    accepted under a fresh id, adds that row and leaves the alerts alone. *)
Lemma insert_detection_accepts (g : Sql.Fresh) (v : Sql.Detection.values)
    (d : Sql.Database) (c : Sql.numeric_3_2) :
  Sql.to_numeric_3_2 (Sql.Detection.v_confidence v) = inl c ->
  Sql.has_detection (Sql.detection_uuid g) d = false ->
  Sql.Detection.v_has_helmet v = true \/ (c <= 60)%Z ->
  Sql.insert_detection g v d =
    inl {| Sql.helmet_detections :=
             Sql.helmet_detections d ++
             [ {| Sql.Detection.id := Sql.detection_uuid g;
                  Sql.Detection.worker_id := None;
                  Sql.Detection.has_helmet := Sql.Detection.v_has_helmet v;
                  Sql.Detection.confidence := c;
                  Sql.Detection.detection_timestamp :=
                    Sql.Detection.v_detection_timestamp v;
                  Sql.Detection.location := Sql.Detection.v_location v;
                  Sql.Detection.image_data := Sql.Detection.v_image_data v;
                  Sql.Detection.bounding_box :=
                    Some (Sql.Detection.v_bounding_box v);
                  Sql.Detection.alert_sent := Sql.Detection.v_alert_sent v;
                  Sql.Detection.created_at := Sql.now g |} ];
           Sql.safety_alerts := Sql.safety_alerts d |}.
Proof.
  intros Hc Hfresh Hno. unfold Sql.insert_detection. rewrite Hc, Hfresh.
  unfold Sql.create_helmet_violation_alert, Sql.violation. simpl.
  destruct Hno as [-> | Hle]; [reflexivity|].
  destruct (Z.ltb_spec 60 c); [lia|]. now rewrite andb_false_r.
Qed.

(** No insert of a row that does not satisfy the violation predicate, be it
    accepted or refused, changes the alerts. *)
Lemma db_after_alerts (f : HelmetDetector.Frame) (v : Sql.Detection.values)
    (d : Sql.Database) (c : Sql.numeric_3_2) :
  Sql.to_numeric_3_2 (Sql.Detection.v_confidence v) = inl c ->
  Sql.Detection.v_has_helmet v = true \/ (c <= 60)%Z ->
  Sql.safety_alerts (Spec.db_after f v d) = Sql.safety_alerts d.
Proof.
  intros Hc Hno. unfold Spec.db_after.
  destruct (HelmetDetector.delivery f) as [g| |]; try reflexivity.
  destruct (Sql.has_detection (Sql.detection_uuid g) d) eqn:Hfresh.
  - unfold Sql.insert_detection. now rewrite Hc, Hfresh.
  - now rewrite (insert_detection_accepts g v d c Hc Hfresh Hno).
Qed.

(** C9.  When the classifier call throws, [analyzeFrame] still returns
    normally: it logs the error, publishes a simulated result (helmet flag,
    confidence, timestamp and bounding boxes drawn from the random source)
    and issues the insert of that result; the access state is not touched.
    Delivered under a fresh id, with a draw in [0, 1), the insert is
    accepted and the result is stored. *)
Theorem classifier_failure_is_recovered (f : HelmetDetector.Frame)
    (s : HelmetDetector.State) :
  HelmetDetector.ready f = true ->
  HelmetDetector.classifier f = None ->
  let out := fst (HelmetDetector.analyzeFrame f s) in
  let s' := snd (HelmetDetector.analyzeFrame f s) in
  let mock := HelmetDetector.mockResult f in
  out = Eff.Return tt /\
  HelmetDetector.detectionResult s' = Some mock /\
  HelmetDetector.accessGranted s' = HelmetDetector.accessGranted s /\
  (exists v msg,
     HelmetDetector.events s' =
       HelmetDetector.events s ++
       [HelmetDetector.console_error "Detection error:";
        HelmetDetector.supabase_insert v; msg] /\
     Sql.Detection.v_has_helmet v = Verdict.hasHelmet mock /\
     Sql.Detection.v_confidence v = Verdict.dr_confidence mock /\
     Sql.Detection.v_detection_timestamp v = Verdict.timestamp mock /\
     Sql.Detection.v_bounding_box v = Verdict.boundingBoxes mock /\
     HelmetDetector.db s' = Spec.db_after f v (HelmetDetector.db s)) /\
  (forall g,
     HelmetDetector.delivery f = HelmetDetector.Delivered g ->
     Sql.has_detection (Sql.detection_uuid g) (HelmetDetector.db s) = false ->
     0 <= HelmetDetector.random2 f -> HelmetDetector.random2 f < 1 ->
     exists row,
       Sql.helmet_detections (HelmetDetector.db s') =
         Sql.helmet_detections (HelmetDetector.db s) ++ [row] /\
       Sql.Detection.id row = Sql.detection_uuid g /\
       Sql.Detection.has_helmet row = Verdict.hasHelmet mock /\
       Sql.to_numeric_3_2 (Verdict.dr_confidence mock) =
         inl (Sql.Detection.confidence row) /\
       Sql.Detection.detection_timestamp row = Verdict.timestamp mock /\
       Sql.Detection.bounding_box row = Some (Verdict.boundingBoxes mock)).
Proof.
  intros Hready Hfail out s' mock. subst out s'.
  destruct (analyzeFrame_fallback f s Hready Hfail) as [msg [-> _]].
  fold mock. cbn -[HelmetDetector.mockResult Spec.db_after].
  split; [reflexivity|]. split; [reflexivity|]. split; [reflexivity|].
  split; [do 2 eexists; repeat split|].
  intros g Hg Hfresh H0 H1.
  destruct (mock_stored_confidence f H0 H1) as [c [Hc [Hno Hyes]]].
  fold mock in Hc, Hno, Hyes.
  unfold Spec.db_after. rewrite Hg.
  erewrite insert_detection_accepts; [|exact Hc|exact Hfresh|].
  - eexists. cbn -[HelmetDetector.mockResult]. repeat split. exact Hc.
  - cbn -[HelmetDetector.mockResult].
    destruct (Verdict.hasHelmet mock); [now left | right].
    specialize (Hno eq_refl). lia.
Qed.

(** C10.  Whatever the draws in [0, 1), a simulated result without helmet
    has a confidence in [0.2, 0.5), below the 0.6 of the violation
    predicate; no simulated result satisfies that predicate, and the run of
    [analyzeFrame] after a classifier failure leaves the alerts as they
    were. *)
Theorem degraded_mode_never_alerts (f : HelmetDetector.Frame)
    (s : HelmetDetector.State) :
  0 <= HelmetDetector.random2 f -> HelmetDetector.random2 f < 1 ->
  HelmetDetector.ready f = true ->
  HelmetDetector.classifier f = None ->
  let mock := HelmetDetector.mockResult f in
  let s' := snd (HelmetDetector.analyzeFrame f s) in
  (Verdict.hasHelmet mock = false ->
     2 # 10 <= Verdict.dr_confidence mock /\
     Verdict.dr_confidence mock < 5 # 10 /\
     Verdict.dr_confidence mock < 6 # 10) /\
  ~ (Verdict.hasHelmet mock = false /\ 6 # 10 < Verdict.dr_confidence mock) /\
  Sql.safety_alerts (HelmetDetector.db s') =
  Sql.safety_alerts (HelmetDetector.db s).
Proof.
  intros H0 H1 Hready Hfail mock s'. subst s'.
  destruct (mock_confidence_range f H0 H1) as [Hrange _]. fold mock in Hrange.
  split; [|split].
  - intros E. destruct (Hrange E) as [Ha Hb]. repeat split; lra.
  - intros [E Hgt]. destruct (Hrange E) as [_ Hb]. lra.
  - destruct (analyzeFrame_fallback f s Hready Hfail) as [msg [-> _]].
    fold mock. cbn -[HelmetDetector.mockResult Spec.db_after].
    destruct (mock_stored_confidence f H0 H1) as [c [Hc [Hno _]]].
    fold mock in Hc, Hno.
    apply (db_after_alerts f _ _ c); [exact Hc|].
    cbn -[HelmetDetector.mockResult].
    destruct (Verdict.hasHelmet mock); [now left | right].
    specialize (Hno eq_refl). lia.
Qed.

(** ** Runs on concrete inputs *)

(** The insert of a confident detection without helmet creates its alert. *)
Example insert_no_helmet :
  Sql.insert_detection Scenario.g1 Scenario.no_helmet Sql.empty = inl Scenario.db1.
Proof. reflexivity. Qed.

(** The stored detection d1 has its one critical alert. *)
Lemma one_alert_per_violation_witness :
  Sql.reachable Scenario.db1 /\
  In Scenario.row_d1 (Sql.helmet_detections Scenario.db1) /\
  exists a, Sql.alerts_for "d1" Scenario.db1 = [a] /\
            Sql.Alert.alert_type a = "helmet_violation" /\
            Sql.Alert.severity a = "critical".
Proof.
  assert (Sql.reachable Scenario.db1) as Hr.
  { apply (Sql.reach_insert Scenario.g1 Scenario.no_helmet Sql.empty);
      [apply Sql.reach_empty | reflexivity]. }
  assert (In Scenario.row_d1 (Sql.helmet_detections Scenario.db1)) as Hin
    by (left; reflexivity).
  split; [exact Hr|]. split; [exact Hin|].
  destruct (one_alert_per_violation Scenario.db1 Scenario.row_d1 Hr Hin) as [H _].
  apply H. split; [reflexivity | simpl; lia].
Defined.

(** The stored confidence has two decimals: a verdict without helmet of
    confidence 0.604 is stored as 0.60 and raises no alert. *)
Example insert_rounds_confidence :
  exists d,
    Sql.insert_detection Scenario.g1
      {| Sql.Detection.v_has_helmet := false;
         Sql.Detection.v_confidence := 604 # 1000;
         Sql.Detection.v_detection_timestamp := 1%Z;
         Sql.Detection.v_location := Some "Mine Site - Camera 1";
         Sql.Detection.v_image_data := None;
         Sql.Detection.v_bounding_box := [];
         Sql.Detection.v_alert_sent := false |} Sql.empty = inl d /\
    map Sql.Detection.confidence (Sql.helmet_detections d) = [60%Z] /\
    Sql.safety_alerts d = [].
Proof. eexists. repeat split. Qed.

(** The second end-to-end scenario of the specification: a lone person
    gives a verdict without helmet of confidence 0.3, which is stored and
    raises no alert. *)
Example person_only_raises_no_alert :
  let s := snd (HelmetDetector.analyzeFrame
                  (Scenario.frame Scenario.person_only Scenario.g1)
                  (HelmetDetector.initial Sql.empty)) in
  option_map Verdict.hasHelmet (HelmetDetector.detectionResult s) = Some false /\
  option_map Verdict.dr_confidence (HelmetDetector.detectionResult s) =
    Some (3 # 10) /\
  map Sql.Detection.confidence (Sql.helmet_detections (HelmetDetector.db s)) =
    [30%Z] /\
  Sql.safety_alerts (HelmetDetector.db s) = [] /\
  HelmetDetector.accessGranted s = false /\
  HelmetDetector.notifications (HelmetDetector.events s) = [].
Proof. repeat split. Qed.

(** The first one: a person and a hardhat grant access and raise no alert. *)
Example person_and_hardhat_grants_access :
  let s := snd (HelmetDetector.analyzeFrame
                  (Scenario.frame Scenario.person_and_hardhat Scenario.g1)
                  (HelmetDetector.initial Sql.empty)) in
  map Sql.Detection.confidence (Sql.helmet_detections (HelmetDetector.db s)) =
    [85%Z] /\
  Sql.safety_alerts (HelmetDetector.db s) = [] /\
  HelmetDetector.accessGranted s = true /\
  HelmetDetector.notifications (HelmetDetector.events s) =
    [HelmetDetector.AccessGranted].
Proof. repeat split. Qed.

(** A refused mail leaves the alert as it was and is answered with 500. *)
Lemma email_sent_only_after_transport_witness :
  let s := RealtimeAlerts.server Scenario.panel in
  let s' := snd (SendSafetyAlert.handler Scenario.mail_refused Scenario.request s) in
  SendSafetyAlert.db s' = SendSafetyAlert.db s /\
  exists msg,
    fst (SendSafetyAlert.handler Scenario.mail_refused Scenario.request s) =
    Eff.Return {| SendSafetyAlert.status := 500;
                  SendSafetyAlert.body := SendSafetyAlert.error_body msg |}.
Proof.
  intros s s'. subst s'.
  destruct (email_sent_only_after_transport Scenario.mail_refused
              Scenario.request s) as [resp [new [Hout [_ [_ [_ Hfail]]]]]].
  destruct Hfail as [Hdb [_ [msg Hresp]]].
  - intros text result. discriminate.
  - discriminate.
  - split; [exact Hdb|]. exists msg. now rewrite Hout, Hresp.
Defined.

(** An accepted mail marks the alert as emailed, at the time of the update. *)
Example handler_marks_email_sent :
  let s := RealtimeAlerts.server Scenario.panel in
  let r := SendSafetyAlert.handler Scenario.mail_accepted Scenario.request s in
  fst r = Eff.Return
            {| SendSafetyAlert.status := 200;
               SendSafetyAlert.body :=
                 SendSafetyAlert.success_body (Js.str "e1")
                   "Safety alert email sent successfully" |} /\
  map Sql.Alert.email_sent (Sql.safety_alerts (SendSafetyAlert.db (snd r))) =
    [true] /\
  map Sql.Alert.updated_at (Sql.safety_alerts (SendSafetyAlert.db (snd r))) =
    [3%Z] /\
  length (SendSafetyAlert.transport_calls (SendSafetyAlert.events (snd r))) = 1%nat.
Proof. repeat split. Qed.

(** Acknowledging a1 returns and leaves its email_sent flag false. *)
Lemma acknowledge_effect_witness :
  fst (RealtimeAlerts.acknowledgeAlert (Some 5%Z) "a1" Scenario.panel) =
    Eff.Return tt /\
  map Sql.Alert.email_sent
    (Sql.safety_alerts
       (SendSafetyAlert.db
          (RealtimeAlerts.server
             (snd (RealtimeAlerts.acknowledgeAlert (Some 5%Z) "a1" Scenario.panel)))))
  = [false].
Proof.
  destruct (acknowledge_effect 5%Z "a1" Scenario.panel) as [Hout [_ Hrows]].
  split; [exact Hout|].
  cbv in Hrows. inversion Hrows as [|old new olds news [Hsame _] Hrest]; subst.
  destruct (Hsame eq_refl) as [_ [_ [_ [_ [_ [_ [_ [Hmail _]]]]]]]].
  exact (f_equal (fun b => [b]) Hmail).
Defined.

(** A frame on which the classifier throws still yields a result. *)
Lemma classifier_failure_is_recovered_witness :
  HelmetDetector.ready Scenario.classifier_down = true /\
  HelmetDetector.classifier Scenario.classifier_down = None /\
  fst (HelmetDetector.analyzeFrame Scenario.classifier_down
         (HelmetDetector.initial Sql.empty)) = Eff.Return tt /\
  HelmetDetector.detectionResult
    (snd (HelmetDetector.analyzeFrame Scenario.classifier_down
            (HelmetDetector.initial Sql.empty))) =
  Some (HelmetDetector.mockResult Scenario.classifier_down).
Proof.
  split; [reflexivity|]. split; [reflexivity|].
  destruct (classifier_failure_is_recovered Scenario.classifier_down
              (HelmetDetector.initial Sql.empty) eq_refl eq_refl)
    as [Hout [Hres _]].
  split; [exact Hout | exact Hres].
Defined.

(** The simulated result of confidence 0.35 adds no alert to those there. *)
Lemma degraded_mode_never_alerts_witness :
  0 <= HelmetDetector.random2 Scenario.classifier_down /\
  HelmetDetector.random2 Scenario.classifier_down < 1 /\
  Verdict.dr_confidence (HelmetDetector.mockResult Scenario.classifier_down)
    < 6 # 10 /\
  Sql.safety_alerts
    (HelmetDetector.db
       (snd (HelmetDetector.analyzeFrame Scenario.classifier_down
               (HelmetDetector.initial Scenario.db1)))) =
  Sql.safety_alerts Scenario.db1.
Proof.
  assert (0 <= HelmetDetector.random2 Scenario.classifier_down) as H0
    by (simpl; lra).
  assert (HelmetDetector.random2 Scenario.classifier_down < 1) as H1
    by (simpl; lra).
  split; [exact H0|]. split; [exact H1|].
  destruct (degraded_mode_never_alerts Scenario.classifier_down
              (HelmetDetector.initial Scenario.db1) H0 H1 eq_refl eq_refl)
    as [Hrange [_ Hsame]].
  split; [apply Hrange; reflexivity | exact Hsame].
Defined.

(* ===================================================================== *)
(** * Part III: further properties of the code                           *)
(* ===================================================================== *)

(** ** The verdict rule, continued *)

Lemma includes_hardhat_hat (l : string) :
  Js.includes l "hardhat" = true -> Js.includes l "hat" = true.
Proof.
  rewrite !includes_spec. intros [pre [post ->]].
  exists (pre ++ "hard")%string, post.
  induction pre as [|c pre IH]; simpl; [reflexivity | now f_equal].
Qed.

(** X1.  The test for "hardhat" never decides: a label passes the helmet test
    exactly when it contains "hat" or "helmet". *)
Theorem hardhat_test_is_redundant (l : string) :
  Verdict.helmetLabel l = Js.includes l "hat" || Js.includes l "helmet".
Proof.
  unfold Verdict.helmetLabel.
  destruct (Js.includes l "hat") eqn:Hat; [reflexivity|].
  destruct (Js.includes l "helmet"); [reflexivity|]. simpl.
  destruct (Js.includes l "hardhat") eqn:Hard; [|reflexivity].
  apply includes_hardhat_hat in Hard. congruence.
Qed.

Lemma filter_disjoint_length {A} (p q : A -> bool) (l : list A) :
  (forall a, p a = true -> q a = false) ->
  (length (filter p l) + length (filter q l) <= length l)%nat.
Proof.
  intros H. induction l as [|a l IH]; simpl; [lia|].
  destruct (p a) eqn:Ep; [rewrite (H a Ep)|destruct (q a)]; simpl; lia.
Qed.

(** X2.  The boxes of a verdict are the persons followed by the helmet-labelled
    objects, each the conversion of a classifier object; no object is
    listed twice, so there are at most as many boxes as objects. *)
Theorem verdict_boxes (results : list Verdict.RawObject) (now : Z) :
  let r := Verdict.verdict results now in
  (length (Verdict.boundingBoxes r) <= length results)%nat /\
  Verdict.boundingBoxes r =
    map Verdict.toBoundingBox
        (filter (fun o => String.eqb (Verdict.label o) "person") results) ++
    map Verdict.toBoundingBox
        (filter (fun o => Verdict.helmetLabel (Verdict.label o)) results) /\
  (forall b, In b (Verdict.boundingBoxes r) ->
     exists o, In o results /\ b = Verdict.toBoundingBox o /\
               (Spec.IsPerson o \/ Spec.IsHelmet o)).
Proof.
  intros r. subst r. unfold Verdict.verdict. simpl.
  assert (E : filter Verdict.isHelmet (map Verdict.toBoundingBox results) =
              map Verdict.toBoundingBox
                (filter (fun o => Verdict.helmetLabel (Verdict.label o)) results)).
  { induction results as [|o l IH]; simpl; [reflexivity|].
    unfold Verdict.isHelmet at 1. simpl.
    destruct (Verdict.helmetLabel (Verdict.label o)); simpl; now rewrite IH. }
  rewrite persons_filter, E. split; [|split; [reflexivity|]].
  - rewrite length_app, !length_map. apply filter_disjoint_length.
    intros o Ho. apply String.eqb_eq in Ho. now rewrite Ho.
  - intros b Hb. apply in_app_or in Hb.
    destruct Hb as [Hb | Hb]; apply in_map_iff in Hb;
      destruct Hb as [o [<- Ho]]; apply filter_In in Ho; destruct Ho as [Hin Hp];
      exists o; (split; [exact Hin|]); (split; [reflexivity|]).
    + left. now apply String.eqb_eq.
    + right. now apply helmetLabel_spec.
Qed.

(** ** The access state machine, continued *)

Lemma step_state (granted : bool) (v : bool * Q) :
  fst (HelmetDetector.step granted v) = Access.positive v.
Proof.
  destruct v as [h c]. rewrite step_eq. unfold Access.positive. simpl.
  now destruct (h && Js.gt c (6 # 10)).
Qed.

Lemma run_app (granted : bool) (vs ws : list (bool * Q)) :
  HelmetDetector.run granted (vs ++ ws) =
  (fst (HelmetDetector.run (fst (HelmetDetector.run granted vs)) ws),
   snd (HelmetDetector.run granted vs) ++
   snd (HelmetDetector.run (fst (HelmetDetector.run granted vs)) ws)).
Proof.
  revert granted.
  induction vs as [|v vs IH]; intros granted; cbn [HelmetDetector.run app fst snd].
  - now destruct (HelmetDetector.run granted ws).
  - destruct (HelmetDetector.step granted v) as [g1 out].
    rewrite IH. destruct (HelmetDetector.run g1 vs). reflexivity.
Qed.

(** X3.  The machine has no memory: after any sequence of verdicts that is not
    empty, access is granted exactly when the last verdict has a helmet and
    a confidence above 0.6, whatever the state before and the earlier
    verdicts; and each verdict gets its own list of notifications. *)
Theorem access_follows_last_verdict (granted : bool) (vs : list (bool * Q))
    (v : bool * Q) :
  fst (HelmetDetector.run granted (vs ++ [v])) = Access.positive v /\
  length (snd (HelmetDetector.run granted (vs ++ [v]))) = S (length vs).
Proof.
  rewrite run_app. cbn [HelmetDetector.run fst snd].
  destruct (HelmetDetector.step _ v) as [g out] eqn:E. cbn [fst snd]. split.
  - rewrite <- (step_state (fst (HelmetDetector.run granted vs)) v).
    now rewrite E.
  - rewrite length_app. simpl.
    assert (forall g0 l, length (snd (HelmetDetector.run g0 l)) = length l) as H.
    { intros g0 l. revert g0.
      induction l as [|w l IH]; intros g0; cbn [HelmetDetector.run snd length];
        auto.
      destruct (HelmetDetector.step g0 w) as [g1 o].
      specialize (IH g1). destruct (HelmetDetector.run g1 l).
      cbn [snd length] in *. now rewrite IH. }
    rewrite H. lia.
Qed.

(** X4.  In the notifications of any run, from any state, a grant is only ever
    announced while access is denied: two grants are always separated by a
    denial, and a run that starts in GRANTED announces a denial first. *)
Theorem grants_are_never_repeated (granted : bool) (vs : list (bool * Q)) :
  Access.in_order granted (concat (snd (HelmetDetector.run granted vs))) = true.
Proof.
  revert granted.
  induction vs as [|[h c] vs IH]; intros granted; cbn [HelmetDetector.run];
    [reflexivity|].
  rewrite step_eq.
  destruct (h && Js.gt c (6 # 10)).
  - specialize (IH true). destruct (HelmetDetector.run true vs) as [g2 outs].
    simpl in *. destruct granted; simpl; exact IH.
  - specialize (IH false). destruct (HelmetDetector.run false vs) as [g2 outs].
    simpl in *. destruct granted, (Js.gt c (6 # 10)); simpl; exact IH.
Qed.

(** ** One run of [analyzeFrame] *)

(** A frame that is not ready is skipped. *)
Lemma analyzeFrame_not_ready (f : HelmetDetector.Frame) (s : HelmetDetector.State) :
  HelmetDetector.ready f = false ->
  HelmetDetector.analyzeFrame f s = (Eff.Return tt, s).
Proof.
  intros H. unfold HelmetDetector.analyzeFrame. rewrite H. run_eff. reflexivity.
Qed.

(** [updateAccess] from the state it closed over. *)
Lemma updateAccess_run (hasHelmet : bool) (confidence : Q) (s : HelmetDetector.State) :
  HelmetDetector.updateAccess (HelmetDetector.accessGranted s) hasHelmet confidence s =
  (Eff.Return tt,
   {| HelmetDetector.accessGranted :=
        fst (HelmetDetector.step (HelmetDetector.accessGranted s)
               (hasHelmet, confidence));
      HelmetDetector.detectionResult := HelmetDetector.detectionResult s;
      HelmetDetector.db := HelmetDetector.db s;
      HelmetDetector.events :=
        HelmetDetector.events s ++
        map HelmetDetector.toast
          (snd (HelmetDetector.step (HelmetDetector.accessGranted s)
                  (hasHelmet, confidence))) |}).
Proof.
  rewrite step_eq. unfold HelmetDetector.updateAccess,
    HelmetDetector.setAccessGranted, HelmetDetector.emit. run_eff.
  destruct s as [g r d es]. simpl.
  destruct hasHelmet, g, (Js.gt confidence (6 # 10)); simpl;
    rewrite ?app_nil_r; reflexivity.
Qed.

(** The run of [analyzeFrame] when the classifier answers. *)
Lemma analyzeFrame_classified (f : HelmetDetector.Frame) (s : HelmetDetector.State)
    (results : list Verdict.RawObject) :
  HelmetDetector.ready f = true ->
  HelmetDetector.classifier f = Some results ->
  let result := Verdict.verdict results (HelmetDetector.date f) in
  let v := Detector.values_of result (Some (HelmetDetector.imageData f)) in
  let st := HelmetDetector.step (HelmetDetector.accessGranted s)
              (Detector.verdict_of result) in
  exists msg,
    HelmetDetector.analyzeFrame f s =
      (Eff.Return tt,
       {| HelmetDetector.accessGranted := fst st;
          HelmetDetector.detectionResult := Some result;
          HelmetDetector.db := Spec.db_after f v (HelmetDetector.db s);
          HelmetDetector.events :=
            HelmetDetector.events s ++
            [HelmetDetector.supabase_insert v; msg] ++
            map HelmetDetector.toast (snd st) |}) /\
    (msg = HelmetDetector.console_log "Detection saved to database" \/
     msg = HelmetDetector.console_error "Error saving detection:").
Proof.
  intros Hready Hres result v st.
  unfold HelmetDetector.analyzeFrame, HelmetDetector.detector.
  rewrite Hready, Hres. fold result.
  unfold HelmetDetector.setDetectionResult. run_eff.
  cbn -[HelmetDetector.saveDetection HelmetDetector.updateAccess result
        HelmetDetector.step].
  match goal with
  | |- context [HelmetDetector.saveDetection f ?r ?i ?st0] =>
    destruct (saveDetection_run f r i st0) as [msg [-> Hmsg]]
  end.
  cbn -[HelmetDetector.updateAccess result Spec.db_after HelmetDetector.step].
  match goal with
  | |- context [HelmetDetector.updateAccess ?g ?h ?c ?st0] =>
    pose proof (updateAccess_run h c st0) as Hup
  end.
  cbn -[HelmetDetector.updateAccess result Spec.db_after HelmetDetector.step]
    in Hup.
  rewrite Hup. exists msg. split; [|exact Hmsg].
  rewrite <- app_assoc. reflexivity.
Qed.

(** The two shapes of a verdict: with a helmet-labelled object its
    confidence is the largest helmet score; without one it reports no
    helmet, with confidence 0.3 or 0.1. *)
Lemma verdict_shapes (results : list Verdict.RawObject) (now : Z) :
  let r := Verdict.verdict results now in
  ((exists o, In o results /\ Spec.IsHelmet o) /\
   Spec.MaxHelmetScore results (Verdict.dr_confidence r) /\
   (Verdict.hasHelmet r = true <-> exists o, In o results /\ Spec.IsPerson o)) \/
  (Verdict.hasHelmet r = false /\
   (Verdict.dr_confidence r = 3 # 10 \/ Verdict.dr_confidence r = 1 # 10)).
Proof.
  intros r. subst r. unfold Verdict.verdict. simpl.
  pose proof (some_person results) as HP.
  pose proof (some_helmet results) as HH.
  destruct (0 <? length (filter Verdict.isHelmet _))%nat eqn:Hsome.
  2: { right. rewrite andb_false_r. split; [reflexivity|].
       rewrite <- (length_map Verdict.confidence) in Hsome.
       destruct (map Verdict.confidence _); [|discriminate].
       destruct (0 <? length _)%nat; auto. }
  rewrite <- (length_map Verdict.confidence) in Hsome.
  rewrite helmets_filter in *.
  set (hs := filter (fun o => Verdict.helmetLabel (Verdict.label o)) results) in *.
  assert (Hhs : forall h, In h hs <-> In h results /\ Spec.IsHelmet h).
  { intros h. unfold hs. now rewrite filter_In, helmetLabel_spec. }
  destruct (map Verdict.score hs) as [|c cs] eqn:E; [discriminate|].
  - left. split; [now apply HH|]. split.
    + destruct (Math_max_spec cs c) as [Hin Hub]. rewrite <- E in Hin, Hub.
      split.
      * apply in_map_iff in Hin. destruct Hin as [h [Hs Hh]].
        exists h. apply Hhs in Hh. now rewrite Hs.
      * intros h Hir Hih. apply Hub, in_map, Hhs. now split.
    + simpl. now rewrite andb_true_r.
Qed.

(** [z <= floor x] exactly when [z <= x]. *)
Lemma Qfloor_ge (z : Z) (x : Q) : (z <= Qfloor x)%Z <-> inject_Z z <= x.
Proof.
  split; intros H.
  - eapply Qle_trans; [|apply Qfloor_le]. now rewrite <- Zle_Qle.
  - rewrite <- (Qfloor_Z z). now apply Qfloor_resp_le.
Qed.

(** A confidence is stored above 0.60 only if it is at least 0.605. *)
Lemma stored_above_threshold (q : Q) (c : Sql.numeric_3_2) :
  Sql.to_numeric_3_2 q = inl c -> (60 < c)%Z -> 605 # 1000 <= q.
Proof.
  unfold Sql.to_numeric_3_2.
  set (h := Sql.round_half_away (q * 100)).
  destruct (Z.abs h <? 1000)%Z; [|discriminate].
  intros H Hc. assert (c = h) as -> by congruence. clear H.
  unfold h, Sql.round_half_away in Hc. clear h.
  destruct (Qle_bool 0 (q * 100)) eqn:Hs.
  - assert (61 <= Qfloor (q * 100 + (1 # 2)))%Z as H61 by lia.
    apply Qfloor_ge in H61. unfold inject_Z in H61. clear - H61. lra.
  - assert (0 <= Qfloor (- (q * 100) + (1 # 2)))%Z; [|lia].
    apply Qfloor_ge. unfold inject_Z.
    assert (~ 0 <= q * 100) as Hneg.
    { intros Hle. apply Qle_bool_iff in Hle. congruence. }
    apply Qnot_le_lt in Hneg. clear - Hneg. lra.
Qed.

(** What a run of the database's insert leaves behind: the old rows, then
    at most one detection, then at most one alert and only with a
    detection. *)
Lemma db_after_extends (f : HelmetDetector.Frame) (v : Sql.Detection.values)
    (d : Sql.Database) :
  exists rows alerts,
    Sql.helmet_detections (Spec.db_after f v d) = Sql.helmet_detections d ++ rows /\
    Sql.safety_alerts (Spec.db_after f v d) = Sql.safety_alerts d ++ alerts /\
    (length alerts <= length rows <= 1)%nat.
Proof.
  unfold Spec.db_after.
  destruct (HelmetDetector.delivery f) as [g| |];
    try (exists [], []; rewrite !app_nil_r; simpl; repeat split; lia).
  destruct (Sql.insert_detection g v d) as [d'|err] eqn:E;
    [|exists [], []; rewrite !app_nil_r; simpl; repeat split; lia].
  destruct (insert_detection_effect g v d d' E)
    as [NEW [_ [_ [_ [_ [Hds [[_ Hal] | [_ [a [Hal _]]]]]]]]]].
  - exists [NEW], []. rewrite app_nil_r. simpl. repeat split; auto.
  - exists [NEW], [a]. simpl. repeat split; auto.
Qed.

Lemma insert_requests_toasts (ts : list HelmetDetector.Toast) :
  Detector.insert_requests (map HelmetDetector.toast ts) = [].
Proof. induction ts; simpl; auto. Qed.

Lemma notifications_toasts (ts : list HelmetDetector.Toast) :
  flat_map (fun e => match e with HelmetDetector.toast t => [t] | _ => [] end)
           (map HelmetDetector.toast ts) = ts.
Proof. induction ts; simpl; congruence. Qed.

(** X5.  No error escapes [analyzeFrame]: whatever the frame, the classifier and
    the network do, it returns normally.  It issues one insert request when
    the frame is ready and none otherwise (then it changes nothing at all);
    in the database it changes no stored row and adds at most one detection
    and, only with it, at most one alert. *)
Theorem analyzeFrame_always_returns (f : HelmetDetector.Frame)
    (s : HelmetDetector.State) :
  let out := fst (HelmetDetector.analyzeFrame f s) in
  let s' := snd (HelmetDetector.analyzeFrame f s) in
  out = Eff.Return tt /\
  (HelmetDetector.ready f = false -> s' = s) /\
  exists new rows alerts,
    HelmetDetector.events s' = HelmetDetector.events s ++ new /\
    length (Detector.insert_requests new) =
      (if HelmetDetector.ready f then 1 else 0)%nat /\
    Sql.helmet_detections (HelmetDetector.db s') =
      Sql.helmet_detections (HelmetDetector.db s) ++ rows /\
    Sql.safety_alerts (HelmetDetector.db s') =
      Sql.safety_alerts (HelmetDetector.db s) ++ alerts /\
    (length alerts <= length rows <= 1)%nat.
Proof.
  intros out s'. subst out s'.
  destruct (HelmetDetector.ready f) eqn:Hready.
  - destruct (HelmetDetector.classifier f) as [results|] eqn:Hc.
    + destruct (analyzeFrame_classified f s results Hready Hc) as [msg [-> Hmsg]].
      cbn -[Verdict.verdict Spec.db_after HelmetDetector.step].
      split; [reflexivity|]. split; [discriminate|].
      match goal with
      | |- context [Spec.db_after f ?v ?d] =>
        destruct (db_after_extends f v d) as [rows [alerts [Hr [Ha Hl]]]]
      end.
      eexists. exists rows, alerts.
      split; [reflexivity|]. split; [|now split].
      destruct Hmsg as [-> | ->];
        cbn [Detector.insert_requests flat_map app];
        fold (Detector.insert_requests (map HelmetDetector.toast
                (snd (HelmetDetector.step (HelmetDetector.accessGranted s)
                        (Detector.verdict_of
                           (Verdict.verdict results (HelmetDetector.date f)))))));
        rewrite insert_requests_toasts; reflexivity.
    + destruct (analyzeFrame_fallback f s Hready Hc) as [msg [-> Hmsg]].
      cbn -[HelmetDetector.mockResult Spec.db_after].
      split; [reflexivity|]. split; [discriminate|].
      match goal with
      | |- context [Spec.db_after f ?v ?d] =>
        destruct (db_after_extends f v d) as [rows [alerts [Hr [Ha Hl]]]]
      end.
      eexists. exists rows, alerts.
      split; [reflexivity|]. split; [|now split].
      destruct Hmsg as [-> | ->]; reflexivity.
  - rewrite (analyzeFrame_not_ready f s Hready). simpl.
    split; [reflexivity|]. split; [reflexivity|].
    exists [], [], []. rewrite !app_nil_r. simpl. repeat split; lia.
Qed.

(** X6.  A classified frame steps the access state machine with its verdict,
    whether or not the detection could be saved: afterwards access is
    granted exactly when the verdict has a helmet and a confidence above
    0.6, the toasts added are those of the step, and the verdict is the
    result on display. *)
Theorem classified_frame_steps_the_machine (f : HelmetDetector.Frame)
    (s : HelmetDetector.State) (results : list Verdict.RawObject) :
  HelmetDetector.ready f = true ->
  HelmetDetector.classifier f = Some results ->
  let s' := snd (HelmetDetector.analyzeFrame f s) in
  let result := Verdict.verdict results (HelmetDetector.date f) in
  HelmetDetector.detectionResult s' = Some result /\
  HelmetDetector.accessGranted s' = Access.positive (Detector.verdict_of result) /\
  HelmetDetector.notifications (HelmetDetector.events s') =
    HelmetDetector.notifications (HelmetDetector.events s) ++
    snd (HelmetDetector.step (HelmetDetector.accessGranted s)
           (Detector.verdict_of result)).
Proof.
  intros Hready Hc s' result. subst s'.
  destruct (analyzeFrame_classified f s results Hready Hc) as [msg [-> Hmsg]].
  fold result. cbn -[result Spec.db_after HelmetDetector.step].
  split; [reflexivity|]. split; [apply step_state|].
  unfold HelmetDetector.notifications. rewrite flat_map_app. f_equal.
  destruct Hmsg as [-> | ->]; cbn [flat_map app];
    apply notifications_toasts.
Qed.

(** ** Inserting detections *)

(** An insert is accepted when the confidence fits the column, the two
    generated ids are fresh and the location is not NULL. *)
Lemma insert_accepts (g : Sql.Fresh) (v : Sql.Detection.values)
    (d : Sql.Database) (c : Sql.numeric_3_2) (loc : string) :
  Sql.to_numeric_3_2 (Sql.Detection.v_confidence v) = inl c ->
  Sql.has_detection (Sql.detection_uuid g) d = false ->
  Sql.has_alert (Sql.alert_uuid g) d = false ->
  Sql.Detection.v_location v = Some loc ->
  exists d', Sql.insert_detection g v d = inl d'.
Proof.
  intros Hc Hd Ha Hloc. unfold Sql.insert_detection. rewrite Hc, Hd.
  unfold Sql.create_helmet_violation_alert.
  destruct (Sql.violation _); [|eexists; reflexivity].
  unfold Sql.insert_safety_alert, Sql.alert_message. simpl. rewrite Hloc.
  unfold Sql.has_alert in *. simpl. rewrite Ha.
  unfold Sql.has_detection. simpl. rewrite existsb_app. simpl.
  rewrite String.eqb_refl, orb_true_r. simpl. eexists. reflexivity.
Qed.

(** X9.  The three ways an insert of a detection fails: the confidence has more
    than one integer digit once rounded; a generated id is already taken;
    or the location is NULL on a detection without helmet, whose alert
    message would then be NULL.  The alert of the trigger always finds its
    detection: the insert never fails on the foreign key. *)
Theorem insert_detection_failures (g : Sql.Fresh) (v : Sql.Detection.values)
    (d : Sql.Database) (e : Sql.error) :
  Sql.insert_detection g v d = inr e ->
  e <> Sql.foreign_key_violation /\
  ((e = Sql.numeric_value_out_of_range /\
    (1000 <= Z.abs (Sql.round_half_away (Sql.Detection.v_confidence v * 100)))%Z) \/
   (e = Sql.unique_violation /\
    (Sql.has_detection (Sql.detection_uuid g) d = true \/
     Sql.has_alert (Sql.alert_uuid g) d = true)) \/
   (e = Sql.not_null_violation /\
    Sql.Detection.v_location v = None /\
    Sql.Detection.v_has_helmet v = false)).
Proof.
  unfold Sql.insert_detection, Sql.to_numeric_3_2.
  destruct (Z.ltb_spec (Z.abs (Sql.round_half_away
                                 (Sql.Detection.v_confidence v * 100))) 1000)
    as [Hfit|Hover].
  2: { intros H. injection H as <-. split; [discriminate|]. left. now split. }
  destruct (Sql.has_detection _ d) eqn:Hd.
  { intros H. injection H as <-. split; [discriminate|]. right. left. auto. }
  unfold Sql.create_helmet_violation_alert, Sql.violation. simpl.
  destruct (Sql.Detection.v_has_helmet v) eqn:Hh; simpl; [discriminate|].
  destruct (60 <? _)%Z; [|discriminate].
  unfold Sql.insert_safety_alert, Sql.alert_message. simpl.
  destruct (Sql.Detection.v_location v) as [loc|] eqn:Hloc.
  - unfold Sql.has_alert at 1. simpl.
    destruct (existsb _ (Sql.safety_alerts d)) eqn:Ha.
    + intros H. injection H as <-. split; [discriminate|]. right. left. auto.
    + unfold Sql.has_detection. simpl. rewrite existsb_app. simpl.
      rewrite String.eqb_refl, orb_true_r. discriminate.
  - intros H. injection H as <-. split; [discriminate|]. right. right. auto.
Qed.

(** X10.  In every database the code produces, the ids of the detections are
    pairwise distinct, so are those of the alerts, and every alert
    references a stored detection. *)
Theorem reachable_ids_are_unique (d : Sql.Database) :
  Sql.reachable d ->
  NoDup (map Sql.Detection.id (Sql.helmet_detections d)) /\
  NoDup (map Sql.Alert.id (Sql.safety_alerts d)) /\
  (forall a, In a (Sql.safety_alerts d) ->
     exists r, In r (Sql.helmet_detections d) /\
               Sql.Alert.detection_id a = Some (Sql.Detection.id r)).
Proof.
  intros Hd. split; [|split].
  - induction Hd as [|g v d d' _ IH Hins|t i d _ IH|t i d _ IH];
      try exact IH; [constructor|].
    destruct (insert_detection_effect g v d d' Hins)
      as [NEW [Hid [_ [_ [Hfresh [-> _]]]]]].
    rewrite map_app. simpl. rewrite Hid.
    apply NoDup_app; [exact IH | repeat constructor; intros [] |].
    intros x Hx [<- | []]. apply in_map_iff in Hx. destruct Hx as [r [E Hr]].
    assert (Sql.has_detection (Sql.detection_uuid g) d = true); [|congruence].
    apply has_detection_spec. now exists r.
  - induction Hd as [|g v d d' _ IH Hins|t i d _ IH|t i d _ IH].
    + constructor.
    + revert Hins. unfold Sql.insert_detection.
      destruct (Sql.to_numeric_3_2 _); [|discriminate].
      destruct (Sql.has_detection _ d); [discriminate|].
      unfold Sql.create_helmet_violation_alert.
      destruct (Sql.violation _); [|intros H; injection H as <-; exact IH].
      unfold Sql.insert_safety_alert.
      destruct (Sql.alert_message _); [|discriminate].
      unfold Sql.has_alert at 1. simpl.
      destruct (existsb _ (Sql.safety_alerts d)) eqn:Ha; [discriminate|].
      destruct (negb _); [discriminate|].
      intros H. injection H as <-. simpl. rewrite map_app. simpl.
      apply NoDup_app; [exact IH | repeat constructor; intros [] |].
      intros x Hx [<- | []]. apply in_map_iff in Hx. destruct Hx as [a [E Hin]].
      assert (existsb (fun r => String.eqb (Sql.Alert.id r) (Sql.alert_uuid g))
                (Sql.safety_alerts d) = true); [|congruence].
      apply existsb_exists. exists a. split; [exact Hin|]. now apply String.eqb_eq.
    + simpl. rewrite map_map.
      erewrite map_ext; [exact IH|].
      intros a. simpl. now destruct (String.eqb _ i).
    + simpl. rewrite map_map.
      erewrite map_ext; [exact IH|].
      intros a. simpl. now destruct (String.eqb _ i).
  - destruct (reachable_match d Hd) as [Href _].
    intros a Ha. destruct (Href a Ha) as [k [Hk Hin]].
    apply has_detection_spec in Hin. destruct Hin as [r [Hr <-]]. now exists r.
Qed.

(** ** Histories *)

Lemma keeps_refl (a : Sql.Alert.row) : History.keeps a a.
Proof. unfold History.keeps. tauto. Qed.

(** The two updates of the repository keep what [keeps] names. *)
Lemma keeps_update (t : Sql.timestamptz) (i : Sql.uuid)
    (set : Sql.Alert.row -> Sql.Alert.row) (old k : Sql.Alert.row) :
  set = Sql.Alert.set_acknowledged true \/ set = Sql.Alert.set_email_sent true ->
  History.keeps old k ->
  History.keeps old
    (if String.eqb (Sql.Alert.id k) i
     then Sql.update_updated_at_column t (set k) else k).
Proof.
  intros Hset Hk. destruct (String.eqb _ i); [|exact Hk].
  unfold History.keeps in *.
  destruct Hset as [-> | ->]; simpl; intuition.
Qed.

Lemma Forall2_keeps_map (f : Sql.Alert.row -> Sql.Alert.row)
    (olds ks : list Sql.Alert.row) :
  (forall old k, History.keeps old k -> History.keeps old (f k)) ->
  Forall2 History.keeps olds ks -> Forall2 History.keeps olds (map f ks).
Proof. intros Hf H. induction H; simpl; constructor; auto. Qed.

(** X11.  Whatever the repository does to a database afterwards, the detections
    stored in it stay as they are, in place, and so does every alert but for
    its two flags, which once true stay true, and its updated_at; new rows
    come after the old ones. *)
Theorem history_only_grows (d d' : Sql.Database) :
  History.evolves d d' ->
  exists rows kept added,
    Sql.helmet_detections d' = Sql.helmet_detections d ++ rows /\
    Sql.safety_alerts d' = kept ++ added /\
    Forall2 History.keeps (Sql.safety_alerts d) kept.
Proof.
  induction 1 as [d|g v d d1 d2 _ IH Hins|t i d d1 _ IH|t i d d1 _ IH].
  - exists [], (Sql.safety_alerts d), []. rewrite !app_nil_r.
    repeat split. induction (Sql.safety_alerts d); constructor; auto.
    apply keeps_refl.
  - destruct IH as [rows [kept [added [Hr [Ha Hk]]]]].
    destruct (insert_detection_effect g v d1 d2 Hins)
      as [NEW [_ [_ [_ [_ [Hds [[_ Hal] | [_ [a [Hal _]]]]]]]]]].
    + exists (rows ++ [NEW]), kept, added.
      rewrite Hds, Hr, Hal, Ha, app_assoc. auto.
    + exists (rows ++ [NEW]), kept, (added ++ [a]).
      rewrite Hds, Hr, Hal, Ha, !app_assoc. auto.
  - destruct IH as [rows [kept [added [Hr [Ha Hk]]]]].
    eexists rows, _, _. simpl. rewrite Ha, map_app.
    split; [exact Hr|]. split; [reflexivity|].
    apply Forall2_keeps_map; [|exact Hk].
    intros old k. apply keeps_update. auto.
  - destruct IH as [rows [kept [added [Hr [Ha Hk]]]]].
    eexists rows, _, _. simpl. rewrite Ha, map_app.
    split; [exact Hr|]. split; [reflexivity|].
    apply Forall2_keeps_map; [|exact Hk].
    intros old k. apply keeps_update. auto.
Qed.

(** ** Frames, detections and alerts *)

(** A verdict's confidence lies in [0, 1] when the classifier's scores do. *)
Lemma verdict_confidence_unit (results : list Verdict.RawObject) (now : Z) :
  (forall o, In o results -> 0 <= Verdict.score o /\ Verdict.score o <= 1) ->
  0 <= Verdict.dr_confidence (Verdict.verdict results now) /\
  Verdict.dr_confidence (Verdict.verdict results now) <= 1.
Proof.
  intros Hs.
  destruct (verdict_shapes results now) as [[_ [[[h [Hin [_ ->]]] _] _]] | [_ [-> | ->]]];
    [now apply Hs | split; lra | split; lra].
Qed.

(** X7.  A classified frame raises an alert only if the classifier saw no person
    at all, and a helmet-labelled object with a score of at least 0.605: a
    person without helmet, whose verdict has confidence 0.3, never does.
    Access is then denied. *)
Theorem alert_means_no_person (f : HelmetDetector.Frame)
    (s : HelmetDetector.State) (results : list Verdict.RawObject) :
  HelmetDetector.ready f = true ->
  HelmetDetector.classifier f = Some results ->
  let s' := snd (HelmetDetector.analyzeFrame f s) in
  Sql.safety_alerts (HelmetDetector.db s') <>
    Sql.safety_alerts (HelmetDetector.db s) ->
  ~ (exists o, In o results /\ Spec.IsPerson o) /\
  (exists o, In o results /\ Spec.IsHelmet o /\ 605 # 1000 <= Verdict.score o) /\
  HelmetDetector.accessGranted s' = false.
Proof.
  intros Hready Hc s' Hnew. subst s'.
  destruct (analyzeFrame_classified f s results Hready Hc) as [msg [E _]].
  rewrite E in *. clear E.
  cbn -[Verdict.verdict Spec.db_after HelmetDetector.step] in *.
  set (r := Verdict.verdict results (HelmetDetector.date f)) in *.
  assert (Verdict.hasHelmet r = false /\
          exists c, Sql.to_numeric_3_2 (Verdict.dr_confidence r) = inl c /\
                    (60 < c)%Z) as [Hh [c [Hc' Hgt]]].
  { unfold Spec.db_after in Hnew.
    destruct (HelmetDetector.delivery f) as [g| |]; try congruence.
    destruct (Sql.insert_detection g _ _) as [d'|err] eqn:Hins; [|congruence].
    destruct (insert_detection_effect _ _ _ _ Hins)
      as [NEW [_ [Hhas [Hnum [_ [_ [[_ Hal] | [Hv _]]]]]]]]; [congruence|].
    unfold Sql.violation in Hv. apply andb_true_iff in Hv. destruct Hv as [Hv1 Hv2].
    simpl in Hhas, Hnum. rewrite Hhas in Hv1. apply negb_true_iff in Hv1.
    split; [exact Hv1|]. exists (Sql.Detection.confidence NEW).
    split; [exact Hnum | now apply Z.ltb_lt]. }
  pose proof (stored_above_threshold _ _ Hc' Hgt) as Hq.
  split; [|split].
  - destruct (verdict_shapes results (HelmetDetector.date f))
      as [[_ [_ Hp]] | [_ [E | E]]]; fold r in Hp || fold r in E.
    + intros Hperson. apply Hp in Hperson. congruence.
    + rewrite E in Hq. lra.
    + rewrite E in Hq. lra.
  - destruct (verdict_shapes results (HelmetDetector.date f))
      as [[_ [[[h [Hin [Hih Hsc]]] _] _]] | [_ [E | E]]];
      fold r in Hsc || fold r in E.
    + exists h. rewrite <- Hsc. auto.
    + rewrite E in Hq. lra.
    + rewrite E in Hq. lra.
  - rewrite step_state. unfold Access.positive, Detector.verdict_of.
    cbn [fst snd]. now rewrite Hh.
Qed.

(** [saveDetection] when its insert is delivered and accepted. *)
Lemma saveDetection_stored (f : HelmetDetector.Frame)
    (result : Verdict.DetectionResult) (image : option string)
    (s : HelmetDetector.State) (g : Sql.Fresh) (d' : Sql.Database) :
  HelmetDetector.delivery f = HelmetDetector.Delivered g ->
  Sql.insert_detection g (Detector.values_of result image) (HelmetDetector.db s)
    = inl d' ->
  HelmetDetector.saveDetection f result image s =
    (Eff.Return tt,
     {| HelmetDetector.accessGranted := HelmetDetector.accessGranted s;
        HelmetDetector.detectionResult := HelmetDetector.detectionResult s;
        HelmetDetector.db := d';
        HelmetDetector.events :=
          HelmetDetector.events s ++
          [HelmetDetector.supabase_insert (Detector.values_of result image);
           HelmetDetector.console_log "Detection saved to database"] |}).
Proof.
  intros Hg Hins.
  unfold HelmetDetector.saveDetection, HelmetDetector.insert,
    HelmetDetector.emit, HelmetDetector.set_db.
  rewrite copy_boxes. fold (Detector.values_of result image).
  run_eff. rewrite Hg. cbn -[Sql.insert_detection Detector.values_of].
  rewrite Hins. cbn -[Detector.values_of]. now rewrite <- app_assoc.
Qed.

(** X8.  A classified frame whose scores lie in [0, 1] is stored whenever its
    insert is delivered under fresh ids: the row carries the verdict, the
    image and the camera's location. *)
Theorem classified_frame_is_stored (f : HelmetDetector.Frame)
    (s : HelmetDetector.State) (results : list Verdict.RawObject)
    (g : Sql.Fresh) :
  HelmetDetector.ready f = true ->
  HelmetDetector.classifier f = Some results ->
  (forall o, In o results -> 0 <= Verdict.score o /\ Verdict.score o <= 1) ->
  HelmetDetector.delivery f = HelmetDetector.Delivered g ->
  Sql.has_detection (Sql.detection_uuid g) (HelmetDetector.db s) = false ->
  Sql.has_alert (Sql.alert_uuid g) (HelmetDetector.db s) = false ->
  let s' := snd (HelmetDetector.analyzeFrame f s) in
  let r := Verdict.verdict results (HelmetDetector.date f) in
  exists row rest,
    Sql.helmet_detections (HelmetDetector.db s') =
      Sql.helmet_detections (HelmetDetector.db s) ++ [row] /\
    HelmetDetector.events s' =
      HelmetDetector.events s ++
      HelmetDetector.supabase_insert
        (Detector.values_of r (Some (HelmetDetector.imageData f))) ::
      HelmetDetector.console_log "Detection saved to database" :: rest /\
    Sql.Detection.id row = Sql.detection_uuid g /\
    Sql.Detection.has_helmet row = Verdict.hasHelmet r /\
    Sql.to_numeric_3_2 (Verdict.dr_confidence r) =
      inl (Sql.Detection.confidence row) /\
    (0 <= Sql.Detection.confidence row <= 100)%Z.
Proof.
  intros Hready Hc Hscores Hg Hd Ha s' r. subst s'.
  destruct (verdict_confidence_unit results (HelmetDetector.date f) Hscores)
    as [H0 H1]. fold r in H0, H1.
  destruct (stored_confidence (Verdict.dr_confidence r) 0 100) as [c [Hnum Hrange]];
    [unfold inject_Z; lra | unfold inject_Z; lra | lia | lia |].
  destruct (insert_accepts g
              (Detector.values_of r (Some (HelmetDetector.imageData f)))
              (HelmetDetector.db s) c "Mine Site - Camera 1" Hnum Hd Ha eq_refl)
    as [d' Hins].
  destruct (insert_detection_effect _ _ _ _ Hins)
    as [NEW [Hid [Hhas [Hnum' [_ [Hds _]]]]]].
  unfold HelmetDetector.analyzeFrame, HelmetDetector.detector.
  rewrite Hready, Hc. fold r.
  unfold HelmetDetector.setDetectionResult. run_eff.
  cbn -[r HelmetDetector.saveDetection HelmetDetector.updateAccess
        HelmetDetector.step].
  match goal with
  | |- context [HelmetDetector.saveDetection f ?r0 ?i ?st0] =>
    rewrite (saveDetection_stored f r0 i st0 g d' Hg Hins)
  end.
  cbn -[r HelmetDetector.updateAccess HelmetDetector.step Detector.values_of].
  match goal with
  | |- context [HelmetDetector.updateAccess ?g0 ?h ?c0 ?st0] =>
    pose proof (updateAccess_run h c0 st0) as Hup
  end.
  cbn -[r HelmetDetector.updateAccess Detector.values_of HelmetDetector.step] in Hup.
  rewrite Hup. cbn -[r HelmetDetector.step Detector.values_of].
  exists NEW. eexists. split; [exact Hds|].
  split; [rewrite <- !app_assoc; reflexivity|].
  split; [exact Hid|]. split; [exact Hhas|]. split; [exact Hnum'|].
  cbn [Detector.values_of Sql.Detection.v_confidence] in Hnum'.
  rewrite Hnum in Hnum'. injection Hnum' as <-. exact Hrange.
Qed.

(** ** The overlay *)

(** For a confidence that is not negative, what the database stores is what
    [Math.round] displays. *)
Lemma stored_is_rounded (q : Q) (c : Sql.numeric_3_2) :
  0 <= q -> Sql.to_numeric_3_2 q = inl c ->
  c = DetectionOverlay.Math_round (q * 100).
Proof.
  intros Hq. unfold Sql.to_numeric_3_2.
  set (h := Sql.round_half_away (q * 100)).
  destruct (Z.abs h <? 1000)%Z; [|discriminate].
  intros H. assert (c = h) as -> by congruence.
  unfold h, Sql.round_half_away, DetectionOverlay.Math_round.
  assert (0 <= q * 100) as Hq' by (clear - Hq; lra).
  apply Qle_bool_iff in Hq'. now rewrite Hq'.
Qed.


(** X12.  The alert threshold that is in force is 0.605, not 0.6: a stored
    detection satisfies the trigger's predicate exactly when it has no
    helmet and its confidence is at least 0.605.  So whenever an alert is
    raised the overlay announces it, and the overlay announces an alert
    that was never raised exactly for confidences between 0.6 and 0.605. *)
Theorem alert_threshold_in_force (r : Verdict.DetectionResult) (w h : Q)
    (NEW : Sql.Detection.row) :
  0 <= Verdict.dr_confidence r ->
  Sql.Detection.has_helmet NEW = Verdict.hasHelmet r ->
  Sql.to_numeric_3_2 (Verdict.dr_confidence r) = inl (Sql.Detection.confidence NEW) ->
  let banner := DetectionOverlay.alertSentBanner (DetectionOverlay.props r w h) in
  (Sql.violation NEW = true <->
     Verdict.hasHelmet r = false /\ 605 # 1000 <= Verdict.dr_confidence r) /\
  (Sql.violation NEW = true -> banner = true) /\
  (banner = true /\ Sql.violation NEW = false <->
     Verdict.hasHelmet r = false /\
     6 # 10 < Verdict.dr_confidence r /\ Verdict.dr_confidence r < 605 # 1000).
Proof.
  intros Hq Hh Hnum banner. subst banner.
  unfold DetectionOverlay.alertSentBanner, DetectionOverlay.props, Sql.violation.
  simpl. rewrite Hh.
  assert ((60 <? Sql.Detection.confidence NEW)%Z = true <->
          605 # 1000 <= Verdict.dr_confidence r) as Hthr.
  { rewrite Z.ltb_lt. split.
    - apply stored_above_threshold. exact Hnum.
    - intros Hge. rewrite (stored_is_rounded _ _ Hq Hnum).
      unfold DetectionOverlay.Math_round.
      assert (61 <= Qfloor (Verdict.dr_confidence r * 100 + (1 # 2)))%Z; [|lia].
      apply Qfloor_ge. unfold inject_Z. clear - Hge. lra. }
  revert Hthr. generalize (Verdict.dr_confidence r). intros q Hthr.
  pose proof (gt_spec q (6 # 10)) as Hgt.
  destruct (Verdict.hasHelmet r); simpl.
  - clear. intuition congruence.
  - destruct (60 <? Sql.Detection.confidence NEW)%Z eqn:E.
    + assert (605 # 1000 <= q) as Hge by now apply Hthr.
      assert (Js.gt q (6 # 10) = true) as -> by (apply Hgt; clear - Hge; lra).
      split; [tauto|]. split; [auto|].
      split; [intros [_ ?]; discriminate|]. intros [_ [_ Hlt]]. clear - Hge Hlt. lra.
    + assert (~ 605 # 1000 <= q) as Hlt.
      { intros Hge. apply Hthr in Hge. discriminate. }
      apply Qnot_le_lt in Hlt.
      split; [split; [discriminate | tauto]|]. split; [discriminate|].
      split.
      * intros [Hb _]. apply Hgt in Hb. auto.
      * intros [_ [Hb _]]. apply Hgt in Hb. auto.
Qed.


(** ** The edge function, continued *)

(** Refutes [delivers] from a fact of the branch at hand. *)
Ltac not_delivered :=
  let o' := fresh "o" in let k' := fresh "k" in
  let s' := fresh "s" in let r' := fresh "r" in
  intros o' k' s' r' [_ [? [? [? [? [? ?]]]]]]; congruence.

(** The three ways [handler] runs: a preflight request; a delivered mail;
    any other request, which fails before the flag is touched. *)
Lemma handler_cases (e : SendSafetyAlert.Env) (req : SendSafetyAlert.Request)
    (s : SendSafetyAlert.State) :
  (SendSafetyAlert.method req = "OPTIONS" /\
   SendSafetyAlert.handler e req s =
     (Eff.Return {| SendSafetyAlert.status := 200;
                    SendSafetyAlert.body := SendSafetyAlert.no_body |}, s)) \/
  (exists o key sev result,
     Dispatch.delivers e req o key sev result /\
     SendSafetyAlert.handler e req s =
       (Eff.Return
          {| SendSafetyAlert.status := 200;
             SendSafetyAlert.body :=
               SendSafetyAlert.success_body (Js.prop result "id")
                 "Safety alert email sent successfully" |},
        {| SendSafetyAlert.db :=
             match Dispatch.flag_update e o with
             | Some (t, i) =>
               Sql.update_safety_alert t (Sql.Alert.set_email_sent true) i
                 (SendSafetyAlert.db s)
             | None => SendSafetyAlert.db s
             end;
           SendSafetyAlert.events :=
             SendSafetyAlert.events s ++
             [SendSafetyAlert.fetch_resend key (Dispatch.mail_of o sev);
              SendSafetyAlert.console_log "Email sent successfully:";
              SendSafetyAlert.supabase_update_email_sent (Js.prop o "alertId")] ++
             match Dispatch.flag_update e o with
             | Some _ => []
             | None => [SendSafetyAlert.console_error "Error updating alert status:"]
             end |})) \/
  (SendSafetyAlert.method req <> "OPTIONS" /\
   (forall o key sev result, ~ Dispatch.delivers e req o key sev result) /\
   exists msg new,
     SendSafetyAlert.handler e req s =
       (Eff.Return {| SendSafetyAlert.status := 500;
                      SendSafetyAlert.body := SendSafetyAlert.error_body msg |},
        {| SendSafetyAlert.db := SendSafetyAlert.db s;
           SendSafetyAlert.events := SendSafetyAlert.events s ++ new |}) /\
     SendSafetyAlert.update_requests new = [] /\
     (SendSafetyAlert.transport_calls new = [] \/
      exists o sev,
        SendSafetyAlert.json req = Some o /\
        Js.prop o "severity" = Js.str sev /\
        SendSafetyAlert.transport_calls new = [Dispatch.mail_of o sev])).
Proof.
  unfold SendSafetyAlert.handler.
  destruct (String.eqb_spec (SendSafetyAlert.method req) "OPTIONS") as [Hm|Hm].
  { left. split; [exact Hm | reflexivity]. }
  right.
  unfold SendSafetyAlert.req_json, SendSafetyAlert.createClient,
    SendSafetyAlert.toUpperCase, SendSafetyAlert.fetch,
    SendSafetyAlert.response_json, SendSafetyAlert.update_email_sent,
    SendSafetyAlert.emit, SendSafetyAlert.set_db.
  run_eff.
  destruct (SendSafetyAlert.json req) as [o|] eqn:Ej; cbn;
    [|right; split; [exact Hm|]; split; [not_delivered|];
      do 2 eexists; repeat split; auto].
  destruct (SendSafetyAlert.SUPABASE_SERVICE_ROLE_KEY e) as [sk|] eqn:Esk; cbn;
    [|right; split; [exact Hm|]; split; [not_delivered|];
      do 2 eexists; repeat split; auto].
  destruct (SendSafetyAlert.RESEND_API_KEY e) as [key|] eqn:Erk; cbn;
    [|right; split; [exact Hm|]; split; [not_delivered|];
      do 2 eexists; repeat split; auto].
  destruct (Js.prop o "severity") as [|sev] eqn:Esev; cbn;
    [right; split; [exact Hm|]; split; [not_delivered|];
     do 2 eexists; repeat split; auto|].
  destruct (SendSafetyAlert.resend e) as [|ok text result] eqn:Er; cbn.
  { right. split; [exact Hm|]. split; [not_delivered|].
    rewrite <- ?app_assoc. do 2 eexists.
    split; [reflexivity|]. split; [reflexivity|]. right.
    exists o, sev. unfold Dispatch.mail_of, SendSafetyAlert.destructure.
    rewrite Esev. repeat split. }
  destruct ok; cbn.
  2: { right. split; [exact Hm|]. split; [not_delivered|].
       rewrite <- ?app_assoc. do 2 eexists.
       split; [reflexivity|]. split; [reflexivity|]. right.
       exists o, sev. unfold Dispatch.mail_of, SendSafetyAlert.destructure.
       rewrite Esev. repeat split. }
  destruct result as [r|]; cbn.
  2: { right. split; [exact Hm|]. split; [not_delivered|].
       rewrite <- ?app_assoc. do 2 eexists.
       split; [reflexivity|]. split; [reflexivity|]. right.
       exists o, sev. unfold Dispatch.mail_of, SendSafetyAlert.destructure.
       rewrite Esev. repeat split. }
  left. exists o, key, sev, r. split.
  { unfold Dispatch.delivers. rewrite Esk. repeat split; auto; try discriminate.
    now exists text. }
  unfold Dispatch.flag_update, Dispatch.mail_of, SendSafetyAlert.destructure.
  rewrite Esev.
  destruct (SendSafetyAlert.update_at e) as [t|];
    destruct (Js.prop o "alertId") as [|i]; cbn;
    rewrite <- ?app_assoc; reflexivity.
Qed.

(** X15.  The function answers with success exactly when the request is well
    formed, both keys are configured and the mail service accepts the mail;
    whether the flag could then be updated plays no part. *)
Theorem success_is_answered_exactly_when (e : SendSafetyAlert.Env)
    (req : SendSafetyAlert.Request) (s : SendSafetyAlert.State) :
  (exists emailId msg,
     fst (SendSafetyAlert.handler e req s) =
     Eff.Return {| SendSafetyAlert.status := 200;
                   SendSafetyAlert.body :=
                     SendSafetyAlert.success_body emailId msg |}) <->
  (exists o key sev result, Dispatch.delivers e req o key sev result).
Proof.
  destruct (handler_cases e req s)
    as [[Hm ->] | [[o [key [sev [result [Hd ->]]]]] | [Hm [Hno [msg [new [-> _]]]]]]];
    simpl.
  - split; [intros [i [m H]]; discriminate|].
    intros [o [key [sev [result [Hno _]]]]]. contradiction.
  - split; [intros _; now exists o, key, sev, result | intros _; eauto].
  - split; [intros [i [m H]]; discriminate|].
    intros [o [key [sev [result Hd]]]]. exfalso. exact (Hno _ _ _ _ Hd).
Qed.


(** X17.  Whatever the request, the function changes nothing in the database but
    the email_sent flag and the updated_at of the alerts whose id the
    request names: the detections, the other alerts and every other field,
    acknowledged included, stay as they were; the flag is only ever set. *)
Theorem handler_touches_one_flag (e : SendSafetyAlert.Env)
    (req : SendSafetyAlert.Request) (s : SendSafetyAlert.State) :
  let s' := snd (SendSafetyAlert.handler e req s) in
  Sql.helmet_detections (SendSafetyAlert.db s') =
    Sql.helmet_detections (SendSafetyAlert.db s) /\
  Forall2
    (fun old new =>
       History.keeps old new /\
       Sql.Alert.acknowledged new = Sql.Alert.acknowledged old /\
       (new <> old ->
          Sql.Alert.email_sent new = true /\
          exists o, SendSafetyAlert.json req = Some o /\
                    Js.prop o "alertId" = Js.str (Sql.Alert.id old)))
    (Sql.safety_alerts (SendSafetyAlert.db s))
    (Sql.safety_alerts (SendSafetyAlert.db s')).
Proof.
  intros s'. subst s'.
  assert (Hsame : forall l : list Sql.Alert.row,
            Forall2
              (fun old new =>
                 History.keeps old new /\
                 Sql.Alert.acknowledged new = Sql.Alert.acknowledged old /\
                 (new <> old ->
                    Sql.Alert.email_sent new = true /\
                    exists o, SendSafetyAlert.json req = Some o /\
                              Js.prop o "alertId" = Js.str (Sql.Alert.id old)))
              l l).
  { induction l; constructor; auto.
    split; [apply keeps_refl|]. split; [reflexivity|]. congruence. }
  destruct (handler_cases e req s)
    as [[_ ->] | [[o [key [sev [result [Hd ->]]]]] | [_ [_ [msg [new [-> _]]]]]]];
    simpl; try (split; [reflexivity | apply Hsame]).
  unfold Dispatch.flag_update.
  destruct (SendSafetyAlert.update_at e) as [t|];
    destruct (Js.prop o "alertId") as [|i] eqn:Ei; simpl;
    try (split; [reflexivity | apply Hsame]).
  split; [reflexivity|].
  apply Forall2_map_self. intros a.
  destruct (String.eqb_spec (Sql.Alert.id a) i) as [E|E].
  - split; [unfold History.keeps; simpl; tauto|]. split; [reflexivity|].
    intros _. split; [reflexivity|]. exists o.
    destruct Hd as [_ [Hj _]]. split; [exact Hj | congruence].
  - split; [apply keeps_refl|]. split; [reflexivity|]. congruence.
Qed.

(** ** The alerts panel, continued *)

(** For a request sent by the panel, the mail gets through exactly when the
    environment accepts. *)
Lemma panel_request_delivers (e : SendSafetyAlert.Env)
    (alert : RealtimeAlerts.SafetyAlert) :
  (exists o key sev result,
     Dispatch.delivers e (Panel.request alert) o key sev result) <->
  Panel.accepts e.
Proof.
  unfold Dispatch.delivers, Panel.accepts, Panel.request. simpl. split.
  - intros [o [key [sev [result [_ [_ [Hsk [Hrk [_ [text Hr]]]]]]]]]].
    split; [exact Hsk|]. split; [now exists key | now exists text, result].
  - intros [Hsk [[key Hrk] [text [result Hr]]]].
    exists (RealtimeAlerts.payload alert), key, (RealtimeAlerts.severity alert),
      result.
    repeat split; auto; try discriminate. now exists text.
Qed.

(** [sendEmailAlert] when the function is reached. *)
Lemma sendEmailAlert_online (e : SendSafetyAlert.Env)
    (alert : RealtimeAlerts.SafetyAlert) (s : RealtimeAlerts.State) :
  let r := SendSafetyAlert.handler e (Panel.request alert) (RealtimeAlerts.server s) in
  RealtimeAlerts.sendEmailAlert (RealtimeAlerts.Runs e) alert s =
    (Eff.Return tt,
     {| RealtimeAlerts.alerts := RealtimeAlerts.alerts s;
        RealtimeAlerts.unreadCount := RealtimeAlerts.unreadCount s;
        RealtimeAlerts.server := snd r;
        RealtimeAlerts.events :=
          RealtimeAlerts.events s ++
          RealtimeAlerts.functions_invoke "send-safety-alert"
            (RealtimeAlerts.payload alert) ::
          match fst r with
          | Eff.Return {| SendSafetyAlert.status := 200 |} =>
            [RealtimeAlerts.console_log "Email alert sent successfully"]
          | _ =>
            [RealtimeAlerts.console_error "Error sending email alert:";
             RealtimeAlerts.toast RealtimeAlerts.EmailAlertFailed]
          end |}).
Proof.
  intros r. subst r.
  unfold RealtimeAlerts.sendEmailAlert, RealtimeAlerts.invoke,
    RealtimeAlerts.emit, RealtimeAlerts.set_server.
  run_eff. cbn -[SendSafetyAlert.handler RealtimeAlerts.payload].
  fold (Panel.request alert).
  destruct (handler_cases e (Panel.request alert) (RealtimeAlerts.server s))
    as [[Hm _] | [[o [key [sev [result [_ ->]]]]] | [_ [_ [msg [new [-> _]]]]]]].
  - discriminate.
  - cbn -[RealtimeAlerts.payload]. now rewrite <- !app_assoc.
  - cbn -[RealtimeAlerts.payload]. now rewrite <- !app_assoc.
Qed.

(** X18.  [sendEmailAlert] never throws and leaves the list and the unread count
    alone.  It shows the toast "Email Alert Failed" exactly when the
    function cannot be reached or does not get the mail through; when the
    invocation itself throws, the failure is logged but no toast is shown. *)
Theorem sendEmailAlert_reports_failures (net : RealtimeAlerts.Invocation)
    (alert : RealtimeAlerts.SafetyAlert) (s : RealtimeAlerts.State) :
  let out := fst (RealtimeAlerts.sendEmailAlert net alert s) in
  let s' := snd (RealtimeAlerts.sendEmailAlert net alert s) in
  out = Eff.Return tt /\
  RealtimeAlerts.alerts s' = RealtimeAlerts.alerts s /\
  RealtimeAlerts.unreadCount s' = RealtimeAlerts.unreadCount s /\
  exists new,
    RealtimeAlerts.events s' = RealtimeAlerts.events s ++ new /\
    (Panel.toasts new = [RealtimeAlerts.EmailAlertFailed] \/
     Panel.toasts new = []) /\
    (Panel.toasts new = [RealtimeAlerts.EmailAlertFailed] <->
       net = RealtimeAlerts.Offline \/
       exists e, net = RealtimeAlerts.Runs e /\ ~ Panel.accepts e).
Proof.
  intros out s'. subst out s'. destruct net as [e| |].
  - rewrite sendEmailAlert_online. cbn -[SendSafetyAlert.handler RealtimeAlerts.payload].
    split; [reflexivity|]. split; [reflexivity|]. split; [reflexivity|].
    eexists. split; [reflexivity|].
    pose proof (panel_request_delivers e alert) as Hacc.
    destruct (handler_cases e (Panel.request alert) (RealtimeAlerts.server s))
      as [[Hm _] | [[o [key [sev [result [Hd ->]]]]] | [_ [Hno [msg [new [-> _]]]]]]].
    + discriminate.
    + cbn -[RealtimeAlerts.payload]. split; [now right|].
      split; [discriminate|].
      intros [H | [e' [E Hn]]]; [discriminate|]. injection E as <-.
      exfalso. apply Hn, Hacc. eauto.
    + cbn -[RealtimeAlerts.payload]. split; [now left|].
      split; [|reflexivity]. intros _. right. exists e. split; [reflexivity|].
      intros Ha. apply Hacc in Ha. destruct Ha as [o [k [sv [r Hd]]]].
      exact (Hno _ _ _ _ Hd).
  - unfold RealtimeAlerts.sendEmailAlert, RealtimeAlerts.invoke, RealtimeAlerts.emit.
    run_eff. cbn -[RealtimeAlerts.payload]. rewrite <- !app_assoc.
    split; [reflexivity|]. split; [reflexivity|]. split; [reflexivity|].
    eexists. split; [reflexivity|]. cbn -[RealtimeAlerts.payload].
    split; [now left|]. split; [now left | reflexivity].
  - unfold RealtimeAlerts.sendEmailAlert, RealtimeAlerts.invoke, RealtimeAlerts.emit.
    run_eff. cbn -[RealtimeAlerts.payload]. rewrite <- !app_assoc.
    split; [reflexivity|]. split; [reflexivity|]. split; [reflexivity|].
    eexists. split; [reflexivity|]. cbn -[RealtimeAlerts.payload].
    split; [now right|]. split; [discriminate|].
    intros [H | [e [H _]]]; discriminate.
Qed.

(** X19.  Each action of the panel returns normally, and over any sequence of
    deliveries and acknowledgements the panel never lists more than ten
    alerts and its unread count never goes below zero. *)
Theorem panel_stays_within_bounds (acts : list Panel.Action)
    (s : RealtimeAlerts.State) :
  (length (RealtimeAlerts.alerts s) <= 10)%nat ->
  (0 <= RealtimeAlerts.unreadCount s)%Z ->
  (forall a s0, fst (Panel.perform a s0) = Eff.Return tt) /\
  (length (RealtimeAlerts.alerts (Panel.run acts s)) <= 10)%nat /\
  (0 <= RealtimeAlerts.unreadCount (Panel.run acts s))%Z.
Proof.
  intros Hlen Hcount. split.
  - intros [net alert | at_ i] s0; simpl.
    + unfold RealtimeAlerts.onInsert, RealtimeAlerts.emit,
        RealtimeAlerts.setAlerts, RealtimeAlerts.setUnreadCount.
      run_eff. cbn -[RealtimeAlerts.sendEmailAlert String.eqb].
      destruct (String.eqb _ _ && negb _); [|reflexivity].
      match goal with
      | |- context [RealtimeAlerts.sendEmailAlert ?n ?x ?st] =>
        destruct (sendEmailAlert_run n x st) as [srv [tail [-> _]]]
      end. reflexivity.
    + unfold RealtimeAlerts.acknowledgeAlert, RealtimeAlerts.update_acknowledged,
        RealtimeAlerts.emit, RealtimeAlerts.set_server,
        RealtimeAlerts.setAlerts, RealtimeAlerts.setUnreadCount.
      run_eff. destruct at_; reflexivity.
  - revert s Hlen Hcount. induction acts as [|a acts IH]; intros s Hlen Hcount;
      [split; assumption|].
    simpl. apply IH.
    + destruct a as [net alert | at_ i]; simpl.
      * unfold RealtimeAlerts.onInsert, RealtimeAlerts.emit,
          RealtimeAlerts.setAlerts, RealtimeAlerts.setUnreadCount.
        run_eff. cbn -[RealtimeAlerts.sendEmailAlert String.eqb firstn].
        destruct (String.eqb _ _ && negb _).
        -- match goal with
           | |- context [RealtimeAlerts.sendEmailAlert ?n ?x ?st] =>
             destruct (sendEmailAlert_run n x st) as [srv [tail [-> _]]]
           end.
           cbn -[firstn]. pose proof (firstn_le_length 9 (RealtimeAlerts.alerts s)).
           lia.
        -- cbn -[firstn]. pose proof (firstn_le_length 9 (RealtimeAlerts.alerts s)).
           lia.
      * unfold RealtimeAlerts.acknowledgeAlert, RealtimeAlerts.update_acknowledged,
          RealtimeAlerts.emit, RealtimeAlerts.set_server,
          RealtimeAlerts.setAlerts, RealtimeAlerts.setUnreadCount.
        run_eff. destruct at_; cbn -[String.eqb]; [rewrite length_map|]; exact Hlen.
    + destruct a as [net alert | at_ i]; simpl.
      * unfold RealtimeAlerts.onInsert, RealtimeAlerts.emit,
          RealtimeAlerts.setAlerts, RealtimeAlerts.setUnreadCount.
        run_eff. cbn -[RealtimeAlerts.sendEmailAlert String.eqb firstn Z.add].
        destruct (String.eqb _ _ && negb _).
        -- match goal with
           | |- context [RealtimeAlerts.sendEmailAlert ?n ?x ?st] =>
             destruct (sendEmailAlert_run n x st) as [srv [tail [-> _]]]
           end.
           cbn -[firstn Z.add]. lia.
        -- cbn -[firstn Z.add]. lia.
      * unfold RealtimeAlerts.acknowledgeAlert, RealtimeAlerts.update_acknowledged,
          RealtimeAlerts.emit, RealtimeAlerts.set_server,
          RealtimeAlerts.setAlerts, RealtimeAlerts.setUnreadCount.
        run_eff. destruct at_; cbn -[String.eqb Z.max Z.sub]; lia.
Qed.

(** X20.  Acknowledgement in the panel.  When the update does not reach the
    database, the panel only logs the error: its list, its unread count and
    the backend stay as they were and nothing is announced.  When it does,
    the listed alerts with the given id are marked acknowledged, every
    other field and alert of the list staying as it was (the copy's
    updated_at is not refreshed), and the unread count goes down by one,
    but not below zero. *)
Theorem acknowledge_in_the_panel (at_ : option Sql.timestamptz) (i : string)
    (s : RealtimeAlerts.State) :
  let s' := snd (RealtimeAlerts.acknowledgeAlert at_ i s) in
  match at_ with
  | None =>
    RealtimeAlerts.alerts s' = RealtimeAlerts.alerts s /\
    RealtimeAlerts.unreadCount s' = RealtimeAlerts.unreadCount s /\
    RealtimeAlerts.server s' = RealtimeAlerts.server s /\
    RealtimeAlerts.events s' =
      RealtimeAlerts.events s ++
      [RealtimeAlerts.supabase_update_acknowledged i;
       RealtimeAlerts.console_error "Error acknowledging alert:"]
  | Some t =>
    RealtimeAlerts.unreadCount s' = Z.max 0 (RealtimeAlerts.unreadCount s - 1) /\
    Forall2
      (fun old new =>
         (RealtimeAlerts.id old = i ->
            RealtimeAlerts.acknowledged new = true /\
            RealtimeAlerts.id new = RealtimeAlerts.id old /\
            RealtimeAlerts.alert_type new = RealtimeAlerts.alert_type old /\
            RealtimeAlerts.message new = RealtimeAlerts.message old /\
            RealtimeAlerts.severity new = RealtimeAlerts.severity old /\
            RealtimeAlerts.email_sent new = RealtimeAlerts.email_sent old /\
            RealtimeAlerts.created_at new = RealtimeAlerts.created_at old /\
            RealtimeAlerts.updated_at new = RealtimeAlerts.updated_at old) /\
         (RealtimeAlerts.id old <> i -> new = old))
      (RealtimeAlerts.alerts s) (RealtimeAlerts.alerts s')
  end.
Proof.
  intros s'. subst s'.
  unfold RealtimeAlerts.acknowledgeAlert, RealtimeAlerts.update_acknowledged,
    RealtimeAlerts.emit, RealtimeAlerts.set_server, RealtimeAlerts.setAlerts,
    RealtimeAlerts.setUnreadCount.
  run_eff. destruct at_ as [t|]; cbn -[String.eqb Z.max Z.sub].
  - split; [reflexivity|]. apply Forall2_map_self. intros a.
    destruct (String.eqb_spec (RealtimeAlerts.id a) i) as [E|E].
    + split; [|congruence]. intros _. cbn. repeat split.
    + split; [congruence | reflexivity].
  - repeat split. now rewrite <- app_assoc.
Qed.

(** X21.  From delivery to the marked row.  When a critical alert arrives unsent
    and the function runs in an environment that accepts, with the update
    reaching the database at time [t]: one mail is sent, to the address the
    panel hard-codes and to the safety manager, here the same address, with
    the alert's message, id and creation time and "Mine Site" as location,
    under a subject that ends in the upper-cased severity; the stored alerts
    with that id are marked as emailed; and the only toast is the one that
    announces the alert. *)
Theorem critical_alert_is_mailed_and_marked (e : SendSafetyAlert.Env)
    (alert : RealtimeAlerts.SafetyAlert) (s : RealtimeAlerts.State)
    (t : Sql.timestamptz) :
  RealtimeAlerts.severity alert = "critical" ->
  RealtimeAlerts.email_sent alert = false ->
  Panel.accepts e ->
  SendSafetyAlert.update_at e = Some t ->
  let s' := snd (RealtimeAlerts.onInsert (RealtimeAlerts.Runs e) alert s) in
  let srv := RealtimeAlerts.server s in
  let srv' := RealtimeAlerts.server s' in
  (exists new mail,
     SendSafetyAlert.events srv' = SendSafetyAlert.events srv ++ new /\
     SendSafetyAlert.transport_calls new = [mail] /\
     SendSafetyAlert.to mail =
       [Js.str "secejenish23@gmail.com"; Js.str "secejenish23@gmail.com"] /\
     SendSafetyAlert.subject mail = "🚨 CRITICAL SAFETY ALERT - CRITICAL" /\
     SendSafetyAlert.html mail =
       {| SendSafetyAlert.h_alert := Js.str (RealtimeAlerts.message alert);
          SendSafetyAlert.h_location := Js.str "Mine Site";
          SendSafetyAlert.h_time := Js.str (RealtimeAlerts.created_at alert);
          SendSafetyAlert.h_severity := "CRITICAL";
          SendSafetyAlert.h_alertId := Js.str (RealtimeAlerts.id alert) |}) /\
  SendSafetyAlert.db srv' =
    Sql.update_safety_alert t (Sql.Alert.set_email_sent true)
      (RealtimeAlerts.id alert) (SendSafetyAlert.db srv) /\
  (exists new,
     RealtimeAlerts.events s' = RealtimeAlerts.events s ++ new /\
     Panel.toasts new =
       [RealtimeAlerts.NewSafetyAlert (RealtimeAlerts.message alert)]).
Proof.
  intros Hsev Hsent Hacc Hup s' srv srv'. subst s' srv srv'.
  unfold RealtimeAlerts.onInsert, RealtimeAlerts.emit, RealtimeAlerts.setAlerts,
    RealtimeAlerts.setUnreadCount.
  run_eff. rewrite Hsev, Hsent.
  cbn -[RealtimeAlerts.sendEmailAlert RealtimeAlerts.payload].
  rewrite sendEmailAlert_online.
  cbn -[SendSafetyAlert.handler RealtimeAlerts.payload].
  apply (panel_request_delivers e alert) in Hacc.
  destruct Hacc as [o0 [k0 [sv0 [r0 Hd0]]]].
  destruct (handler_cases e (Panel.request alert) (RealtimeAlerts.server s))
    as [[Hm _] | [[o [key [sev [result [Hd ->]]]]] | [_ [Hno _]]]].
  - discriminate.
  - assert (o = RealtimeAlerts.payload alert) as ->.
    { destruct Hd as [_ [Hj _]]. simpl in Hj. congruence. }
    assert (sev = "critical") as ->.
    { destruct Hd as [_ [_ [_ [_ [Hs _]]]]]. simpl in Hs. congruence. }
    unfold Dispatch.flag_update. rewrite Hup.
    cbn. split; [|split].
    + do 2 eexists. split; [reflexivity|]. cbn. repeat split.
    + reflexivity.
    + rewrite <- !app_assoc. eexists. split; [reflexivity|]. reflexivity.
  - exfalso. exact (Hno _ _ _ _ Hd0).
Qed.

(** ** The statistics *)

Lemma filter_length_le {A} (p : A -> bool) (l : list A) :
  (length (filter p l) <= length l)%nat.
Proof. induction l as [|a l IH]; simpl; [lia|]. destruct (p a); simpl; lia. Qed.

Lemma filter_length_all {A} (p : A -> bool) (l : list A) :
  length (filter p l) = length l <-> Forall (fun a => p a = true) l.
Proof.
  induction l as [|a l IH]; simpl.
  - split; [constructor | reflexivity].
  - pose proof (filter_length_le p l). destruct (p a) eqn:E; simpl.
    + split.
      * intros H'. constructor; [exact E | apply IH; lia].
      * intros H'. inversion H'; subst. f_equal. now apply IH.
    + split; [lia|]. intros H'. inversion H'; subst. congruence.
Qed.

(** A share [k / n * 100] of a total that is not zero. *)
Lemma share_bounds (k n : nat) :
  (k <= n)%nat -> (0 < n)%nat ->
  let share := inject_Z (Z.of_nat k) / inject_Z (Z.of_nat n) * 100 in
  0 <= share /\ share <= 100 /\ (share == 100 <-> k = n).
Proof.
  intros Hk Hn share. subst share.
  assert (0 < inject_Z (Z.of_nat n)) as Hn'.
  { change 0 with (inject_Z 0). rewrite <- Zlt_Qlt. lia. }
  assert (0 <= inject_Z (Z.of_nat k)) as Hk0.
  { change 0 with (inject_Z 0). rewrite <- Zle_Qle. lia. }
  assert (inject_Z (Z.of_nat k) <= inject_Z (Z.of_nat n)) as Hkn.
  { rewrite <- Zle_Qle. lia. }
  revert Hn' Hk0 Hkn.
  assert (inject_Z (Z.of_nat k) == inject_Z (Z.of_nat n) <-> k = n) as Heq.
  { rewrite inject_Z_injective. lia. }
  revert Heq. generalize (inject_Z (Z.of_nat k)) (inject_Z (Z.of_nat n)).
  intros a b Heq Hb Ha Hab.
  assert (0 <= a / b) as H0 by (apply Qle_shift_div_l; [exact Hb | lra]).
  assert (a / b <= 1) as H1 by (apply Qle_shift_div_r; [exact Hb | lra]).
  split; [lra|]. split; [lra|].
  rewrite <- Heq. split; intros H.
  - assert (a / b == 1) as E by lra.
    assert (a == a / b * b) as -> by (field; lra). rewrite E. ring.
  - rewrite H. field. lra.
Qed.

(** X22.  The statistics computed from one state of the table: the total is the
    number of detections; the compliance is a percentage, 100 exactly when
    there are detections and all have a helmet, and 0 on an empty table,
    where nothing is divided; today's violations are among the detections
    without helmet. *)
Theorem stats_of_a_snapshot (now : Sql.timestamptz) (d : Sql.Database) :
  let rows := Sql.helmet_detections d in
  let st := DetectionStats.compute (DetectionStats.answers now d) in
  DetectionStats.totalDetections st = length rows /\
  0 <= DetectionStats.helmetCompliance st /\
  DetectionStats.helmetCompliance st <= 100 /\
  (DetectionStats.helmetCompliance st == 100 <->
     rows <> [] /\ Forall (fun r => Sql.Detection.has_helmet r = true) rows) /\
  (DetectionStats.violationsToday st <=
     length (filter (fun r => negb (Sql.Detection.has_helmet r)) rows))%nat /\
  (rows = [] -> st = DetectionStats.initial).
Proof.
  intros rows st. subst st. unfold DetectionStats.compute, DetectionStats.answers.
  fold rows. cbn [DetectionStats.totalCount DetectionStats.complianceData
    DetectionStats.violationsCount DetectionStats.confidenceData
    DetectionStats.lastDetectionData DetectionStats.totalDetections
    DetectionStats.helmetCompliance DetectionStats.violationsToday].
  assert (Hk : length (filter (fun b : bool => b) (map Sql.Detection.has_helmet rows))
               = length (filter Sql.Detection.has_helmet rows)).
  { clear. induction rows as [|r l IH]; simpl; [reflexivity|].
    destruct (Sql.Detection.has_helmet r); simpl; now rewrite IH. }
  rewrite Hk.
  split; [reflexivity|].
  destruct rows as [|r0 rows0] eqn:Er.
  - simpl. split; [lra|]. split; [lra|].
    split; [split; [intros H; exfalso; revert H; clear; intros H;
                    apply Qeq_bool_iff in H; discriminate
                   | intros [H _]; congruence]|].
    split; [lia | reflexivity].
  - rewrite <- Er in *. clear Hk.
    assert (0 < length rows)%nat as Hn by (rewrite Er; simpl; lia).
    assert ((0 <? length rows)%nat = true) as -> by now apply Nat.ltb_lt.
    destruct (share_bounds (length (filter Sql.Detection.has_helmet rows))
                (length rows) (filter_length_le _ _) Hn) as [H0 [H1 H100]].
    split; [exact H0|]. split; [exact H1|]. split; [|split].
    + rewrite H100, filter_length_all. split; [intros H; split; [congruence | exact H]
                                              | intros [_ H]; exact H].
    + clear. induction rows as [|r l IH]; simpl; [lia|].
      destruct (Sql.Detection.has_helmet r); simpl; [exact IH|].
      destruct (_ <=? _)%Z; simpl; lia.
    + intros H. congruence.
Qed.




Lemma fold_max_spec (ts : list Z) (t : Z) :
  In (fold_left Z.max ts t) (t :: ts) /\
  forall u, In u (t :: ts) -> (u <= fold_left Z.max ts t)%Z.
Proof.
  revert t. induction ts as [|v ts IH]; intros t; simpl.
  - split; [now left | intros u [<- | []]; lia].
  - destruct (IH (Z.max t v)) as [Hin Hub]. split.
    + destruct Hin as [Hin | Hin]; [|now right; right].
      rewrite <- Hin. destruct (Z.max_spec t v) as [[_ ->] | [_ ->]]; auto.
    + intros u [Hu | [Hu | Hu]].
      * specialize (Hub (Z.max t v) (or_introl eq_refl)). lia.
      * specialize (Hub (Z.max t v) (or_introl eq_refl)). lia.
      * apply Hub. now right.
Qed.

(** X24.  The last detection shown is the latest one: it is absent exactly when
    the table is empty, and otherwise it is the timestamp of a stored
    detection that no other exceeds. *)
Theorem last_detection_is_the_latest (now : Sql.timestamptz) (d : Sql.Database) :
  let st := DetectionStats.compute (DetectionStats.answers now d) in
  (DetectionStats.lastDetection st = None <-> Sql.helmet_detections d = []) /\
  (forall t, DetectionStats.lastDetection st = Some t ->
     (exists r, In r (Sql.helmet_detections d) /\
                Sql.Detection.detection_timestamp r = t) /\
     (forall r, In r (Sql.helmet_detections d) ->
                (Sql.Detection.detection_timestamp r <= t)%Z)).
Proof.
  intros st. subst st. unfold DetectionStats.compute, DetectionStats.answers.
  cbn [DetectionStats.lastDetectionData DetectionStats.lastDetection].
  destruct (Sql.helmet_detections d) as [|r rows].
  - simpl. split; [tauto | discriminate].
  - cbn [map DetectionStats.latest].
    split; [split; discriminate|]. intros t E. injection E as <-.
    destruct (fold_max_spec (map Sql.Detection.detection_timestamp rows)
                (Sql.Detection.detection_timestamp r)) as [Hin Hub].
    split.
    + change (Sql.Detection.detection_timestamp r ::
              map Sql.Detection.detection_timestamp rows)
        with (map Sql.Detection.detection_timestamp (r :: rows)) in Hin.
      apply in_map_iff in Hin. destruct Hin as [x [E Hx]]. now exists x.
    + intros x Hx. apply Hub.
      change (Sql.Detection.detection_timestamp r ::
              map Sql.Detection.detection_timestamp rows)
        with (map Sql.Detection.detection_timestamp (r :: rows)).
      now apply in_map.
Qed.

(** ** The controls *)

Lemma analyzeFrame_returns (f : HelmetDetector.Frame) (s : HelmetDetector.State) :
  fst (HelmetDetector.analyzeFrame f s) = Eff.Return tt.
Proof.
  destruct (HelmetDetector.ready f) eqn:Hready.
  - destruct (HelmetDetector.classifier f) as [results|] eqn:Hc.
    + now destruct (analyzeFrame_classified f s results Hready Hc) as [msg [-> _]].
    + now destruct (analyzeFrame_fallback f s Hready Hc) as [msg [-> _]].
  - now rewrite (analyzeFrame_not_ready f s Hready).
Qed.

Lemma stopTracks_run (tracks : Camera.MediaStream) (s : Camera.State) :
  Camera.stopTracks tracks s =
  (Eff.Return tt,
   {| Camera.isActive := Camera.isActive s; Camera.stream := Camera.stream s;
      Camera.srcObject := Camera.srcObject s; Camera.detector := Camera.detector s;
      Camera.isLoading := Camera.isLoading s; Camera.core := Camera.core s;
      Camera.events := Camera.events s ++ map Camera.track_stop tracks |}).
Proof.
  revert s. induction tracks as [|t tracks IH]; intros s; simpl.
  - unfold Eff.ret. rewrite app_nil_r. now destruct s.
  - unfold Eff.bind, Camera.emit, Eff.modify. rewrite IH. simpl.
    now rewrite <- app_assoc.
Qed.

Lemma stopCamera_run (s : Camera.State) :
  Camera.stopCamera s =
  (Eff.Return tt,
   match Camera.stream s with
   | None => s
   | Some tracks =>
     {| Camera.isActive := false; Camera.stream := None;
        Camera.srcObject := Camera.srcObject s;
        Camera.detector := Camera.detector s;
        Camera.isLoading := Camera.isLoading s;
        Camera.core :=
          {| HelmetDetector.accessGranted := false;
             HelmetDetector.detectionResult := None;
             HelmetDetector.db := HelmetDetector.db (Camera.core s);
             HelmetDetector.events := HelmetDetector.events (Camera.core s) |};
        Camera.events :=
          Camera.events s ++ map Camera.track_stop tracks ++
          [Camera.toast Camera.CameraStopped] |}
   end).
Proof.
  unfold Camera.stopCamera. unfold Eff.bind at 1. unfold Eff.gets at 1.
  destruct (Camera.stream s) as [tracks|]; [|reflexivity].
  unfold Eff.bind at 1. rewrite stopTracks_run.
  unfold Camera.setStream, Camera.setIsActive, Camera.lift, Camera.emit,
    HelmetDetector.setDetectionResult, HelmetDetector.setAccessGranted.
  run_eff. simpl. now rewrite <- app_assoc.
Qed.

Lemma tick_run (f : HelmetDetector.Frame) (s : Camera.State) :
  Camera.tick f s =
  if Camera.isActive s && Camera.detector s then
    (Eff.Return tt,
     {| Camera.isActive := Camera.isActive s; Camera.stream := Camera.stream s;
        Camera.srcObject := Camera.srcObject s;
        Camera.detector := Camera.detector s;
        Camera.isLoading := Camera.isLoading s;
        Camera.core := snd (HelmetDetector.analyzeFrame f (Camera.core s));
        Camera.events := Camera.events s |})
  else (Eff.Return tt, s).
Proof.
  unfold Camera.tick, Camera.lift. run_eff.
  cbn -[HelmetDetector.analyzeFrame].
  destruct (Camera.isActive s) eqn:Ha, (Camera.detector s) eqn:Hd;
    cbn -[HelmetDetector.analyzeFrame]; try reflexivity.
  pose proof (analyzeFrame_returns f (Camera.core s)) as H.
  destruct (HelmetDetector.analyzeFrame f (Camera.core s)) as [r c'].
  cbn [fst snd] in *. subst r. now rewrite Ha, Hd.
Qed.

Lemma initializeDetector_run (loads : bool) (s : Camera.State) :
  Camera.initializeDetector loads s =
  (Eff.Return tt,
   {| Camera.isActive := Camera.isActive s; Camera.stream := Camera.stream s;
      Camera.srcObject := Camera.srcObject s;
      Camera.detector := if loads then true else Camera.detector s;
      Camera.isLoading := false;
      Camera.core := Camera.core s;
      Camera.events :=
        Camera.events s ++
        if loads then [Camera.toast Camera.AIModelLoaded]
        else [Camera.console_error "Error loading detector:";
              Camera.toast Camera.ModelLoadingFailed] |}).
Proof.
  unfold Camera.initializeDetector, Camera.try_finally, Camera.pipeline,
    Camera.setIsLoading, Camera.setDetector, Camera.emit.
  run_eff. destruct loads; simpl; [reflexivity | now rewrite <- app_assoc].
Qed.

Lemma startCamera_run (media : option Camera.MediaStream) (video : bool)
    (s : Camera.State) :
  Camera.startCamera media video s =
  (Eff.Return tt,
   match media with
   | Some m =>
     if video then
       {| Camera.isActive := true; Camera.stream := Some m;
          Camera.srcObject := Some m; Camera.detector := Camera.detector s;
          Camera.isLoading := Camera.isLoading s; Camera.core := Camera.core s;
          Camera.events := Camera.events s ++ [Camera.toast Camera.CameraStarted] |}
     else s
   | None =>
     {| Camera.isActive := Camera.isActive s; Camera.stream := Camera.stream s;
        Camera.srcObject := Camera.srcObject s;
        Camera.detector := Camera.detector s;
        Camera.isLoading := Camera.isLoading s; Camera.core := Camera.core s;
        Camera.events :=
          Camera.events s ++
          [Camera.console_error "Error accessing camera:";
           Camera.toast Camera.CameraAccessDenied] |}
   end).
Proof.
  unfold Camera.startCamera, Camera.getUserMedia, Camera.setSrcObject,
    Camera.setStream, Camera.setIsActive, Camera.emit.
  run_eff. destruct media as [m|]; [destruct video|]; simpl;
    rewrite <- ?app_assoc; reflexivity.
Qed.


(** X26.  Stopping the camera revokes access.  With a stream at hand,
    [stopCamera] stops each of its tracks once, deactivates the component,
    denies access and clears the result, leaving the database alone, and
    the detection loop then does nothing; without a stream it does nothing
    at all. *)
Theorem stopCamera_revokes_access (s : Camera.State) :
  let s' := snd (Camera.stopCamera s) in
  match Camera.stream s with
  | Some tracks =>
    Camera.isActive s' = false /\
    Camera.stream s' = None /\
    HelmetDetector.accessGranted (Camera.core s') = false /\
    HelmetDetector.detectionResult (Camera.core s') = None /\
    HelmetDetector.db (Camera.core s') = HelmetDetector.db (Camera.core s) /\
    Camera.events s' =
      Camera.events s ++ map Camera.track_stop tracks ++
      [Camera.toast Camera.CameraStopped] /\
    (forall f, Camera.tick f s' = (Eff.Return tt, s'))
  | None => s' = s
  end.
Proof.
  intros s'. subst s'. rewrite stopCamera_run. cbn [snd].
  destruct (Camera.stream s) as [tracks|]; [|reflexivity].
  repeat split.
Qed.

(** X27.  Loading the model.  [initializeDetector] never throws and always ends
    with the loading flag cleared; the component holds a model afterwards
    exactly if it held one before or the load succeeded; one toast tells
    which; the camera and the access state are not touched. *)
Theorem initializeDetector_clears_loading (loads : bool) (s : Camera.State) :
  let out := fst (Camera.initializeDetector loads s) in
  let s' := snd (Camera.initializeDetector loads s) in
  out = Eff.Return tt /\
  Camera.isLoading s' = false /\
  Camera.detector s' = Camera.detector s || loads /\
  Camera.isActive s' = Camera.isActive s /\
  Camera.stream s' = Camera.stream s /\
  Camera.core s' = Camera.core s /\
  exists new,
    Camera.events s' = Camera.events s ++ new /\
    flat_map (fun e => match e with Camera.toast t => [t] | _ => [] end) new =
      [if loads then Camera.AIModelLoaded else Camera.ModelLoadingFailed].
Proof.
  intros out s'. subst out s'. rewrite initializeDetector_run. cbn [fst snd].
  repeat split.
  - cbn. destruct loads, (Camera.detector s); reflexivity.
  - eexists. split; [reflexivity|]. now destruct loads.
Qed.

(** X28.  Without a loaded model nothing is ever detected: if no load succeeds,
    then whatever else is done to a freshly mounted component, no frame is
    analysed, so nothing is saved, no result is shown and access stays
    denied, although the failed load announces a fallback method. *)
Theorem no_model_no_detection (acts : list Camera.Action) (d : Sql.Database) :
  (forall a, In a acts -> a <> Camera.Initialize true) ->
  let s := Camera.run acts (Camera.initial (HelmetDetector.initial d)) in
  Camera.detector s = false /\
  Camera.core s = HelmetDetector.initial d.
Proof.
  intros Hacts.
  assert (H : forall s0,
            Camera.detector s0 = false ->
            Camera.core s0 = HelmetDetector.initial d ->
            Camera.detector (Camera.run acts s0) = false /\
            Camera.core (Camera.run acts s0) = HelmetDetector.initial d).
  { induction acts as [|a acts IH]; intros s0 Hd Hc; [now split|].
    simpl. apply IH.
    - intros b Hb. apply Hacts. now right.
    - destruct a as [loads | media video | | f]; simpl.
      + rewrite initializeDetector_run. simpl.
        destruct loads; [|exact Hd].
        exfalso. apply (Hacts (Camera.Initialize true)); [now left | reflexivity].
      + rewrite startCamera_run. destruct media; [destruct video|]; exact Hd.
      + rewrite stopCamera_run. cbn [snd]. destruct (Camera.stream s0); exact Hd.
      + rewrite tick_run, Hd, andb_false_r. exact Hd.
    - destruct a as [loads | media video | | f]; simpl.
      + rewrite initializeDetector_run. exact Hc.
      + rewrite startCamera_run. destruct media; [destruct video|]; exact Hc.
      + rewrite stopCamera_run. cbn [snd].
        destruct (Camera.stream s0); [|exact Hc]. cbn. now rewrite Hc.
      + rewrite tick_run, Hd, andb_false_r. exact Hc. }
  apply H; reflexivity.
Qed.

(** ** Further runs on concrete inputs *)

(** A person with a hardhat grants access, with one toast. *)
Lemma classified_frame_steps_the_machine_witness :
  let s' := snd (HelmetDetector.analyzeFrame
                   (Scenario.frame Scenario.person_and_hardhat Scenario.g1)
                   (HelmetDetector.initial Sql.empty)) in
  HelmetDetector.accessGranted s' = true /\
  HelmetDetector.notifications (HelmetDetector.events s') =
    [HelmetDetector.AccessGranted].
Proof.
  destruct (classified_frame_steps_the_machine
              (Scenario.frame Scenario.person_and_hardhat Scenario.g1)
              (HelmetDetector.initial Sql.empty)
              Scenario.person_and_hardhat eq_refl eq_refl) as [_ [Ha Hn]].
  split; [rewrite Ha | rewrite Hn]; reflexivity.
Defined.

(** A hardhat with nobody under it raises an alert and denies access. *)
Lemma alert_means_no_person_witness :
  let s := HelmetDetector.initial Sql.empty in
  let s' := snd (HelmetDetector.analyzeFrame
                   (Scenario.frame Cases.hardhat_only Scenario.g1) s) in
  Sql.safety_alerts (HelmetDetector.db s') <> Sql.safety_alerts (HelmetDetector.db s) /\
  ~ (exists o, In o Cases.hardhat_only /\ Spec.IsPerson o) /\
  HelmetDetector.accessGranted s' = false.
Proof.
  intros s s'.
  assert (Sql.safety_alerts (HelmetDetector.db s') <>
          Sql.safety_alerts (HelmetDetector.db s)) as Hneq
    by (vm_compute; discriminate).
  split; [exact Hneq|].
  destruct (alert_means_no_person
              (Scenario.frame Cases.hardhat_only Scenario.g1) s
              Cases.hardhat_only eq_refl eq_refl Hneq) as [H1 [_ H3]].
  split; assumption.
Defined.

(** The person with a hardhat is stored, with a confidence of 0.85. *)
Lemma classified_frame_is_stored_witness :
  exists row rest,
    Sql.helmet_detections
      (HelmetDetector.db
         (snd (HelmetDetector.analyzeFrame
                 (Scenario.frame Scenario.person_and_hardhat Scenario.g1)
                 (HelmetDetector.initial Sql.empty)))) = [] ++ [row] /\
    HelmetDetector.events
      (snd (HelmetDetector.analyzeFrame
              (Scenario.frame Scenario.person_and_hardhat Scenario.g1)
              (HelmetDetector.initial Sql.empty))) =
      [] ++
      HelmetDetector.supabase_insert
        (Detector.values_of
           (Verdict.verdict Scenario.person_and_hardhat 1)
           (Some "data:image/jpeg;base64,")) ::
      HelmetDetector.console_log "Detection saved to database" :: rest /\
    Sql.Detection.id row = "d1".
Proof.
  assert (forall o, In o Scenario.person_and_hardhat ->
                    0 <= Verdict.score o /\ Verdict.score o <= 1) as Hscores.
  { intros o [<- | [<- | []]]; unfold Qle; simpl; lia. }
  destruct (classified_frame_is_stored
              (Scenario.frame Scenario.person_and_hardhat Scenario.g1)
              (HelmetDetector.initial Sql.empty)
              Scenario.person_and_hardhat Scenario.g1
              eq_refl eq_refl Hscores eq_refl eq_refl eq_refl)
    as [row [rest [Hrows [Hev [Hid _]]]]].
  exists row, rest. split; [exact Hrows|]. split; [exact Hev | exact Hid].
Defined.

(** A second insert under the id d1 is refused as a duplicate. *)
Lemma insert_detection_failures_witness :
  Sql.insert_detection Scenario.g1 Scenario.no_helmet Scenario.db1 =
    inr Sql.unique_violation /\
  Sql.unique_violation <> Sql.foreign_key_violation.
Proof.
  assert (Sql.insert_detection Scenario.g1 Scenario.no_helmet Scenario.db1 =
          inr Sql.unique_violation) as E by reflexivity.
  destruct (insert_detection_failures _ _ _ _ E) as [H _].
  split; [exact E | exact H].
Defined.

(** The database with the detection d1 and its alert a1. *)
Lemma reachable_ids_are_unique_witness :
  Sql.reachable Scenario.db1 /\
  NoDup (map Sql.Detection.id (Sql.helmet_detections Scenario.db1)) /\
  NoDup (map Sql.Alert.id (Sql.safety_alerts Scenario.db1)).
Proof.
  assert (Sql.reachable Scenario.db1) as Hr.
  { apply (Sql.reach_insert Scenario.g1 Scenario.no_helmet Sql.empty);
      [apply Sql.reach_empty | reflexivity]. }
  destruct (reachable_ids_are_unique Scenario.db1 Hr) as [H1 [H2 _]].
  split; [exact Hr|]. split; assumption.
Defined.

(** From the empty database to the one with d1 and a1. *)
Lemma history_only_grows_witness :
  History.evolves Sql.empty Scenario.db1 /\
  exists rows kept added,
    Sql.helmet_detections Scenario.db1 = Sql.helmet_detections Sql.empty ++ rows /\
    Sql.safety_alerts Scenario.db1 = kept ++ added /\
    Forall2 History.keeps (Sql.safety_alerts Sql.empty) kept.
Proof.
  assert (History.evolves Sql.empty Scenario.db1) as He.
  { apply (History.ev_insert Scenario.g1 Scenario.no_helmet Sql.empty Sql.empty);
      [apply History.ev_refl | reflexivity]. }
  split; [exact He | exact (history_only_grows _ _ He)].
Defined.


(** At a confidence of 0.604 the overlay announces an alert that the
    trigger does not raise. *)
Lemma alert_threshold_in_force_witness :
  DetectionOverlay.alertSentBanner
    (DetectionOverlay.props Cases.near_miss 640 480) = true /\
  Sql.violation Cases.near_miss_row = false.
Proof.
  destruct (alert_threshold_in_force Cases.near_miss 640 480 Cases.near_miss_row)
    as [_ [_ H]].
  - unfold Qle. simpl. lia.
  - reflexivity.
  - reflexivity.
  - apply H. split; [reflexivity|]. split; unfold Qlt; simpl; lia.
Defined.



(** A delivery and two acknowledgements leave the unread count at 1. *)
Lemma panel_stays_within_bounds_witness :
  (length (RealtimeAlerts.alerts (Panel.run Cases.panel_session Scenario.panel))
     <= 10)%nat /\
  (0 <= RealtimeAlerts.unreadCount (Panel.run Cases.panel_session Scenario.panel))%Z.
Proof.
  destruct (panel_stays_within_bounds Cases.panel_session Scenario.panel)
    as [_ H].
  - simpl. lia.
  - simpl. lia.
  - exact H.
Defined.

(** The alert a1 is mailed and marked at time 3. *)
Lemma critical_alert_is_mailed_and_marked_witness :
  SendSafetyAlert.db
    (RealtimeAlerts.server
       (snd (RealtimeAlerts.onInsert (RealtimeAlerts.Runs Scenario.mail_accepted)
               Cases.unsent Scenario.panel))) =
  Sql.update_safety_alert 3%Z (Sql.Alert.set_email_sent true) "a1"
    (SendSafetyAlert.db (RealtimeAlerts.server Scenario.panel)).
Proof.
  assert (Panel.accepts Scenario.mail_accepted) as Hacc.
  { split; [discriminate|]. split; [now exists "re_key"|].
    exists "", [("id", Js.str "e1")]. reflexivity. }
  destruct (critical_alert_is_mailed_and_marked Scenario.mail_accepted
              Cases.unsent Scenario.panel 3%Z eq_refl eq_refl Hacc eq_refl)
    as [_ [H _]].
  exact H.
Defined.



(** The same session when the model does not load. *)
Lemma no_model_no_detection_witness :
  Camera.core (Camera.run (Cases.session false) Cases.mounted) =
  HelmetDetector.initial Sql.empty.
Proof.
  destruct (no_model_no_detection (Cases.session false) Sql.empty) as [_ H].
  - intros a [<- | [<- | [<- | [<- | []]]]]; discriminate.
  - exact H.
Defined.
